(** * Service Doctor: failure tracking and alert escalation

    A shallow embedding of the two implementations of the service monitor,
    [service-doctor/simple-version/main.py] (module [Simple]) and
    [service-doctor/solid-version/main.py] (module [Solid]), and the
    properties of the sliding failure window, the event stores, the
    notification senders, the scan cycle and the run loop.

    Conventions of the embedding:
    - a [datetime] is an integer number of microseconds (the resolution of
      Python's [datetime]); [timedelta(hours=h)] is [h] whole hours;
    - MongoDB keeps a datetime in whole milliseconds ([bson_datetime]);
      Redis orders a sorted set by the float [datetime.timestamp()], which
      goes through the local time zone: the repository carries that
      conversion ([posix]), of which nothing is assumed, neither that it
      keeps the order of the datetimes nor that it tells them apart;
      [posix t] reads [t] with the fold the program holds it with, and a
      local time that the program holds with both folds, read to the same
      microsecond in the two passes through a repeated hour, is not
      modelled;
    - Python code runs in the monad [M]: a world is threaded through every
      call and a call either returns a value or raises an exception;
    - everything outside the process (the wall clock, [systemctl], the SMTP
      and HTTP endpoints, the reachability of the database servers) is an
      oracle of the environment [Env] or a flag of the modelled server;
    - [logging] appends to the [log] of the world; a message keeps the wording
      of the source, with numbers and datetimes rendered by [pretty]. *)

From stdpp Require Import base option list sorting gmap strings pretty.
From Stdlib Require Import ZArith Lia.

Local Open Scope string_scope.
Local Open Scope list_scope.
Local Open Scope Z_scope.

(** ** Python values and exceptions *)

(** The values a configuration dictionary holds ([Dict[str, Any]]). *)
Inductive PyVal :=
| PyNone
| PyBool (b : bool)
| PyInt (n : Z)
| PyStr (s : string).

(** Python truthiness, as used by [if not x]. *)
Definition truthy (v : PyVal) : bool :=
  match v with
  | PyNone => false
  | PyBool b => b
  | PyInt n => negb (n =? 0)
  | PyStr s => negb (String.eqb s "")
  end.

(** [str(v)], for the values interpolated in messages. *)
Definition py_str (v : PyVal) : string :=
  match v with
  | PyNone => "None"
  | PyBool true => "True"
  | PyBool false => "False"
  | PyInt n => pretty n
  | PyStr s => s
  end.

(** The exceptions that derive from [Exception]. *)
Inductive ExnClass :=
| FileNotFoundError
| KeyError
| ValueError
| OtherError.

Record Exn := mkExn { exn_class : ExnClass; exn_text : string }.

(** What a call outside the code under study gives back: a value, or an
    [Exception]. *)
Inductive Try (A : Type) :=
| Ok (a : A)
| Fails (e : Exn).
Arguments Ok {A} a.
Arguments Fails {A} e.

(** How a call ends: it returns, it raises an [Exception], or the process is
    interrupted ([KeyboardInterrupt], which [except Exception] lets through).
    The interrupt is delivered in the monitoring loop only. *)
Inductive Outcome (A : Type) :=
| Returned (a : A)
| Raised (e : Exn)
| Interrupted.
Arguments Returned {A} a.
Arguments Raised {A} e.
Arguments Interrupted {A}.

Definition of_try {A} (r : Try A) : Outcome A :=
  match r with
  | Ok a => Returned a
  | Fails e => Raised e
  end.

(** ** The monad of Python code *)

Definition M (W A : Type) : Type := W → Outcome A * W.

Global Instance M_ret {W} : MRet (M W) := λ A a w, (Returned a, w).

Global Instance M_bind {W} : MBind (M W) := λ A B f m w,
  match m w with
  | (Returned a, w') => f a w'
  | (Raised e, w') => (Raised e, w')
  | (Interrupted, w') => (Interrupted, w')
  end.

Definition raise {W A} (e : Exn) : M W A := λ w, (Raised e, w).

Definition gets {W A} (f : W → A) : M W A := λ w, (Returned (f w), w).

Definition modify {W} (f : W → W) : M W unit := λ w, (Returned tt, f w).

(** [try: body  except Exception as e: handler e]. *)
Definition try_except {W A} (body : M W A) (handler : Exn → M W A) : M W A :=
  λ w, match body w with
       | (Returned a, w') => (Returned a, w')
       | (Raised e, w') => handler e w'
       | (Interrupted, w') => (Interrupted, w')
       end.

(** [try: body  except KeyboardInterrupt: on_interrupt
    except Exception as e: handler e]. *)
Definition try_except_interrupt {W A} (body : M W A) (on_interrupt : M W A)
    (handler : Exn → M W A) : M W A :=
  λ w, match body w with
       | (Returned a, w') => (Returned a, w')
       | (Raised e, w') => handler e w'
       | (Interrupted, w') => on_interrupt w'
       end.

(** [if c: body]. *)
Definition when {W} (c : bool) (body : M W unit) : M W unit :=
  if c then body else mret tt.

(** [for x in xs: body x]. *)
Fixpoint for_each {W A} (xs : list A) (body : A → M W unit) : M W unit :=
  match xs with
  | [] => mret tt
  | x :: xs' => body x ;; for_each xs' body
  end.

(** A loop left by [return]: the first [body x] that gives [Some] ends it. *)
Fixpoint for_first {W A B} (xs : list A) (body : A → M W (option B))
    : M W (option B) :=
  match xs with
  | [] => mret None
  | x :: xs' =>
      r ← body x;
      match r with
      | Some b => mret (Some b)
      | None => for_first xs' body
      end
  end.

(** The world a call is left in, and its outcome. *)
Definition exec {W A} (m : M W A) (w : W) : W := (m w).2.
Definition outcome {W A} (m : M W A) (w : W) : Outcome A := (m w).1.

(** ** Time *)

Definition datetime := Z.

Definition timedelta_hours (h : Z) : Z := h * 3600000000.
Definition timedelta_minutes (m : Z) : Z := m * 60000000.

(** ** Logging *)

Inductive Level := DEBUG | INFO | WARNING | ERROR.

Record LogRecord := Log { lvl : Level; msg : string }.

(** ** The outside of the process *)

Record CompletedProcess :=
  { returncode : Z; stdout : string; stderr : string }.

(** What a notification carries: the rendered text is a function of the
    service name and of the failure timestamps. *)
Inductive NetCall :=
| SmtpSend (server port sender password receiver : PyVal)
           (service_name : string) (failures : list datetime)
| HttpPost (url : PyVal) (service_name : string) (failures : list datetime).

Record HttpResponse := { status_code : Z; text : string }.

(** The oracles: [clock n] is the local time and [utc_clock n] the UTC time
    at the [n]-th reading of the wall clock, [subprocess_run n] the result of
    the [n]-th spawned command, [smtp n] and [requests_post n] the result of
    the [n]-th network call. *)
Record Env := {
  clock : nat → datetime;
  utc_clock : nat → datetime;
  subprocess_run : nat → list string → Try CompletedProcess;
  smtp : nat → NetCall → Try unit;
  requests_post : nat → NetCall → Try HttpResponse;
}.

(** A job of the [schedule] library. *)
Inductive JobFunc := JobScanServices | JobCleanupOldData.

Record Job := { period : Z; next_run : datetime; job_func : JobFunc }.

(** The state of the process and of what it talks to; [X] is the part that
    differs between the two versions (the database side). *)
Record World (X : Type) := mkWorld {
  ticks : nat;
  spawned : nat;
  log : list LogRecord;
  net : list NetCall;
  service_failures : gmap string (list datetime);
  jobs : list Job;
  ext : X;
}.
Arguments mkWorld {X}.
Arguments ticks {X}.
Arguments spawned {X}.
Arguments log {X}.
Arguments net {X}.
Arguments service_failures {X}.
Arguments jobs {X}.
Arguments ext {X}.

Section Builtins.
Context {X : Type}.
Variable env : Env.

Definition set_ticks (n : nat) (w : World X) : World X :=
  mkWorld n (spawned w) (log w) (net w) (service_failures w) (jobs w) (ext w).
Definition set_spawned (n : nat) (w : World X) : World X :=
  mkWorld (ticks w) n (log w) (net w) (service_failures w) (jobs w) (ext w).
Definition set_log (l : list LogRecord) (w : World X) : World X :=
  mkWorld (ticks w) (spawned w) l (net w) (service_failures w) (jobs w) (ext w).
Definition set_net (l : list NetCall) (w : World X) : World X :=
  mkWorld (ticks w) (spawned w) (log w) l (service_failures w) (jobs w) (ext w).
Definition set_service_failures (m : gmap string (list datetime))
    (w : World X) : World X :=
  mkWorld (ticks w) (spawned w) (log w) (net w) m (jobs w) (ext w).
Definition set_jobs (l : list Job) (w : World X) : World X :=
  mkWorld (ticks w) (spawned w) (log w) (net w) (service_failures w) l (ext w).
Definition set_ext (x : X) (w : World X) : World X :=
  mkWorld (ticks w) (spawned w) (log w) (net w) (service_failures w) (jobs w) x.

(** [logging.<level>(text)]. *)
Definition logging (l : Level) (text : string) : M (World X) unit :=
  modify (λ w, set_log (log w ++ [Log l text]) w).

(** [datetime.now()] and [datetime.utcnow()]: the next reading. *)
Definition datetime_now : M (World X) datetime :=
  λ w, (Returned (clock env (ticks w)), set_ticks (S (ticks w)) w).

Definition datetime_utcnow : M (World X) datetime :=
  λ w, (Returned (utc_clock env (ticks w)), set_ticks (S (ticks w)) w).

(** [subprocess.run(args, capture_output=True, text=True, check=False)]. *)
Definition subprocess (args : list string) : M (World X) CompletedProcess :=
  λ w, (of_try (subprocess_run env (spawned w) args),
        set_spawned (S (spawned w)) w).

(** A network call: it is put on the wire, then the oracle answers. *)
Definition smtp_send (c : NetCall) : M (World X) unit :=
  λ w, (of_try (smtp env (length (net w)) c), set_net (net w ++ [c]) w).

Definition http_post (c : NetCall) : M (World X) HttpResponse :=
  λ w, (of_try (requests_post env (length (net w)) c),
        set_net (net w ++ [c]) w).

(** [service_failures[name]] on the [defaultdict(list)]: a missing key
    reads as the empty list. *)
Definition failures_of (name : string) (w : World X) : list datetime :=
  default [] (service_failures w !! name).

Definition set_failures (name : string) (l : list datetime) (w : World X)
    : World X :=
  set_service_failures (<[name := l]> (service_failures w)) w.
End Builtins.

(** ** The service probe ([systemctl])

    [check_service] and [restart_service] of the simple version and the
    methods of [SystemdServiceChecker] and [SystemdServiceManager] of the
    solid version are the same code. *)

(** [str.isspace()] on an ASCII character: the blank, the characters from
    the tabulation to the carriage return, and the four separators. *)
Definition isspace (c : Ascii.ascii) : bool :=
  Ascii.is_space c
  || ((28 <=? Ascii.nat_of_ascii c)%nat && (Ascii.nat_of_ascii c <=? 31)%nat).

(** [str.strip()], for the ASCII whitespace characters. *)
Fixpoint lstrip (s : string) : string :=
  match s with
  | String c s' => if isspace c then lstrip s' else s
  | EmptyString => EmptyString
  end.

Definition strip (s : string) : string :=
  String.rev (lstrip (String.rev (lstrip s))).

Section Probe.
Context {X : Type}.
Variable env : Env.

Definition check_service (service_name : string) : M (World X) bool :=
  try_except
    (result ← subprocess env ["systemctl"; "is-active"; service_name];
     mret (String.eqb (strip (stdout result)) "active"))
    (λ e,
      match exn_class e with
      | FileNotFoundError =>
          logging ERROR
            "systemctl command not found. Are you running in a systemd-enabled environment?";;
          mret false
      | _ =>
          logging ERROR
            ("Error checking service " +:+ service_name +:+ ": " +:+ exn_text e);;
          mret false
      end).

Definition restart_service (service_name : string) : M (World X) bool :=
  try_except
    (result ← subprocess env ["systemctl"; "restart"; service_name];
     let success := returncode result =? 0 in
     (if success
      then logging INFO ("Successfully restarted service " +:+ service_name)
      else logging ERROR ("Failed to restart service " +:+ service_name
                          +:+ ": " +:+ stderr result));;
     mret success)
    (λ e,
      match exn_class e with
      | FileNotFoundError =>
          logging ERROR "systemctl command not found. Cannot restart service.";;
          mret false
      | _ =>
          logging ERROR
            ("Error restarting service " +:+ service_name +:+ ": " +:+ exn_text e);;
          mret false
      end).
End Probe.

(** ** The InfluxDB server *)

Record Point := {
  measurement : string;
  tag_service : string;
  tag_event_type : string;
  field_success : bool;
  field_value : Z;
  point_time : datetime;
}.

(** A bucket of points; a write to a server that is not reachable raises. *)
Record InfluxServer := { influx_up : bool; points : list Point }.

Definition influx_write (p : Point) (s : InfluxServer) : Try unit * InfluxServer :=
  if influx_up s
  then (Ok tt, {| influx_up := true; points := points s ++ [p] |})
  else (Fails (mkExn OtherError "connection refused"), s).

(** * The simple version *)

Module Simple.

Record InfluxConfig := {
  influx_enabled : bool;
  influx_url : PyVal;
  influx_token : PyVal;
  influx_org : PyVal;
  influx_bucket : PyVal;
}.

Record EmailConfig := {
  email_enabled : bool;
  email_password : PyVal;
  sender_email : PyVal;
  receiver_email : PyVal;
  smtp_server : PyVal;
  smtp_port : PyVal;
}.

Record WebhookConfig := { webhook_enabled : bool; webhook_url : PyVal }.

(** [CONFIG], as [load_config] leaves it. *)
Record Config := {
  services : list string;
  scan_interval_minutes : Z;
  alert_window_hours : Z;
  alert_threshold : Z;
  influxdb : InfluxConfig;
  email : EmailConfig;
  slack : WebhookConfig;
  teams : WebhookConfig;
}.

Abbreviation World := (World InfluxServer).

Section Code.
Variable env : Env.
Variable CONFIG : Config.

(** [write_api.write(bucket=..., record=point)]. *)
Definition write_point (point : Point) : M World unit :=
  λ w, (of_try (influx_write point (ext w)).1,
        set_ext (influx_write point (ext w)).2 w).

(** [save_to_influxdb(service_name, event_type, success)]. *)
Definition save_to_influxdb (service_name event_type : string)
    (success : bool) : M World unit :=
  let influx_config := influxdb CONFIG in
  if negb (influx_enabled influx_config) then mret tt
  else if negb (truthy (influx_url influx_config))
          || negb (truthy (influx_token influx_config))
          || negb (truthy (influx_org influx_config))
          || negb (truthy (influx_bucket influx_config))
  then logging ERROR
         "InfluxDB 2.x logging is enabled but connection parameters (URL, Token, Org, Bucket) are missing."
  else
    try_except
      (utcnow ← datetime_utcnow env;
       let point :=
         {| measurement := "service_events";
            tag_service := service_name;
            tag_event_type := event_type;
            field_success := success;
            field_value :=
              if negb (String.eqb event_type "check") then 1
              else if success then 1 else 0;
            point_time := utcnow |} in
       write_point point;;
       logging DEBUG ("Saved " +:+ event_type +:+ " event for " +:+ service_name
                      +:+ " to InfluxDB 2.x bucket "
                      +:+ py_str (influx_bucket influx_config)))
      (λ e, logging ERROR ("Failed to save data to InfluxDB 2.x: " +:+ exn_text e)).

(** [send_email_alert(service_name)]. *)
Definition send_email_alert (service_name : string) : M World unit :=
  let email_config := email CONFIG in
  if negb (email_enabled email_config) || negb (truthy (email_password email_config))
  then logging DEBUG "Email notifications not enabled or password missing."
  else
    try_except
      (failures ← gets (failures_of service_name);
       smtp_send env (SmtpSend (smtp_server email_config) (smtp_port email_config)
                        (sender_email email_config) (email_password email_config)
                        (receiver_email email_config) service_name failures);;
       logging INFO ("Email alert sent for service " +:+ service_name))
      (λ e, logging ERROR ("Failed to send email alert for service "
                           +:+ service_name +:+ ": " +:+ exn_text e)).

(** The body shared by [send_slack_alert] and [send_teams_alert]. *)
Definition send_webhook_alert (kind : string) (webhook_config : WebhookConfig)
    (service_name : string) : M World unit :=
  if negb (webhook_enabled webhook_config) || negb (truthy (webhook_url webhook_config))
  then logging DEBUG (kind +:+ " notifications not enabled or webhook URL missing.")
  else
    try_except
      (failures ← gets (failures_of service_name);
       response ← http_post env (HttpPost (webhook_url webhook_config)
                                  service_name failures);
       if status_code response =? 200
       then logging INFO (kind +:+ " alert sent for service " +:+ service_name)
       else logging ERROR ("Failed to send " +:+ kind +:+ " alert: "
                           +:+ pretty (status_code response) +:+ " - "
                           +:+ text response))
      (λ e, logging ERROR ("Failed to send " +:+ kind +:+ " alert for service "
                           +:+ service_name +:+ ": " +:+ exn_text e)).

Definition send_slack_alert : string → M World unit :=
  send_webhook_alert "Slack" (slack CONFIG).

Definition send_teams_alert : string → M World unit :=
  send_webhook_alert "Teams" (teams CONFIG).

(** [send_alert(service_name)]. *)
Definition send_alert (service_name : string) : M World unit :=
  n ← gets (λ w, length (failures_of service_name w));
  logging WARNING ("Alert triggered for service " +:+ service_name +:+ " - "
                   +:+ pretty n +:+ " failures");;
  when (email_enabled (email CONFIG)) (send_email_alert service_name);;
  when (webhook_enabled (slack CONFIG)) (send_slack_alert service_name);;
  when (webhook_enabled (teams CONFIG)) (send_teams_alert service_name).

(** [record_failure(service_name)]. *)
Definition record_failure (service_name : string) : M World unit :=
  now ← datetime_now env;
  modify (λ w, set_failures service_name (failures_of service_name w ++ [now]) w);;
  let cutoff_time := now - timedelta_hours (alert_window_hours CONFIG) in
  modify (λ w, set_failures service_name
                 (filter (λ t, cutoff_time ≤ t) (failures_of service_name w)) w);;
  n ← gets (λ w, length (failures_of service_name w));
  when (alert_threshold CONFIG <=? Z.of_nat n) (send_alert service_name);;
  when (influx_enabled (influxdb CONFIG))
       (save_to_influxdb service_name "failure" false).

(** The body of the loop of [scan_services]. *)
Definition scan_service (service : string) : M World unit :=
  logging DEBUG ("Checking service: " +:+ service);;
  running ← check_service env service;
  if running : bool then
    logging DEBUG ("Service " +:+ service +:+ " is running");;
    when (influx_enabled (influxdb CONFIG)) (save_to_influxdb service "check" true)
  else
    logging WARNING ("Service " +:+ service +:+ " is down, attempting to restart");;
    restart_success ← restart_service env service;
    if restart_success : bool then
      logging INFO ("Service " +:+ service +:+ " restarted successfully");;
      when (influx_enabled (influxdb CONFIG)) (save_to_influxdb service "restart" true)
    else
      logging ERROR ("Failed to restart service " +:+ service);;
      record_failure service.

(** [scan_services()]. *)
Definition scan_services : M World unit :=
  logging INFO "Starting service scan...";;
  for_each (services CONFIG) scan_service;;
  logging INFO "Service scan completed".
End Code.
End Simple.

(** * The solid version *)

Module Solid.

Inductive EventType := CHECK | RESTART | FAILURE.

(** [EventType.value]. *)
Definition value (t : EventType) : string :=
  match t with
  | CHECK => "check"
  | RESTART => "restart"
  | FAILURE => "failure"
  end.

Global Instance EventType_eq_dec : EqDecision EventType.
Proof. solve_decision. Defined.

Inductive NotificationType := EMAIL | SLACK | TEAMS.

Definition notification_value (t : NotificationType) : string :=
  match t with
  | EMAIL => "email"
  | SLACK => "slack"
  | TEAMS => "teams"
  end.

Record ServiceEvent := {
  service_name : string;
  event_type : EventType;
  success : bool;
  timestamp : datetime;
  message : option string;
}.

Record NotificationConfig := {
  notification_type : NotificationType;
  enabled : bool;
  config : gmap string PyVal;
}.

(** The interface [DatabaseRepository]: a method acts on the state of the
    repository (its server included) and may write to the log. *)
Class DatabaseRepository (R : Type) := {
  save_event : ServiceEvent → R → Try bool * R * list LogRecord;
  get_failures : string → datetime → R → Try (list datetime) * R * list LogRecord;
  cleanup_old_records : datetime → R → Try unit * R * list LogRecord;
}.

(** ** InfluxDB *)

Module InfluxDBRepository.
(** [self.config], with the four keys [ConfigurationManager] always sets,
    and the server the client talks to. *)
Record t := {
  url : PyVal;
  token : PyVal;
  org : PyVal;
  bucket : PyVal;
  server : InfluxServer;
}.

Definition set_server (s : InfluxServer) (self : t) : t :=
  {| url := url self; token := token self; org := org self;
     bucket := bucket self; server := s |}.

Definition save_event (event : ServiceEvent) (self : t)
    : Try bool * t * list LogRecord :=
  let point :=
    {| measurement := "service_events";
       tag_service := service_name event;
       tag_event_type := value (event_type event);
       field_success := success event;
       field_value :=
         if negb (bool_decide (event_type event = CHECK)) then 1
         else if success event then 1 else 0;
       point_time := timestamp event |} in
  match influx_write point (server self) with
  | (Ok _, s) =>
      (Ok true, set_server s self,
       [Log DEBUG ("Saved " +:+ value (event_type event) +:+ " event for "
                   +:+ service_name event +:+ " to InfluxDB")])
  | (Fails e, s) =>
      (Ok false, set_server s self,
       [Log ERROR ("Failed to save event to InfluxDB: " +:+ exn_text e)])
  end.

Definition get_failures (service_name : string) (since : datetime) (self : t)
    : Try (list datetime) * t * list LogRecord :=
  (Ok [], self, []).

Definition cleanup_old_records (cutoff_time : datetime) (self : t)
    : Try unit * t * list LogRecord :=
  (Ok tt, self, []).
End InfluxDBRepository.

(** ** Redis *)

Module RedisRepository.
(** A member of a sorted set is a string: the JSON text of an event or
    the ISO text of a timestamp. Both renderings are injective, so the
    member is kept as what it renders. *)
Inductive Member :=
| EventData (service_name event_type : string) (success : bool)
            (timestamp : datetime) (message : string)
| IsoFormat (timestamp : datetime).

Global Instance Member_eq_dec : EqDecision Member.
Proof. solve_decision. Defined.

(** A sorted set, by increasing score; a score is a float, kept by an
    image in [Z] that has the same order. *)
Definition zset := list (Member * Z).

(** The repository and its server: whether the server answers, its sorted
    sets by key, and [posix], the conversion [datetime.timestamp()] of the
    process: the float of the seconds since the epoch, which depends on the
    local time zone and so need neither keep the order of the datetimes nor
    tell two of them apart. *)
Record t := { up : bool; data : gmap string zset; posix : datetime → Z }.

(** Redis orders the members of one score as their texts are ordered; the
    ISO texts are ordered as the datetimes they denote. The order of the
    JSON texts is not observed: no method reads them back. *)
Definition member_before (a b : Member) : Prop :=
  match a, b with
  | IsoFormat x, IsoFormat y => x < y
  | _, _ => False
  end.

Global Instance member_before_dec : RelDecision member_before.
Proof. intros [] []; unfold member_before; apply _. Defined.

(** Whether [(m', s')] comes before [(m, score)] in a sorted set. *)
Definition zbefore (m' : Member) (s' : Z) (m : Member) (score : Z) : Prop :=
  s' < score ∨ (s' = score ∧ member_before m' m).

Fixpoint zinsert (m : Member) (score : Z) (zs : zset) : zset :=
  match zs with
  | [] => [(m, score)]
  | (m', s') :: rest =>
      if decide (zbefore m' s' m score) then (m', s') :: zinsert m score rest
      else (m, score) :: zs
  end.

(** [zadd(key, {member: score})]: a member already there is moved. *)
Definition zadd (key : string) (m : Member) (score : Z)
    (d : gmap string zset) : gmap string zset :=
  <[key := zinsert m score (filter (λ p, p.1 ≠ m) (default [] (d !! key)))]> d.

(** [zrangebyscore(key, min, "+inf")]. *)
Definition zrangebyscore (key : string) (min : Z) (d : gmap string zset)
    : list Member :=
  (filter (λ p, min ≤ p.2) (default [] (d !! key))).*1.

(** [zremrangebyscore(key, "-inf", max)]: both bounds are inclusive; a
    set left empty is no longer a key. *)
Definition zremrangebyscore (key : string) (max : Z) (d : gmap string zset)
    : gmap string zset :=
  match d !! key with
  | None => d
  | Some zs =>
      match filter (λ p, ¬ (p.2 ≤ max)) zs with
      | [] => delete key d
      | zs' => <[key := zs']> d
      end
  end.

(** [keys(prefix + "*")]. *)
Definition keys (prefix : string) (d : gmap string zset) : list string :=
  filter (λ k, String.prefix prefix k = true) (map_to_list d).*1.

(** [datetime.fromisoformat(member)]: it raises on a member that is not
    the text of a timestamp. *)
Definition fromisoformat (m : Member) : option datetime :=
  match m with
  | IsoFormat ts => Some ts
  | EventData _ _ _ _ _ => None
  end.

Definition connection_error : string := "Error connecting to Redis".

Definition save_event (event : ServiceEvent) (self : t)
    : Try bool * t * list LogRecord :=
  if up self then
    let event_data :=
      EventData (service_name event) (value (event_type event)) (success event)
                (timestamp event) (default "" (message event)) in
    let key := "service_events:" +:+ service_name event in
    let score := posix self (timestamp event) in
    let d := zadd key event_data score (data self) in
    let d :=
      if bool_decide (event_type event = FAILURE)
      then zadd ("service_failures:" +:+ service_name event)
                (IsoFormat (timestamp event)) score d
      else d in
    (Ok true, {| up := true; data := d; posix := posix self |},
     [Log DEBUG ("Saved " +:+ value (event_type event) +:+ " event for "
                 +:+ service_name event +:+ " to Redis")])
  else
    (Ok false, self,
     [Log ERROR ("Failed to save event to Redis: " +:+ connection_error)]).

Definition get_failures (service_name : string) (since : datetime) (self : t)
    : Try (list datetime) * t * list LogRecord :=
  if up self then
    let key := "service_failures:" +:+ service_name in
    let since_timestamp := posix self since in
    let failure_timestamps := zrangebyscore key since_timestamp (data self) in
    match mapM fromisoformat failure_timestamps with
    | Some l => (Ok l, self, [])
    | None =>
        (Ok [], self,
         [Log ERROR ("Failed to get failures from Redis: " +:+ "Invalid isoformat string")])
    end
  else
    (Ok [], self,
     [Log ERROR ("Failed to get failures from Redis: " +:+ connection_error)]).

Definition cleanup_old_records (cutoff_time : datetime) (self : t)
    : Try unit * t * list LogRecord :=
  if up self then
    let cutoff_timestamp := posix self cutoff_time in
    let failure_keys := keys "service_failures:" (data self) in
    let event_keys := keys "service_events:" (data self) in
    let d := foldl (λ d key, zremrangebyscore key cutoff_timestamp d) (data self)
                   (failure_keys ++ event_keys) in
    (Ok tt, {| up := true; data := d; posix := posix self |},
     [Log DEBUG ("Cleaned up old records before " +:+ pretty cutoff_time)])
  else
    (Ok tt, self,
     [Log ERROR ("Failed to cleanup old records in Redis: " +:+ connection_error)]).
End RedisRepository.

(** ** MongoDB *)

Module MongoDBRepository.
Record Doc := {
  doc_service_name : string;
  doc_event_type : string;
  doc_success : bool;
  doc_timestamp : datetime;
  doc_message : string;
}.

(** The collection [service_events], in insertion order, and whether the
    server answers. *)
Record t := { up : bool; service_events : list Doc }.

(** A datetime as BSON keeps it, in whole milliseconds: the driver drops
    the microseconds of the datetimes it sends, in a document and in a
    query alike. *)
Definition bson_datetime (t : datetime) : datetime := t / 1000 * 1000.

Definition connection_error : string := "ServerSelectionTimeoutError".

Definition save_event (event : ServiceEvent) (self : t)
    : Try bool * t * list LogRecord :=
  if up self then
    let event_doc :=
      {| doc_service_name := service_name event;
         doc_event_type := value (event_type event);
         doc_success := success event;
         doc_timestamp := bson_datetime (timestamp event);
         doc_message := default "" (message event) |} in
    (Ok true, {| up := true; service_events := service_events self ++ [event_doc] |},
     [Log DEBUG ("Saved " +:+ value (event_type event) +:+ " event for "
                 +:+ service_name event +:+ " to MongoDB")])
  else
    (Ok false, self,
     [Log ERROR ("Failed to save event to MongoDB: " +:+ connection_error)]).

Definition get_failures (service_name : string) (since : datetime) (self : t)
    : Try (list datetime) * t * list LogRecord :=
  if up self then
    let failures :=
      filter (λ doc, doc_service_name doc = service_name
                     ∧ doc_event_type doc = value FAILURE
                     ∧ bson_datetime since ≤ doc_timestamp doc)
             (service_events self) in
    (Ok (doc_timestamp <$> failures), self, [])
  else
    (Ok [], self,
     [Log ERROR ("Failed to get failures from MongoDB: " +:+ connection_error)]).

Definition cleanup_old_records (cutoff_time : datetime) (self : t)
    : Try unit * t * list LogRecord :=
  if up self then
    let kept := filter (λ doc, ¬ (doc_timestamp doc < bson_datetime cutoff_time))
                       (service_events self) in
    let deleted_count := (length (service_events self) - length kept)%nat in
    (Ok tt, {| up := true; service_events := kept |},
     [Log DEBUG ("Cleaned up " +:+ pretty deleted_count +:+ " old records before "
                 +:+ pretty cutoff_time)])
  else
    (Ok tt, self,
     [Log ERROR ("Failed to cleanup old records in MongoDB: " +:+ connection_error)]).
End MongoDBRepository.

(** What [DatabaseRepositoryFactory.create_repository] builds. *)
Inductive Repository :=
| Influx (r : InfluxDBRepository.t)
| Redis (r : RedisRepository.t)
| Mongo (r : MongoDBRepository.t).

Definition lift_reply {A S} (wrap : S → Repository)
    (x : Try A * S * list LogRecord) : Try A * Repository * list LogRecord :=
  (x.1.1, wrap x.1.2, x.2).

Global Instance Repository_DatabaseRepository : DatabaseRepository Repository := {
  save_event event db :=
    match db with
    | Influx r => lift_reply Influx (InfluxDBRepository.save_event event r)
    | Redis r => lift_reply Redis (RedisRepository.save_event event r)
    | Mongo r => lift_reply Mongo (MongoDBRepository.save_event event r)
    end;
  get_failures name since db :=
    match db with
    | Influx r => lift_reply Influx (InfluxDBRepository.get_failures name since r)
    | Redis r => lift_reply Redis (RedisRepository.get_failures name since r)
    | Mongo r => lift_reply Mongo (MongoDBRepository.get_failures name since r)
    end;
  cleanup_old_records cutoff db :=
    match db with
    | Influx r => lift_reply Influx (InfluxDBRepository.cleanup_old_records cutoff r)
    | Redis r => lift_reply Redis (RedisRepository.cleanup_old_records cutoff r)
    | Mongo r => lift_reply Mongo (MongoDBRepository.cleanup_old_records cutoff r)
    end;
}.

(** ** Notification senders *)

(** [config.get(key)] and [config[key]]. *)
Definition config_get (config : gmap string PyVal) (key : string) : PyVal :=
  default PyNone (config !! key).

Definition config_item {W} (config : gmap string PyVal) (key : string)
    : M W PyVal :=
  match config !! key with
  | Some v => mret v
  | None => raise (mkExn KeyError ("'" +:+ key +:+ "'"))
  end.

Module EmailNotificationSender.
Section Code.
Context {X : Type}.
Variable env : Env.

Definition send_notification (service_name : string)
    (failures : list datetime) (config : gmap string PyVal)
    : M (World X) bool :=
  if negb (truthy (config_get config "password"))
  then logging DEBUG "Email password missing.";; mret false
  else
    try_except
      (sender ← config_item config "sender_email";
       receiver ← config_item config "receiver_email";
       server ← config_item config "smtp_server";
       port ← config_item config "smtp_port";
       password ← config_item config "password";
       smtp_send env (SmtpSend server port sender password receiver
                        service_name failures);;
       logging INFO ("Email alert sent for service " +:+ service_name);;
       mret true)
      (λ e, logging ERROR ("Failed to send email alert for service "
                           +:+ service_name +:+ ": " +:+ exn_text e);;
            mret false).
End Code.
End EmailNotificationSender.

(** The body shared by the Slack and the Teams sender, which differ by the
    name in their messages and by the layout of the payload. *)
Section Webhook.
Context {X : Type}.
Variable env : Env.

Definition webhook_send_notification (kind : string) (service_name : string)
    (failures : list datetime) (config : gmap string PyVal)
    : M (World X) bool :=
  if negb (truthy (config_get config "webhook_url"))
  then logging DEBUG (kind +:+ " webhook URL missing.");; mret false
  else
    try_except
      (url ← config_item config "webhook_url";
       response ← http_post env (HttpPost url service_name failures);
       if status_code response =? 200
       then logging INFO (kind +:+ " alert sent for service " +:+ service_name);;
            mret true
       else logging ERROR ("Failed to send " +:+ kind +:+ " alert: "
                           +:+ pretty (status_code response) +:+ " - "
                           +:+ text response);;
            mret false)
      (λ e, logging ERROR ("Failed to send " +:+ kind +:+ " alert for service "
                           +:+ service_name +:+ ": " +:+ exn_text e);;
            mret false).
End Webhook.

Module SlackNotificationSender.
Definition send_notification {X} (env : Env)
    : string → list datetime → gmap string PyVal → M (World X) bool :=
  webhook_send_notification env "Slack".
End SlackNotificationSender.

Module TeamsNotificationSender.
Definition send_notification {X} (env : Env)
    : string → list datetime → gmap string PyVal → M (World X) bool :=
  webhook_send_notification env "Teams".
End TeamsNotificationSender.

Module NotificationSenderFactory.
(** [create_sender(notification_type)]: the three members of the
    enumeration are the keys of [_senders]; the sender is given by its
    [send_notification]. *)
Definition create_sender {X} (env : Env) (t : NotificationType)
    : M (World X) (string → list datetime → gmap string PyVal → M (World X) bool) :=
  mret (match t with
        | EMAIL => EmailNotificationSender.send_notification env
        | SLACK => SlackNotificationSender.send_notification env
        | TEAMS => TeamsNotificationSender.send_notification env
        end).
End NotificationSenderFactory.

(** ** The [schedule] library and the interrupt *)

Section Schedule.
Context {X : Type}.
Variable env : Env.

(** [schedule.every(n).<unit>.do(f)], for a period of [n] units. *)
Definition schedule_every (p : Z) (f : JobFunc) : M (World X) unit :=
  now ← datetime_now env;
  modify (λ w, set_jobs (jobs w ++ [{| period := p; next_run := now + p;
                                       job_func := f |}]) w).

Definition should_run (j : Job) : M (World X) bool :=
  now ← datetime_now env;
  mret (bool_decide (next_run j ≤ now)).

Fixpoint runnable_jobs (js : list (nat * Job)) : M (World X) (list (nat * Job)) :=
  match js with
  | [] => mret []
  | ij :: rest =>
      b ← should_run ij.2;
      l ← runnable_jobs rest;
      mret (if b : bool then ij :: l else l)
  end.

(** A job is run, then scheduled again one period after it ended. *)
Definition run_job (call : JobFunc → M (World X) unit) (ij : nat * Job)
    : M (World X) unit :=
  call (job_func ij.2);;
  now ← datetime_now env;
  modify (λ w, set_jobs (<[ij.1 := {| period := period ij.2;
                                      next_run := now + period ij.2;
                                      job_func := job_func ij.2 |}]> (jobs w)) w).

(** [Job.__lt__]: jobs are ordered by due time. *)
Definition due_before (a b : nat * Job) : Prop := next_run a.2 ≤ next_run b.2.

Global Instance due_before_dec : RelDecision due_before.
Proof. intros a b. unfold due_before. apply _. Defined.

(** [schedule.run_pending()]: the jobs that are due, by due time. *)
Definition run_pending (call : JobFunc → M (World X) unit) : M (World X) unit :=
  js ← gets (λ w, imap pair (jobs w));
  due ← runnable_jobs js;
  for_each (merge_sort due_before due)
           (run_job call).

(** [while True: schedule.run_pending(); time.sleep(1)]. The loop ends
    when the process is interrupted: [rounds] is the number of rounds
    completed before the interrupt arrives. *)
Fixpoint monitoring_loop (call : JobFunc → M (World X) unit) (rounds : nat)
    : M (World X) unit :=
  match rounds with
  | O => λ w, (Interrupted, w)
  | S rounds' => run_pending call;; monitoring_loop call rounds'
  end.
End Schedule.

(** ** The service doctor *)

Module ServiceDoctor.

(** The keys of [self.config] the doctor reads; [None] is an absent key. *)
Record Config := {
  services : option (list string);
  scan_interval_minutes : option Z;
  alert_window_hours : option Z;
  alert_threshold : option Z;
  retention_hours : option Z;
}.

(** The fields of the doctor that do not change after [__init__];
    [self.databases] is the [ext] of the world and
    [self.service_failures] its [service_failures]. *)
Record t := {
  config : Config;
  notification_configs : list NotificationConfig;
}.

Section Code.
Context {R : Type} `{!DatabaseRepository R}.
Variable env : Env.
Variable self : t.

(** A call of a method on [self.databases[i]]. *)
Definition call_db {A} (i : nat)
    (method : R → Try A * R * list LogRecord) : M (World (list R)) A :=
  λ w,
    match ext w !! i with
    | Some db =>
        let w' := set_log (log w ++ (method db).2)
                    (set_ext (<[i := (method db).1.2]> (ext w)) w) in
        (of_try (method db).1.1, w')
    | None => (Raised (mkExn OtherError "list index out of range"), w)
    end.

(** [for db in self.databases], by position. *)
Definition databases_indices : M (World (list R)) (list nat) :=
  gets (λ w, seq 0 (length (ext w))).

Definition save_event (event : ServiceEvent) : M (World (list R)) unit :=
  dbs ← databases_indices;
  for_each dbs (λ db,
    try_except
      (call_db db (Solid.save_event event);; mret tt)
      (λ e, logging ERROR ("Failed to save event to database: " +:+ exn_text e))).

Definition get_recent_failures (service_name : string)
    : M (World (list R)) (list datetime) :=
  now ← datetime_now env;
  let cutoff_time :=
    now - timedelta_hours (default 1 (alert_window_hours (config self))) in
  dbs ← databases_indices;
  found ← for_first dbs (λ db,
    try_except
      (failures ← call_db db (Solid.get_failures service_name cutoff_time);
       mret (match failures with [] => None | _ => Some failures end))
      (λ e, logging ERROR ("Failed to get failures from database: "
                           +:+ exn_text e);;
            mret None));
  match found with
  | Some failures => mret failures
  | None =>
      modify (λ w, set_failures service_name
                     (filter (λ t, cutoff_time ≤ t) (failures_of service_name w)) w);;
      gets (failures_of service_name)
  end.

Definition send_alerts (service_name : string) (failures : list datetime)
    : M (World (list R)) unit :=
  logging WARNING ("Alert triggered for service " +:+ service_name +:+ " - "
                   +:+ pretty (length failures) +:+ " failures");;
  for_each (notification_configs self) (λ notif_config,
    try_except
      (sender ← NotificationSenderFactory.create_sender env
                  (notification_type notif_config);
       sender service_name failures (Solid.config notif_config);;
       mret tt)
      (λ e, logging ERROR ("Failed to send "
                           +:+ notification_value (notification_type notif_config)
                           +:+ " notification: " +:+ exn_text e))).

Definition record_failure (service_name : string) : M (World (list R)) unit :=
  now ← datetime_now env;
  let event := {| Solid.service_name := service_name; event_type := FAILURE;
                  success := false; timestamp := now; message := None |} in
  save_event event;;
  modify (λ w, set_failures service_name (failures_of service_name w ++ [now]) w);;
  recent_failures ← get_recent_failures service_name;
  let alert_threshold := default 3 (alert_threshold (config self)) in
  when (alert_threshold <=? Z.of_nat (length recent_failures))
       (send_alerts service_name recent_failures).

(** The body of the loop of [scan_services]. *)
Definition scan_service (service : string) : M (World (list R)) unit :=
  logging DEBUG ("Checking service: " +:+ service);;
  running ← check_service env service;
  if running : bool then
    logging DEBUG ("Service " +:+ service +:+ " is running");;
    now ← datetime_now env;
    save_event {| Solid.service_name := service; event_type := CHECK;
                  success := true; timestamp := now; message := None |}
  else
    logging WARNING ("Service " +:+ service +:+ " is down, attempting to restart");;
    restart_success ← restart_service env service;
    now ← datetime_now env;
    save_event {| Solid.service_name := service; event_type := RESTART;
                  success := restart_success; timestamp := now;
                  message := None |};;
    if restart_success : bool then
      logging INFO ("Service " +:+ service +:+ " restarted successfully")
    else
      logging ERROR ("Failed to restart service " +:+ service);;
      record_failure service.

Definition scan_services : M (World (list R)) unit :=
  logging INFO "Starting service scan...";;
  for_each (default [] (services (config self))) scan_service;;
  logging INFO "Service scan completed".

Definition cleanup_old_data : M (World (list R)) unit :=
  now ← datetime_now env;
  let cutoff_time :=
    now - timedelta_hours (default 24 (retention_hours (config self))) in
  dbs ← databases_indices;
  for_each dbs (λ db,
    try_except
      (call_db db (Solid.cleanup_old_records cutoff_time))
      (λ e, logging ERROR ("Failed to cleanup old data: " +:+ exn_text e))).

Definition call_job (f : JobFunc) : M (World (list R)) unit :=
  match f with
  | JobScanServices => scan_services
  | JobCleanupOldData => cleanup_old_data
  end.

(** [run()]: its result is [None] for a bare [return]. *)
Definition run (rounds : nat) : M (World (list R)) (option Z) :=
  logging INFO "Linux Service Doctor starting...";;
  let services := default [] (services (config self)) in
  match services with
  | [] =>
      logging WARNING "No services configured for monitoring.";;
      mret None
  | _ =>
      logging INFO ("Monitoring services: " +:+ String.concat ", " services);;
      logging INFO ("Scan interval: "
                    +:+ pretty (default 5 (scan_interval_minutes (config self)))
                    +:+ " minutes");;
      scan_services;;
      let scan_interval := default 5 (scan_interval_minutes (config self)) in
      schedule_every env (timedelta_minutes scan_interval) JobScanServices;;
      schedule_every env (timedelta_hours 1) JobCleanupOldData;;
      logging INFO "Service monitoring is active";;
      try_except_interrupt
        (monitoring_loop env call_job rounds;; mret (Some 0))
        (logging INFO "Service monitoring stopped by user";; mret (Some 0))
        (λ e, logging ERROR ("Unexpected error: " +:+ exn_text e);;
              mret (Some 1))
  end.
End Code.
End ServiceDoctor.
End Solid.

(** * Start-up code *)

(** ** [main] of the simple version *)

Module SimpleMain.
Section Code.
Variable env : Env.
Variable CONFIG : Simple.Config.

(** The functions the simple version hands to [schedule]: the scan only. *)
Definition call_job (f : JobFunc) : M Simple.World unit :=
  match f with
  | JobScanServices => Simple.scan_services env CONFIG
  | JobCleanupOldData => mret tt
  end.

(** [main()], from the statement after its call of [load_config()], which
    leaves [CONFIG]; [rounds] is the number of rounds of the loop completed
    before the interrupt arrives. *)
Definition main (rounds : nat) : M Simple.World Z :=
  logging INFO "Linux Service Doctor starting...";;
  (match Simple.services CONFIG with
   | [] =>
       logging WARNING
         "No services configured for monitoring in CONFIG['services']. The script will run but do nothing."
   | _ =>
       logging INFO ("Monitoring services: "
                     +:+ String.concat ", " (Simple.services CONFIG))
   end);;
  logging INFO ("Scan interval: " +:+ pretty (Simple.scan_interval_minutes CONFIG)
                +:+ " minutes");;
  (if Simple.influx_enabled (Simple.influxdb CONFIG)
   then logging INFO ("InfluxDB logging enabled. URL: "
                      +:+ py_str (Simple.influx_url (Simple.influxdb CONFIG))
                      +:+ ", Org: "
                      +:+ py_str (Simple.influx_org (Simple.influxdb CONFIG))
                      +:+ ", Bucket: "
                      +:+ py_str (Simple.influx_bucket (Simple.influxdb CONFIG)))
   else logging WARNING "InfluxDB logging is disabled.");;
  (match Simple.services CONFIG with
   | [] => logging INFO "Skipping initial scan as no services are configured."
   | _ => Simple.scan_services env CONFIG
   end);;
  (match Simple.services CONFIG with
   | [] => logging INFO "No services configured, scheduling skipped."
   | _ =>
       Solid.schedule_every env
         (timedelta_minutes (Simple.scan_interval_minutes CONFIG)) JobScanServices;;
       logging INFO ("Scheduling scans every "
                     +:+ pretty (Simple.scan_interval_minutes CONFIG)
                     +:+ " minutes.")
   end);;
  logging INFO "Service monitoring is active";;
  try_except_interrupt
    (Solid.monitoring_loop env call_job rounds;; mret 0)
    (logging INFO "Service monitoring stopped by user";; mret 0)
    (λ e, logging ERROR ("Unexpected error: " +:+ exn_text e);; mret 1).
End Code.
End SimpleMain.

(** ** Configuration values

    What [json.load] builds, numbers being integers, and the operations of
    Python the start-up code applies to it.  An exception that is neither
    a [KeyError] nor a [ValueError] ([TypeError], [AttributeError]) is an
    [OtherError]; the texts are those of CPython 3.11. *)

Local Set Warnings "-register-all".
Inductive Json :=
| JNull
| JBool (b : bool)
| JInt (n : Z)
| JStr (s : string)
| JList (items : list Json)
| JDict (entries : gmap string Json).

Definition type_name (v : Json) : string :=
  match v with
  | JNull => "NoneType"
  | JBool _ => "bool"
  | JInt _ => "int"
  | JStr _ => "str"
  | JList _ => "list"
  | JDict _ => "dict"
  end.

(** Truthiness, as used by [if x] and [not x]. *)
Definition json_truthy (v : Json) : bool :=
  match v with
  | JNull => false
  | JBool b => b
  | JInt n => negb (n =? 0)
  | JStr s => negb (String.eqb s "")
  | JList l => match l with [] => false | _ => true end
  | JDict d => negb (bool_decide (d = ∅))
  end.

(** [x == True]. *)
Definition equals_True (v : Json) : bool :=
  match v with
  | JBool b => b
  | JInt n => n =? 1
  | _ => false
  end.

(** [x == s], for a string literal [s]. *)
Definition equals_str (v : Json) (s : string) : bool :=
  match v with
  | JStr s' => String.eqb s' s
  | _ => false
  end.

(** [v[key]], for a string [key]. *)
Definition getitem (v : Json) (key : string) : Try Json :=
  match v with
  | JDict d =>
      match d !! key with
      | Some x => Ok x
      | None => Fails (mkExn KeyError ("'" +:+ key +:+ "'"))
      end
  | JStr _ => Fails (mkExn OtherError "string indices must be integers, not 'str'")
  | JList _ =>
      Fails (mkExn OtherError "list indices must be integers or slices, not str")
  | _ => Fails (mkExn OtherError ("'" +:+ type_name v
                                  +:+ "' object is not subscriptable"))
  end.

(** [v[key] = x]: the object [v] after the assignment. *)
Definition setitem (v : Json) (key : string) (x : Json) : Try Json :=
  match v with
  | JDict d => Ok (JDict (<[key := x]> d))
  | JList _ =>
      Fails (mkExn OtherError "list indices must be integers or slices, not str")
  | _ => Fails (mkExn OtherError ("'" +:+ type_name v
                                  +:+ "' object does not support item assignment"))
  end.

(** [v.get(key, default)]. *)
Definition get (v : Json) (key : string) (dflt : Json) : Try Json :=
  match v with
  | JDict d => Ok (default dflt (d !! key))
  | _ => Fails (mkExn OtherError ("'" +:+ type_name v
                                  +:+ "' object has no attribute 'get'"))
  end.

(** [for x in v]: the items the loop visits. The keys of a dict and the
    characters of a string are strings. *)
Definition iterate (v : Json) : Try (list Json) :=
  match v with
  | JList l => Ok l
  | JDict d => Ok (JStr <$> (map_to_list d).*1)
  | JStr s => Ok ((λ c, JStr (String c "")) <$> String.list_ascii_of_string s)
  | _ => Fails (mkExn OtherError ("'" +:+ type_name v
                                  +:+ "' object is not iterable"))
  end.

(** [str.lower()], on the ASCII letters: the names it is compared with
    hold no other letter, and no other character is lowered to one. *)
Definition lower_ascii (c : Ascii.ascii) : Ascii.ascii :=
  let n := Ascii.nat_of_ascii c in
  if (65 <=? n)%nat && (n <=? 90)%nat then Ascii.ascii_of_nat (n + 32) else c.

Fixpoint lower (s : string) : string :=
  match s with
  | EmptyString => EmptyString
  | String c s' => String (lower_ascii c) (lower s')
  end.

(** [os.getenv(name, default)]. *)
Definition getenv (environ : gmap string string) (name : string) (dflt : Json)
    : Json :=
  match environ !! name with
  | Some s => JStr s
  | None => dflt
  end.

(** *** Objects reached through the configuration

    The configuration is one tree of dicts and lists; a variable bound to
    an object inside it ([influx_config = CONFIG["influxdb"]]) is the path
    of that object, so that an assignment through the variable is seen
    through the configuration. *)

Inductive Key := Field (k : string) | Index (i : nat).

Definition child (k : Key) (v : Json) : option Json :=
  match k, v with
  | Field f, JDict d => d !! f
  | Index i, JList l => l !! i
  | _, _ => None
  end.

Fixpoint read (p : list Key) (v : Json) : option Json :=
  match p with
  | [] => Some v
  | k :: rest => child k v ≫= read rest
  end.

(** The tree with [x] in the place of the object at [p]. *)
Fixpoint write (p : list Key) (x : Json) (v : Json) : Json :=
  match p with
  | [] => x
  | k :: rest =>
      match k, v with
      | Field f, JDict d =>
          match d !! f with
          | Some c => JDict (<[f := write rest x c]> d)
          | None => v
          end
      | Index i, JList l =>
          match l !! i with
          | Some c => JList (<[i := write rest x c]> l)
          | None => v
          end
      | _, _ => v
      end
  end.

Section Store.
Context {W : Type}.

Definition lift_try {A} (r : Try A) : M W A := λ w, (of_try r, w).
End Store.

Section Config.
(** The world of the start-up code: [ext] is the configuration. *)

(** The object a variable is bound to. *)
Definition deref (p : list Key) : M (World Json) Json :=
  gets (λ w, default JNull (read p (ext w))).

(** [var[key]]. *)
Definition item (p : list Key) (key : string) : M (World Json) Json :=
  v ← deref p; lift_try (getitem v key).

(** [var.get(key, default)]. *)
Definition item_get (p : list Key) (key : string) (dflt : Json)
    : M (World Json) Json :=
  v ← deref p; lift_try (get v key dflt).

(** [var[key] = x]. *)
Definition assign (p : list Key) (key : string) (x : Json)
    : M (World Json) unit :=
  v ← deref p;
  v' ← lift_try (setitem v key x);
  modify (λ w, set_ext (write p v' (ext w)) w).
End Config.

(** ** [load_config] of the simple version *)

Module SimpleStartup.
Section Code.
(** The path of [config.json]; what the file gives ([None] when there is
    no file): the entries [CONFIG.update(json.load(f))] merges into
    [CONFIG], or the exception of [open], [json.load] or [update]; the
    environment after [load_dotenv()]; and [str] on a dict. *)
Variable config_path : string.
Variable config_file : option (Try (gmap string Json)).
Variable environ : gmap string string.
Variable repr : Json → string.

(** [CONFIG.update(user_config)]. *)
Definition update (user_config : gmap string Json) (CONFIG : Json) : Json :=
  match CONFIG with
  | JDict d => JDict (user_config ∪ d)
  | _ => CONFIG
  end.

(** The truth value of [var[key]]. *)
Definition item_true (p : list Key) (key : string) : M (World Json) bool :=
  v ← item p key; mret (json_truthy v).

(** [x and y], on conditions. *)
Definition and_then (x y : M (World Json) bool) : M (World Json) bool :=
  b ← x; if b : bool then y else mret false.

Definition influx_config : list Key := [Field "influxdb"].

(** [load_config()], lines 35 to 43: the file is merged into [CONFIG],
    the [ext] of the world. *)
Definition load_file : M (World Json) unit :=
  match config_file with
  | None => mret tt
  | Some content =>
      try_except
        (user_config ← lift_try content;
         modify (λ w, set_ext (update user_config (ext w)) w);;
         logging INFO ("Loaded configuration from " +:+ config_path))
        (λ e, logging ERROR ("Failed to load configuration from "
                             +:+ config_path +:+ ": " +:+ exn_text e))
  end.

(** Lines 45 to 60. *)
Definition influx_section : M (World Json) unit :=
  item [] "influxdb";;
  enabled ← item influx_config "enabled";
  when (equals_True enabled)
    (url ← item influx_config "url";
     assign influx_config "url" (getenv environ "INFLUXDB_URL" url);;
     token ← item influx_config "token";
     assign influx_config "token" (getenv environ "INFLUXDB_TOKEN" token);;
     org ← item influx_config "org";
     assign influx_config "org" (getenv environ "INFLUXDB_ORG" org);;
     bucket ← item influx_config "bucket";
     assign influx_config "bucket" (getenv environ "INFLUXDB_BUCKET" bucket);;
     complete ← and_then (item_true influx_config "token")
                  (and_then (item_true influx_config "org")
                            (item_true influx_config "bucket"));
     if complete : bool
     then logging INFO "InfluxDB logging enabled based on environment variables."
     else
       assign influx_config "enabled" (JBool false);;
       logging WARNING
         "InfluxDB logging disabled. Missing INFLUXDB_TOKEN, INFLUXDB_ORG, or INFLUXDB_BUCKET environment variables.").

(** Lines 63 to 67, 70 to 74 and 77 to 81: the same statements for the
    channel [channel] of [CONFIG["notification"]], with the key [secret]
    of its secret and the name [variable] of the environment variable. *)
Definition channel_section (kind channel secret variable : string)
    : M (World Json) unit :=
  notification ← item [] "notification";
  channel_config ← lift_try (getitem notification channel);
  channel_enabled ← lift_try (getitem channel_config "enabled");
  when (json_truthy channel_enabled)
    (let channel_config := [Field "notification"; Field channel] in
     value ← item channel_config secret;
     assign channel_config secret (getenv environ variable value);;
     value ← item channel_config secret;
     when (negb (json_truthy value))
       (logging WARNING
          (kind +:+ " notifications enabled but " +:+ variable
           +:+ " environment variable is not set."))).

(** [load_config()]. *)
Definition load_config : M (World Json) unit :=
  load_file;;
  influx_section;;
  channel_section "Email" "email" "password" "EMAIL_PASSWORD";;
  channel_section "Slack" "slack" "webhook_url" "SLACK_WEBHOOK_URL";;
  channel_section "Teams" "teams" "webhook_url" "TEAMS_WEBHOOK_URL";;
  CONFIG ← deref [];
  logging DEBUG ("Final Configuration (after env override): " +:+ repr CONFIG).
End Code.
End SimpleStartup.

(** ** Start-up of the solid version *)

Module SolidStartup.

(** The dataclass [DatabaseConfig]; its fields hold what the file gives. *)
Record DatabaseConfig := {
  db_type : Json;
  db_enabled : Json;
  db_config : Json;
}.

(** The dataclass [NotificationConfig], as [__init__] fills it. *)
Record NotificationConfig := {
  notification_type : Solid.NotificationType;
  enabled : Json;
  config : Json;
}.

(** A repository as its constructor leaves it: its class and its
    [self.config]; no client is created yet. *)
Inductive RepositoryClass := InfluxDBClass | RedisClass | MongoDBClass.

Record NewRepository := {
  repository_class : RepositoryClass;
  repository_config : Json;
}.

(** The fields [__init__] sets, [self.config_manager.config] being the
    [ext] of the world. *)
Record NewServiceDoctor := {
  doctor_config : Json;
  databases : list NewRepository;
  notification_configs : list NotificationConfig;
}.

Section Code.
(** The path of the configuration file; what [json.load] gives for it
    ([None] when there is no file); the environment after
    [load_dotenv()]; [repr], and [int] on a string. *)
Variable config_path : string.
Variable config_file : option (Try Json).
Variable environ : gmap string string.
Variable repr : Json → string.
Variable int_of_str : string → Try Z.

(** [str(v)], as in an f-string. *)
Definition str (v : Json) : string :=
  match v with
  | JStr s => s
  | _ => repr v
  end.

(** [int(v)]. *)
Definition int (v : Json) : Try Z :=
  match v with
  | JInt n => Ok n
  | JBool b => Ok (if b then 1 else 0)
  | JStr s => int_of_str s
  | _ => Fails (mkExn OtherError
                  ("int() argument must be a string, a bytes-like object or a real number, not '"
                   +:+ type_name v +:+ "'"))
  end.

(** *** [ConfigurationManager] *)

(** [var["config"][key] = os.getenv(variable, var["config"].get(key))]. *)
Definition override (var : list Key) (key variable : string)
    : M (World Json) unit :=
  config ← item var "config";
  old ← lift_try (get config key JNull);
  item var "config";;
  assign (var ++ [Field "config"]) key (getenv environ variable old).

(** [for var in self.config.get(key, [])]: an item of a list is reached
    through the configuration; the items of a dict or of a string are
    strings, on which the first statement of both loops, [var["type"]],
    raises. *)
Definition for_each_entry (key : string)
    (body : list Key → M (World Json) unit) : M (World Json) unit :=
  collection ← item_get [] key (JList []);
  match collection with
  | JList l => for_each (seq 0 (length l)) (λ i, body [Field key; Index i])
  | _ =>
      strings ← lift_try (iterate collection);
      for_each strings (λ s, lift_try (getitem s "type");; mret tt)
  end.

(** The body of the first loop of [_override_with_env_vars]. *)
Definition override_database (db_config : list Key) : M (World Json) unit :=
  type ← item db_config "type";
  if equals_str type "influxdb" then
    override db_config "url" "INFLUXDB_URL";;
    override db_config "token" "INFLUXDB_TOKEN";;
    override db_config "org" "INFLUXDB_ORG";;
    override db_config "bucket" "INFLUXDB_BUCKET"
  else
    type ← item db_config "type";
    if equals_str type "redis" then
      override db_config "host" "REDIS_HOST";;
      config ← item db_config "config";
      old ← lift_try (get config "port" (JInt 6379));
      port ← lift_try (int (getenv environ "REDIS_PORT" old));
      item db_config "config";;
      assign (db_config ++ [Field "config"]) "port" (JInt port);;
      override db_config "password" "REDIS_PASSWORD"
    else
      type ← item db_config "type";
      if equals_str type "mongodb" then
        override db_config "connection_string" "MONGODB_CONNECTION_STRING"
      else mret tt.

(** The body of its second loop. *)
Definition override_notification (notif_config : list Key)
    : M (World Json) unit :=
  type ← item notif_config "type";
  if equals_str type "email" then
    override notif_config "password" "EMAIL_PASSWORD"
  else
    type ← item notif_config "type";
    if equals_str type "slack" then
      override notif_config "webhook_url" "SLACK_WEBHOOK_URL"
    else
      type ← item notif_config "type";
      if equals_str type "teams" then
        override notif_config "webhook_url" "TEAMS_WEBHOOK_URL"
      else mret tt.

(** [_override_with_env_vars()]. *)
Definition override_with_env_vars : M (World Json) unit :=
  for_each_entry "databases" override_database;;
  for_each_entry "notifications" override_notification.

(** [ConfigurationManager.load_config()]. *)
Definition load_config : M (World Json) Json :=
  match config_file with
  | None => mret tt
  | Some content =>
      try_except
        (config ← lift_try content;
         modify (set_ext config);;
         logging INFO ("Loaded configuration from " +:+ config_path))
        (λ e, logging ERROR ("Failed to load configuration from "
                             +:+ config_path +:+ ": " +:+ exn_text e))
  end;;
  override_with_env_vars;;
  deref [].

(** *** The factories *)

(** [v.lower()]. *)
Definition lower_of (v : Json) : Try string :=
  match v with
  | JStr s => Ok (lower s)
  | _ => Fails (mkExn OtherError ("'" +:+ type_name v
                                  +:+ "' object has no attribute 'lower'"))
  end.

(** [DatabaseRepositoryFactory.create_repository(db_config)]. *)
Definition create_repository (db_config : DatabaseConfig) : Try NewRepository :=
  match lower_of (db_type db_config) with
  | Fails e => Fails e
  | Ok name =>
      if String.eqb name "influxdb"
      then Ok {| repository_class := InfluxDBClass;
                 repository_config := SolidStartup.db_config db_config |}
      else if String.eqb name "redis"
      then Ok {| repository_class := RedisClass;
                 repository_config := SolidStartup.db_config db_config |}
      else if String.eqb name "mongodb"
      then Ok {| repository_class := MongoDBClass;
                 repository_config := SolidStartup.db_config db_config |}
      else Fails (mkExn ValueError ("Unknown database type: "
                                    +:+ str (db_type db_config)))
  end.

(** [NotificationType(value)]. *)
Definition NotificationType_of (value : Json) : Try Solid.NotificationType :=
  if equals_str value "email" then Ok Solid.EMAIL
  else if equals_str value "slack" then Ok Solid.SLACK
  else if equals_str value "teams" then Ok Solid.TEAMS
  else Fails (mkExn ValueError (repr value +:+ " is not a valid NotificationType")).

(** *** [ServiceDoctor.__init__] *)

(** The body of the first loop: [self.databases] is [databases]. *)
Definition init_database {X} (databases : list NewRepository)
    (db_config_dict : Json) : M (World X) (list NewRepository) :=
  enabled ← lift_try (get db_config_dict "enabled" (JBool false));
  if json_truthy enabled then
    db_type ← lift_try (getitem db_config_dict "type");
    db_enabled ← lift_try (getitem db_config_dict "enabled");
    db_config ← lift_try (getitem db_config_dict "config");
    let db_config := {| db_type := db_type; db_enabled := db_enabled;
                        db_config := db_config |} in
    try_except
      (repository ← lift_try (create_repository db_config);
       logging INFO ("Initialized " +:+ str db_type +:+ " database");;
       mret (databases ++ [repository]))
      (λ e, logging ERROR ("Failed to initialize " +:+ str db_type
                           +:+ " database: " +:+ exn_text e);;
            mret databases)
  else mret databases.

(** The body of the second loop. *)
Definition init_notification {X} (notification_configs : list NotificationConfig)
    (notif_config_dict : Json) : M (World X) (list NotificationConfig) :=
  enabled ← lift_try (get notif_config_dict "enabled" (JBool false));
  if json_truthy enabled then
    type ← lift_try (getitem notif_config_dict "type");
    notification_type ← lift_try (NotificationType_of type);
    enabled ← lift_try (getitem notif_config_dict "enabled");
    config ← lift_try (getitem notif_config_dict "config");
    mret (notification_configs
          ++ [{| notification_type := notification_type; enabled := enabled;
                 config := config |}])
  else mret notification_configs.

(** A loop that grows a list. *)
Fixpoint collect {X A} (body : list A → Json → M (World X) (list A))
    (entries : list Json) (acc : list A) : M (World X) (list A) :=
  match entries with
  | [] => mret acc
  | entry :: rest => acc' ← body acc entry; collect body rest acc'
  end.

(** [ServiceDoctor(config_manager)]. *)
Definition init : M (World Json) NewServiceDoctor :=
  config ← load_config;
  collection ← lift_try (get config "databases" (JList []));
  entries ← lift_try (iterate collection);
  databases ← collect init_database entries [];
  collection ← lift_try (get config "notifications" (JList []));
  entries ← lift_try (iterate collection);
  notification_configs ← collect init_notification entries [];
  modify (set_service_failures ∅);;
  mret {| doctor_config := config; databases := databases;
          notification_configs := notification_configs |}.
End Code.
End SolidStartup.

(** * Vocabulary of the statements *)

Section FanOutVocabulary.
Import Solid.
Context {R : Type} `{!DatabaseRepository R}.

(** The repository after it has been asked to save the event. *)
Definition saved (event : ServiceEvent) (db : R) : R :=
  (save_event event db).1.2.

(** What the log gains when the repository is asked to save the event:
    the records of the repository, and the record of the doctor when the
    repository raises. *)
Definition save_log (event : ServiceEvent) (db : R) : list LogRecord :=
  (save_event event db).2 ++
  match (save_event event db).1.1 with
  | Ok _ => []
  | Fails e => [Log ERROR ("Failed to save event to database: " +:+ exn_text e)]
  end.

(** The body of the loop of [ServiceDoctor.save_event]. *)
Definition save_body (event : ServiceEvent) (db : nat) : M (World (list R)) unit :=
  try_except
    (ServiceDoctor.call_db db (save_event event);; mret tt)
    (λ e, logging ERROR ("Failed to save event to database: " +:+ exn_text e)).
End FanOutVocabulary.

Section QueryVocabulary.
Import Solid.
Context {R : Type} `{!DatabaseRepository R}.

(** The failure list a repository supplies: an exception counts as no
    data. *)
Definition answer (service_name : string) (since : datetime) (db : R)
    : list datetime :=
  match (get_failures service_name since db).1.1 with
  | Ok l => l
  | Fails _ => []
  end.

(** The repository after it has been asked for its failures. *)
Definition asked (service_name : string) (since : datetime) (db : R) : R :=
  (get_failures service_name since db).1.2.

(** The first list that is not empty. *)
Fixpoint first_answer (answers : list (list datetime)) : option (list datetime) :=
  match answers with
  | [] => None
  | [] :: rest => first_answer rest
  | l :: _ => Some l
  end.

(** What the log gains when the repository is asked for its failures. *)
Definition query_log (service_name : string) (since : datetime) (db : R)
    : list LogRecord :=
  (get_failures service_name since db).2 ++
  match (get_failures service_name since db).1.1 with
  | Ok _ => []
  | Fails e => [Log ERROR ("Failed to get failures from database: "
                           +:+ exn_text e)]
  end.

(** The body of the loop of [ServiceDoctor.get_recent_failures]. *)
Definition query_body (service_name : string) (cutoff_time : datetime)
    (db : nat) : M (World (list R)) (option (list datetime)) :=
  try_except
    (failures ← ServiceDoctor.call_db db (get_failures service_name cutoff_time);
     mret (match failures with [] => None | _ => Some failures end))
    (λ e, logging ERROR ("Failed to get failures from database: "
                         +:+ exn_text e);;
          mret None).

(** The instant against which [get_recent_failures] prunes, when it is
    called in the world [w]. *)
Definition cutoff_at (env : Env) (self : ServiceDoctor.t) (w : World (list R))
    : datetime :=
  clock env (ticks w)
  - timedelta_hours (default 1 (ServiceDoctor.alert_window_hours
                                  (ServiceDoctor.config self))).
End QueryVocabulary.

(** ** Alerts in the log *)

(** The record [send_alert] (simple version) and [send_alerts] (solid
    version) log when the threshold is reached. *)
Definition alert_record (service_name : string) (n : nat) : LogRecord :=
  Log WARNING ("Alert triggered for service " +:+ service_name +:+ " - "
               +:+ pretty n +:+ " failures").

Definition is_alert (r : LogRecord) : bool :=
  match lvl r with
  | WARNING => String.prefix "Alert triggered for service " (msg r)
  | _ => false
  end.

(** The alerts triggered so far. *)
Definition alerts {X} (w : World X) : list LogRecord :=
  List.filter is_alert (log w).

(** A record that is not at the warning level. *)
Definition quiet (r : LogRecord) : Prop := lvl r ≠ WARNING.

(** ** What the probe answers *)

Section ProbeVocabulary.
Variable env : Env.

(** Whether the [n]-th spawned command, [systemctl is-active], finds the
    service active. *)
Definition is_active (n : nat) (service_name : string) : bool :=
  match subprocess_run env n ["systemctl"; "is-active"; service_name] with
  | Ok result => String.eqb (strip (stdout result)) "active"
  | Fails _ => false
  end.

Definition check_log (n : nat) (service_name : string) : list LogRecord :=
  match subprocess_run env n ["systemctl"; "is-active"; service_name] with
  | Ok _ => []
  | Fails e =>
      match exn_class e with
      | FileNotFoundError =>
          [Log ERROR "systemctl command not found. Are you running in a systemd-enabled environment?"]
      | _ =>
          [Log ERROR ("Error checking service " +:+ service_name +:+ ": "
                      +:+ exn_text e)]
      end
  end.

(** Whether the [n]-th spawned command, [systemctl restart], succeeds. *)
Definition restart_ok (n : nat) (service_name : string) : bool :=
  match subprocess_run env n ["systemctl"; "restart"; service_name] with
  | Ok result => returncode result =? 0
  | Fails _ => false
  end.

Definition restart_log (n : nat) (service_name : string) : list LogRecord :=
  match subprocess_run env n ["systemctl"; "restart"; service_name] with
  | Ok result =>
      if returncode result =? 0
      then [Log INFO ("Successfully restarted service " +:+ service_name)]
      else [Log ERROR ("Failed to restart service " +:+ service_name
                       +:+ ": " +:+ stderr result)]
  | Fails e =>
      match exn_class e with
      | FileNotFoundError =>
          [Log ERROR "systemctl command not found. Cannot restart service."]
      | _ =>
          [Log ERROR ("Error restarting service " +:+ service_name +:+ ": "
                      +:+ exn_text e)]
      end
  end.
End ProbeVocabulary.

(** What a call leaves untouched when it neither touches the failure windows
    nor triggers an alert: it may log quietly, read the clock, and talk to
    the network and to the databases. *)
Definition quiet_step {X} (w w' : World X) : Prop :=
  service_failures w' = service_failures w
  ∧ alerts w' = alerts w
  ∧ spawned w' = spawned w
  ∧ jobs w' = jobs w
  ∧ (ticks w ≤ ticks w')%nat.

(** A call that returns after a quiet step that leaves the clock and the
    databases alone. *)
Definition silent {X A} (m : M (World X) A) : Prop :=
  ∀ w, ∃ a w', m w = (Returned a, w')
               ∧ quiet_step w w' ∧ ticks w' = ticks w ∧ ext w' = ext w.

(** What a round of the loop of [get_recent_failures] leaves untouched. *)
Definition query_frame {R} (w w' : World (list R)) : Prop :=
  ticks w' = ticks w ∧ spawned w' = spawned w ∧ net w' = net w
  ∧ service_failures w' = service_failures w ∧ jobs w' = jobs w
  ∧ length (ext w') = length (ext w).

(** ** Sequences of failures *)

(** The wall clock never runs backwards, or always advances, from one
    reading to the next. *)
Definition clock_monotone (env : Env) : Prop :=
  ∀ i j : nat, (i ≤ j)%nat → clock env i ≤ clock env j.

Definition clock_increasing (env : Env) : Prop :=
  ∀ i j : nat, (i < j)%nat → clock env i < clock env j.

Section SimpleSequences.
Variable env : Env.
Variable CONFIG : Simple.Config.

(** [record_failure] called for each of the services of [calls], in turn. *)
Definition record_failures (calls : list string) : M (World InfluxServer) unit :=
  for_each calls (Simple.record_failure env CONFIG).

(** The instants these calls append to the window of [service_name], when
    they start in the world [w]. *)
Fixpoint appended (service_name : string) (calls : list string)
    (w : World InfluxServer) : list datetime :=
  match calls with
  | [] => []
  | name :: rest =>
      (if decide (name = service_name) then [clock env (ticks w)] else [])
      ++ appended service_name rest
           (exec (Simple.record_failure env CONFIG name) w)
  end.
End SimpleSequences.

(** The invariant of the window: with [W] the duration of the alert window,
    the window of every service is its history [hist] pruned at some cutoff
    that later prunings subsume, and the history holds earlier readings of
    the clock only. *)
Definition window_inv {X} (env : Env) (W : Z) (w : World X)
    (hist : string → list datetime) : Prop :=
  ∀ name,
    (∃ c, c ≤ clock env (ticks w) - W
          ∧ failures_of name w = filter (λ t, c ≤ t) (hist name))
    ∧ Forall (λ t, ∃ i : nat, (i < ticks w)%nat ∧ t = clock env i) (hist name).

(** The [Failure] event [ServiceDoctor.record_failure] builds. *)
Definition failure_event (service_name : string) (now : datetime)
    : Solid.ServiceEvent :=
  {| Solid.service_name := service_name; Solid.event_type := Solid.FAILURE;
     Solid.success := false; Solid.timestamp := now; Solid.message := None |}.

(** The duration of the alert window and the alert threshold of the solid
    version, with their defaults. *)
Definition solid_window (self : Solid.ServiceDoctor.t) : Z :=
  timedelta_hours
    (default 1 (Solid.ServiceDoctor.alert_window_hours
                  (Solid.ServiceDoctor.config self))).

Definition solid_threshold (self : Solid.ServiceDoctor.t) : Z :=
  default 3 (Solid.ServiceDoctor.alert_threshold (Solid.ServiceDoctor.config self)).

(** The [Check] and [Restart] events [ServiceDoctor.scan_services] builds. *)
Definition check_event (service : string) (now : datetime) : Solid.ServiceEvent :=
  {| Solid.service_name := service; Solid.event_type := Solid.CHECK;
     Solid.success := true; Solid.timestamp := now; Solid.message := None |}.

Definition restart_event (service : string) (restart_success : bool)
    (now : datetime) : Solid.ServiceEvent :=
  {| Solid.service_name := service; Solid.event_type := Solid.RESTART;
     Solid.success := restart_success; Solid.timestamp := now;
     Solid.message := None |}.

(** ** The points of the simple version *)

(** The point [save_to_influxdb] builds. *)
Definition simple_point (service_name event_type : string) (success : bool)
    (time : datetime) : Point :=
  {| measurement := "service_events";
     tag_service := service_name;
     tag_event_type := event_type;
     field_success := success;
     field_value :=
       if negb (String.eqb event_type "check") then 1
       else if success then 1 else 0;
     point_time := time |}.

(** Whether [save_to_influxdb] gets to the write: InfluxDB is enabled and
    its URL, token, organisation and bucket are set. *)
Definition influx_ready (CONFIG : Simple.Config) : bool :=
  Simple.influx_enabled (Simple.influxdb CONFIG)
  && truthy (Simple.influx_url (Simple.influxdb CONFIG))
  && truthy (Simple.influx_token (Simple.influxdb CONFIG))
  && truthy (Simple.influx_org (Simple.influxdb CONFIG))
  && truthy (Simple.influx_bucket (Simple.influxdb CONFIG)).

(** What a call of [save_to_influxdb] that builds the point [p] adds to the
    bucket of [server]. *)
Definition written (CONFIG : Simple.Config) (server : InfluxServer) (p : Point)
    : list Point :=
  if influx_ready CONFIG && influx_up server then [p] else [].

(** * A monitored host, for the examples *)

Module Example.
Import Solid.

(** A clock that advances by [step] microseconds per reading. *)
Definition ticking (step : Z) : nat → datetime := λ n, Z.of_nat n * step.

(** A clock that gives the readings of [l] in turn, then advances by one
    microsecond per reading. *)
Definition reading (l : list datetime) : nat → datetime := λ n,
  default (default 0 (last l) + Z.of_nat (S n - length l)) (l !! n).

Definition ten_minutes : Z := 600000000.

Definition inactive : CompletedProcess :=
  {| returncode := 3; stdout := "inactive
"; stderr := "" |}.

Definition restarted : CompletedProcess :=
  {| returncode := 0; stdout := ""; stderr := "" |}.

Definition not_restarted : CompletedProcess :=
  {| returncode := 1; stdout := ""; stderr := "Job for svc1.service failed." |}.

(** A host whose services are down; [systemctl restart] succeeds for the
    spawned commands listed in [restarts] only. *)
Definition host_at (time : nat → datetime) (restarts : list nat) : Env :=
  {| clock := time;
     utc_clock := time;
     subprocess_run := λ n args,
       match args with
       | [_; "restart"; _] =>
           Ok (if bool_decide (n ∈ restarts) then restarted else not_restarted)
       | _ => Ok inactive
       end;
     smtp := λ _ _, Ok tt;
     requests_post := λ _ _, Ok {| status_code := 200; text := "ok" |} |}.

Definition host (step : Z) (restarts : list nat) : Env :=
  host_at (ticking step) restarts.

Definition no_email : Simple.EmailConfig :=
  {| Simple.email_enabled := false; Simple.email_password := PyNone;
     Simple.sender_email := PyNone; Simple.receiver_email := PyNone;
     Simple.smtp_server := PyNone; Simple.smtp_port := PyNone |}.

Definition no_webhook : Simple.WebhookConfig :=
  {| Simple.webhook_enabled := false; Simple.webhook_url := PyNone |}.

(** A configuration of the simple version: one service, InfluxDB on or
    off, no notification channel. *)
Definition simple_config (influx : bool) (window_hours threshold : Z)
    : Simple.Config :=
  {| Simple.services := ["svc1"];
     Simple.scan_interval_minutes := 5;
     Simple.alert_window_hours := window_hours;
     Simple.alert_threshold := threshold;
     Simple.influxdb :=
       {| Simple.influx_enabled := influx;
          Simple.influx_url := PyStr "http://influx:8086";
          Simple.influx_token := PyStr "token";
          Simple.influx_org := PyStr "org";
          Simple.influx_bucket := PyStr "bucket" |};
     Simple.email := no_email;
     Simple.slack := no_webhook;
     Simple.teams := no_webhook |}.

(** The same configuration with the email channel on, with the given
    password. *)
Definition mailing_config (password : PyVal) : Simple.Config :=
  {| Simple.services := ["svc1"];
     Simple.scan_interval_minutes := 5;
     Simple.alert_window_hours := 1;
     Simple.alert_threshold := 3;
     Simple.influxdb := Simple.influxdb (simple_config false 1 3);
     Simple.email :=
       {| Simple.email_enabled := true; Simple.email_password := password;
          Simple.sender_email := PyStr "doctor@example.org";
          Simple.receiver_email := PyStr "ops@example.org";
          Simple.smtp_server := PyStr "smtp.example.org";
          Simple.smtp_port := PyInt 587 |};
     Simple.slack := no_webhook;
     Simple.teams := no_webhook |}.

(** The simple version at start: nothing recorded, the server up. *)
Definition simple_start : World InfluxServer :=
  mkWorld 0%nat 0%nat [] [] ∅ [] {| influx_up := true; points := [] |}.

(** A doctor of the solid version: window of one hour by default. *)
Definition doctor (services : list string) (window_hours : option Z)
    (threshold : Z) : ServiceDoctor.t :=
  {| ServiceDoctor.config :=
       {| ServiceDoctor.services := Some services;
          ServiceDoctor.scan_interval_minutes := None;
          ServiceDoctor.alert_window_hours := window_hours;
          ServiceDoctor.alert_threshold := Some threshold;
          ServiceDoctor.retention_hours := None |};
     ServiceDoctor.notification_configs := [] |}.

Definition solid_start (dbs : list Repository) : World (list Repository) :=
  mkWorld 0%nat 0%nat [] [] ∅ [] dbs.

Definition influx_repository : Repository :=
  Influx {| InfluxDBRepository.url := PyStr "http://influx:8086";
            InfluxDBRepository.token := PyStr "token";
            InfluxDBRepository.org := PyStr "org";
            InfluxDBRepository.bucket := PyStr "bucket";
            InfluxDBRepository.server := {| influx_up := true; points := [] |} |}.

(** A Redis repository in a process whose time zone is UTC. *)
Definition redis_repository (up : bool) : Repository :=
  Redis {| RedisRepository.up := up; RedisRepository.data := ∅;
           RedisRepository.posix := λ t, t |}.

Definition mongo_repository (docs : list MongoDBRepository.Doc) : Repository :=
  Mongo {| MongoDBRepository.up := true;
           MongoDBRepository.service_events := docs |}.

Definition failure_doc (service : string) (ts : datetime) : MongoDBRepository.Doc :=
  {| MongoDBRepository.doc_service_name := service;
     MongoDBRepository.doc_event_type := "failure";
     MongoDBRepository.doc_success := false;
     MongoDBRepository.doc_timestamp := MongoDBRepository.bson_datetime ts;
     MongoDBRepository.doc_message := "" |}.
End Example.

(** * Vocabulary of the further properties *)

Section CleanupVocabulary.
Import Solid.
Context {R : Type} `{!DatabaseRepository R}.

(** The repository after it has been asked to clean up. *)
Definition cleaned (cutoff_time : datetime) (db : R) : R :=
  (cleanup_old_records cutoff_time db).1.2.

(** What the log gains when the repository is asked to clean up. *)
Definition cleanup_log (cutoff_time : datetime) (db : R) : list LogRecord :=
  (cleanup_old_records cutoff_time db).2 ++
  match (cleanup_old_records cutoff_time db).1.1 with
  | Ok _ => []
  | Fails e => [Log ERROR ("Failed to cleanup old data: " +:+ exn_text e)]
  end.

(** The body of the loop of [ServiceDoctor.cleanup_old_data]. *)
Definition cleanup_body (cutoff_time : datetime) (db : nat)
    : M (World (list R)) unit :=
  try_except
    (ServiceDoctor.call_db db (cleanup_old_records cutoff_time))
    (λ e, logging ERROR ("Failed to cleanup old data: " +:+ exn_text e)).

(** The cutoff of the retention, when [cleanup_old_data] is called in [w]. *)
Definition retention_cutoff (env : Env) (self : ServiceDoctor.t)
    (w : World (list R)) : datetime :=
  clock env (ticks w)
  - timedelta_hours (default 24 (ServiceDoctor.retention_hours
                                   (ServiceDoctor.config self))).
End CleanupVocabulary.

(** ** The start of [main] *)

(** What [main] of the simple version logs about InfluxDB at its start. *)
Definition influx_start_record (CONFIG : Simple.Config) : LogRecord :=
  if Simple.influx_enabled (Simple.influxdb CONFIG)
  then Log INFO ("InfluxDB logging enabled. URL: "
                 +:+ py_str (Simple.influx_url (Simple.influxdb CONFIG))
                 +:+ ", Org: "
                 +:+ py_str (Simple.influx_org (Simple.influxdb CONFIG))
                 +:+ ", Bucket: "
                 +:+ py_str (Simple.influx_bucket (Simple.influxdb CONFIG)))
  else Log WARNING "InfluxDB logging is disabled.".

(** ** The schedule *)

(** What a job is scheduled for: its period and its function. *)
Definition job_kind (j : Job) : Z * JobFunc := (period j, job_func j).

Definition job_kinds {X} (w : World X) : list (Z * JobFunc) :=
  job_kind <$> jobs w.

(** ** The network calls of an alert *)

(** The call the email sender of the solid version puts on the wire: none
    without a password or when a key it reads is absent. *)
Definition email_attempt (service_name : string) (failures : list datetime)
    (config : gmap string PyVal) : list NetCall :=
  if truthy (Solid.config_get config "password") then
    match config !! "sender_email", config !! "receiver_email",
          config !! "smtp_server", config !! "smtp_port", config !! "password" with
    | Some sender, Some receiver, Some server, Some port, Some password =>
        [SmtpSend server port sender password receiver service_name failures]
    | _, _, _, _, _ => []
    end
  else [].

(** The call a webhook sender puts on the wire: none without a URL. *)
Definition webhook_attempt (service_name : string) (failures : list datetime)
    (config : gmap string PyVal) : list NetCall :=
  if truthy (Solid.config_get config "webhook_url")
  then [HttpPost (Solid.config_get config "webhook_url") service_name failures]
  else [].

Definition channel_attempt (service_name : string) (failures : list datetime)
    (notif_config : Solid.NotificationConfig) : list NetCall :=
  match Solid.notification_type notif_config with
  | Solid.EMAIL => email_attempt service_name failures (Solid.config notif_config)
  | Solid.SLACK | Solid.TEAMS =>
      webhook_attempt service_name failures (Solid.config notif_config)
  end.

(** The calls [send_alert] of the simple version puts on the wire. *)
Definition simple_attempts (CONFIG : Simple.Config) (service_name : string)
    (failures : list datetime) : list NetCall :=
  (if Simple.email_enabled (Simple.email CONFIG)
      && truthy (Simple.email_password (Simple.email CONFIG))
   then [SmtpSend (Simple.smtp_server (Simple.email CONFIG))
           (Simple.smtp_port (Simple.email CONFIG))
           (Simple.sender_email (Simple.email CONFIG))
           (Simple.email_password (Simple.email CONFIG))
           (Simple.receiver_email (Simple.email CONFIG)) service_name failures]
   else [])
  ++ (if Simple.webhook_enabled (Simple.slack CONFIG)
         && truthy (Simple.webhook_url (Simple.slack CONFIG))
      then [HttpPost (Simple.webhook_url (Simple.slack CONFIG)) service_name failures]
      else [])
  ++ (if Simple.webhook_enabled (Simple.teams CONFIG)
         && truthy (Simple.webhook_url (Simple.teams CONFIG))
      then [HttpPost (Simple.webhook_url (Simple.teams CONFIG)) service_name failures]
      else []).

(** ** The failure sets of the Redis repository *)

(** The sorted set [service_failures:<name>], empty when the key is absent. *)
Definition redis_failures (name : string) (r : Solid.RedisRepository.t)
    : Solid.RedisRepository.zset :=
  default [] (Solid.RedisRepository.data r !! ("service_failures:" +:+ name)).

(** The order of a sorted set: by score, then by member. *)
Definition zorder (p q : Solid.RedisRepository.Member * Z) : Prop :=
  Solid.RedisRepository.zbefore p.1 p.2 q.1 q.2.

Definition by_score (p q : Solid.RedisRepository.Member * Z) : Prop := p.2 < q.2.

(** The order in which a failure set gives its datetimes: by score, then
    by datetime. *)
Definition by_posix (posix : datetime → Z) (a b : datetime) : Prop :=
  posix a < posix b ∨ (posix a = posix b ∧ a < b).

(** Every member of a failure set is the ISO text of a datetime and its
    score is the [timestamp()] of that datetime; the set is in the order of
    Redis, which leaves no member twice. *)
Definition redis_wf (r : Solid.RedisRepository.t) : Prop :=
  ∀ name,
    Forall (λ p, ∃ t, p = (Solid.RedisRepository.IsoFormat t,
                           Solid.RedisRepository.posix r t))
           (redis_failures name r)
    ∧ StronglySorted zorder (redis_failures name r).

(** The datetime a member carries. *)
Definition member_time (m : Solid.RedisRepository.Member) : datetime :=
  match m with
  | Solid.RedisRepository.IsoFormat t => t
  | Solid.RedisRepository.EventData _ _ _ t _ => t
  end.

(** ** Examples of configurations *)

(** The configuration [c] with no service to monitor. *)
Definition without_services (c : Simple.Config) : Simple.Config :=
  {| Simple.services := [];
     Simple.scan_interval_minutes := Simple.scan_interval_minutes c;
     Simple.alert_window_hours := Simple.alert_window_hours c;
     Simple.alert_threshold := Simple.alert_threshold c;
     Simple.influxdb := Simple.influxdb c;
     Simple.email := Simple.email c;
     Simple.slack := Simple.slack c;
     Simple.teams := Simple.teams c |}.

(** ** The configuration of the simple version *)

(** [CONFIG] once the file is merged into it. *)
Definition loaded (config_file : option (Try (gmap string Json))) (CONFIG : Json)
    : Json :=
  match config_file with
  | Some (Ok user_config) => SimpleStartup.update user_config CONFIG
  | _ => CONFIG
  end.

(** [CONFIG["influxdb"][key]] and [CONFIG["notification"][channel][key]],
    when they are there. *)
Definition influx_setting (key : string) (CONFIG : Json) : option Json :=
  read [Field "influxdb"; Field key] CONFIG.

Definition channel_setting (channel key : string) (CONFIG : Json) : option Json :=
  read [Field "notification"; Field channel; Field key] CONFIG.

(** The shape of [CONFIG] around [CONFIG["influxdb"]]. *)
Definition with_influx (D i : gmap string Json) : Json :=
  JDict (<["influxdb" := JDict i]> D).

(** The shape of [CONFIG] around [CONFIG["notification"][channel]]. *)
Definition with_channel (channel : string) (D N c : gmap string Json) : Json :=
  JDict (<["notification" := JDict (<[channel := JDict c]> N)]> D).

(** [CONFIG] when the module is loaded: the empty dict, in a process that
    has done nothing yet. *)
Definition fresh_CONFIG : World Json := mkWorld 0%nat 0%nat [] [] ∅ [] (JDict ∅).

(** A [config.json] with InfluxDB enabled and no token, and the channels
    switched off. *)
Definition example_config_file : gmap string Json :=
  list_to_map
    [("services", JList [JStr "svc1"]);
     ("scan_interval_minutes", JInt 5);
     ("influxdb",
      JDict (list_to_map
               [("enabled", JBool true); ("url", JStr "http://localhost:8086");
                ("token", JStr ""); ("org", JStr "org");
                ("bucket", JStr "bucket")]));
     ("notification",
      JDict (list_to_map
               [("email", JDict (list_to_map
                                   [("enabled", JBool false);
                                    ("password", JStr "")]));
                ("slack", JDict (list_to_map
                                   [("enabled", JBool false);
                                    ("webhook_url", JStr "")]));
                ("teams", JDict (list_to_map
                                   [("enabled", JBool false);
                                    ("webhook_url", JStr "")]))]))].

(** Python's [str] on a dict, left out of the examples. *)
Definition no_repr : Json → string := λ _, "{...}".

(** ** The entries of the configuration of the solid version *)

(** Whether an entry of ["databases"] or ["notifications"] is switched on:
    its ["enabled"] is truthy. *)
Definition switched_on (entry : Json) : bool :=
  match entry with
  | JDict d => json_truthy (default (JBool false) (d !! "enabled"))
  | _ => false
  end.

(** An entry that is a dict and, when it is switched on, has a type and a
    configuration. *)
Definition complete_entry (entry : Json) : Prop :=
  ∃ d, entry = JDict d
       ∧ (switched_on entry = true → is_Some (d !! "type") ∧ is_Some (d !! "config")).

(** The class of repository a type names, whatever the case of its
    letters. *)
Definition class_of (type : Json) : option SolidStartup.RepositoryClass :=
  match type with
  | JStr s =>
      if decide (lower s = "influxdb") then Some SolidStartup.InfluxDBClass
      else if decide (lower s = "redis") then Some SolidStartup.RedisClass
      else if decide (lower s = "mongodb") then Some SolidStartup.MongoDBClass
      else None
  | _ => None
  end.

(** The channel a type names. *)
Definition channel_of (type : Json) : option Solid.NotificationType :=
  match type with
  | JStr s =>
      if decide (s = "email") then Some Solid.EMAIL
      else if decide (s = "slack") then Some Solid.SLACK
      else if decide (s = "teams") then Some Solid.TEAMS
      else None
  | _ => None
  end.

(** The repository an entry of ["databases"] stands for, if any. *)
Definition registered (entry : Json) : option SolidStartup.NewRepository :=
  match entry with
  | JDict d =>
      if switched_on entry then
        type ← d !! "type";
        config ← d !! "config";
        class ← class_of type;
        Some {| SolidStartup.repository_class := class;
                SolidStartup.repository_config := config |}
      else None
  | _ => None
  end.

(** The channel an entry of ["notifications"] stands for, if any. *)
Definition notified (entry : Json) : option SolidStartup.NotificationConfig :=
  match entry with
  | JDict d =>
      if switched_on entry then
        type ← d !! "type";
        enabled ← d !! "enabled";
        config ← d !! "config";
        channel ← channel_of type;
        Some {| SolidStartup.notification_type := channel;
                SolidStartup.enabled := enabled;
                SolidStartup.config := config |}
      else None
  | _ => None
  end.

(** An entry of ["notifications"] whose type, when it is switched on, names
    a channel. *)
Definition known_channel (entry : Json) : Prop :=
  switched_on entry = true →
  ∃ type, getitem entry "type" = Ok type ∧ is_Some (channel_of type).

(** An entry whose type is none of [names], as written. *)
Definition unmatched (names : list string) (entry : Json) : Prop :=
  ∃ d type, entry = JDict d ∧ d !! "type" = Some type
            ∧ Forall (λ name, equals_str type name = false) names.

(** ** Examples of configurations of the solid version *)

Definition example_entry (type : string) (enabled : bool)
    (config : list (string * Json)) : Json :=
  JDict (list_to_map [("type", JStr type); ("enabled", JBool enabled);
                      ("config", JDict (list_to_map config))]).

(** A file with three databases, of which one is of an unknown type and
    one is switched off, and one channel of the given type. *)
Definition example_solid_config (channel : string) : Json :=
  JDict (list_to_map
           [("services", JList [JStr "svc1"]);
            ("databases",
             JList [example_entry "MongoDB" true
                      [("connection_string", JStr "mongodb://db")];
                    example_entry "cassandra" true [];
                    example_entry "Redis" false []]);
            ("notifications",
             JList [example_entry channel true [("webhook_url", JStr "")]])]).

(** [repr] on a string without quotes; the other values are left out. *)
Definition example_repr (v : Json) : string :=
  match v with
  | JStr s => "'" +:+ s +:+ "'"
  | _ => "..."
  end.

(** [int] on the strings of the examples. *)
Definition example_int (s : string) : Try Z :=
  if String.eqb s "6379" then Ok 6379
  else Fails (mkExn ValueError ("invalid literal for int() with base 10: "
                                +:+ example_repr (JStr s))).

(** * Properties *)

(** ** The monad *)

Lemma run_bind {W A B} (m : M W A) (f : A → M W B) (w : W) :
  (m ≫= f) w =
  match m w with
  | (Returned a, w') => f a w'
  | (Raised e, w') => (Raised e, w')
  | (Interrupted, w') => (Interrupted, w')
  end.
Proof. reflexivity. Qed.

(** The primitives of the embedding are unfolded and the code is run as far
    as it is determined. *)
Ltac run_code :=
  unfold mbind, M_bind, mret, M_ret, raise, gets, modify, when, logging,
    datetime_now, datetime_utcnow, set_failures, failures_of, set_log,
    set_ticks, set_spawned, set_net, set_service_failures, set_jobs, set_ext;
  cbn.

Lemma world_eta {X} (w : World X) :
  mkWorld (ticks w) (spawned w) (log w) (net w) (service_failures w) (jobs w)
          (ext w) = w.
Proof. by destruct w. Qed.

(** ** Alerts and quiet steps *)

Lemma alerts_log_app {X} (w : World X) (l : list LogRecord) :
  alerts (set_log (log w ++ l) w) = alerts w ++ List.filter is_alert l.
Proof. unfold alerts. simpl. apply List.filter_app. Qed.

Lemma filter_is_alert_quiet (l : list LogRecord) :
  Forall quiet l → List.filter is_alert l = [].
Proof.
  induction 1 as [|r l Hr _ IH]; [done|]. simpl. rewrite IH.
  unfold is_alert, quiet in *. by destruct (lvl r).
Qed.

Lemma prefix_append (p s : string) : String.prefix p (p +:+ s) = true.
Proof.
  induction p as [|a p IH]; simpl.
  - by destruct s.
  - by destruct (Ascii.ascii_dec a a).
Qed.

Lemma is_alert_alert_record name n : is_alert (alert_record name n) = true.
Proof. unfold is_alert, alert_record. simpl. apply prefix_append. Qed.

Lemma quiet_step_refl {X} (w : World X) : quiet_step w w.
Proof. by repeat split. Qed.

Lemma quiet_step_trans {X} (w1 w2 w3 : World X) :
  quiet_step w1 w2 → quiet_step w2 w3 → quiet_step w1 w3.
Proof.
  intros (?&?&?&?&?) (?&?&?&?&?). repeat split; try congruence. lia.
Qed.

Section Silent.
Context {X : Type}.

Lemma silent_ret {A} (a : A) : silent (X:=X) (mret a).
Proof. intros w. exists a, w. by repeat split. Qed.

Lemma silent_bind {A B} (m : M (World X) A) (f : A → M (World X) B) :
  silent m → (∀ a, silent (f a)) → silent (m ≫= f).
Proof.
  intros H1 H2 w. destruct (H1 w) as (a & w1 & E1 & Q1 & T1 & X1).
  destruct (H2 a w1) as (b & w2 & E2 & Q2 & T2 & X2).
  exists b, w2. rewrite run_bind, E1, E2. split; [done|].
  split; [by eapply quiet_step_trans|]. split; congruence.
Qed.

Lemma silent_ret_bind {A B} (a : A) (f : A → M (World X) B) :
  silent (f a) → silent (mret a ≫= f).
Proof. intros Hf w. exact (Hf w). Qed.

Lemma silent_when (c : bool) (m : M (World X) unit) :
  silent m → silent (when c m).
Proof. intros Hm. destruct c; [apply Hm | apply silent_ret]. Qed.

Lemma silent_try_except {A} (body : M (World X) A) handler :
  silent body → silent (try_except body handler).
Proof.
  intros Hm w. destruct (Hm w) as (a & w1 & E1 & ?).
  exists a, w1. unfold try_except. by rewrite E1.
Qed.

Lemma silent_for_each {A} (xs : list A) (body : A → M (World X) unit) :
  (∀ x, silent (body x)) → silent (for_each xs body).
Proof.
  intros Hbody. induction xs as [|x xs IH]; cbn [for_each].
  - apply silent_ret.
  - apply silent_bind; [apply Hbody | intros _; apply IH].
Qed.

Lemma silent_logging (l : Level) (text : string) :
  l ≠ WARNING → silent (X:=X) (logging l text).
Proof.
  intros Hl w. exists tt. eexists. split; [reflexivity|].
  unfold quiet_step. rewrite alerts_log_app. cbn.
  unfold is_alert. cbn. destruct l; try done; rewrite app_nil_r; by repeat split.
Qed.
End Silent.

(** ** Fan-out of a save to the databases *)

Section FanOut.
Import Solid.
Context {R : Type} `{!DatabaseRepository R}.
Variable env : Env.
Variable self : ServiceDoctor.t.

Lemma save_body_run event k db (w : World (list R)) :
  ext w !! k = Some db →
  save_body event k w =
  (Returned tt,
   set_log (log w ++ save_log event db)
     (set_ext (<[k := saved event db]> (ext w)) w)).
Proof.
  intros Hk. unfold save_body, try_except, save_log, saved.
  rewrite run_bind. unfold ServiceDoctor.call_db. rewrite Hk.
  destruct (save_event event db) as [[[b|e] db'] logs]; simpl.
  - by rewrite app_nil_r.
  - unfold logging, modify, set_log; simpl. by rewrite <- app_assoc.
Qed.

Lemma save_loop_run event n : ∀ k (w : World (list R)),
  (k + n)%nat = length (ext w) →
  for_each (seq k n) (save_body event) w =
  (Returned tt,
   set_log (log w ++ flat_map (save_log event) (drop k (ext w)))
     (set_ext (take k (ext w) ++ (saved event <$> drop k (ext w)))%list w)).
Proof.
  induction n as [|n IH]; intros k w Hlen.
  - simpl. rewrite drop_ge, take_ge by lia. simpl.
    rewrite !app_nil_r. unfold set_log, set_ext; simpl.
    by rewrite world_eta.
  - destruct (lookup_lt_is_Some_2 (ext w) k) as [db Hdb]; [lia|].
    cbn [seq for_each]. rewrite run_bind, (save_body_run _ _ db) by done.
    rewrite IH by (simpl; rewrite length_insert; lia).
    simpl. f_equal. unfold set_log, set_ext; simpl.
    rewrite (drop_S _ db k) by done.
    rewrite drop_insert_lt by lia.
    rewrite take_insert_lt by lia.
    rewrite (take_S_r _ _ db) by done.
    rewrite insert_app_r_alt by (rewrite length_take; lia).
    rewrite length_take, Nat.min_l by lia.
    rewrite Nat.sub_diag. simpl.
    by rewrite <- !app_assoc.
Qed.

Lemma save_event_run event (w : World (list R)) :
  ServiceDoctor.save_event event w =
  (Returned tt,
   set_log (log w ++ flat_map (save_log event) (ext w))
     (set_ext (saved event <$> ext w) w)).
Proof.
  unfold ServiceDoctor.save_event, ServiceDoctor.databases_indices.
  rewrite run_bind. unfold gets. cbn beta iota.
  exact (save_loop_run event (length (ext w)) 0 w eq_refl).
Qed.
End FanOut.

(** ** The failure list of the alert decision *)

Section Query.
Import Solid.
Context {R : Type} `{!DatabaseRepository R}.
Variable env : Env.
Variable self : ServiceDoctor.t.

Lemma first_answer_app_empty (pre post : list (list datetime)) :
  Forall (λ l, l = []) pre → first_answer (pre ++ post) = first_answer post.
Proof. induction 1 as [|l pre -> _ IH]; simpl; auto. Qed.

Lemma first_answer_None (answers : list (list datetime)) :
  first_answer answers = None ↔ Forall (λ l, l = []) answers.
Proof.
  induction answers as [|[|t l] answers IH]; simpl.
  - split; auto.
  - rewrite IH. split; [by constructor | by inversion 1].
  - split; [done | by inversion 1].
Qed.

Lemma query_body_run name cutoff k db (w : World (list R)) :
  ext w !! k = Some db →
  query_body name cutoff k w =
  (Returned (first_answer [answer name cutoff db]),
   set_log (log w ++ query_log name cutoff db)
     (set_ext (<[k := asked name cutoff db]> (ext w)) w)).
Proof.
  intros Hk. unfold query_body, try_except, answer, asked, query_log.
  rewrite run_bind. unfold ServiceDoctor.call_db. rewrite Hk.
  destruct (get_failures name cutoff db) as [[[l|e] db'] logs]; simpl.
  - rewrite app_nil_r. by destruct l.
  - rewrite run_bind. unfold logging, modify, set_log; simpl.
    by rewrite <- app_assoc.
Qed.

Lemma query_log_quiet name cutoff db :
  Forall quiet (get_failures name cutoff db).2 →
  Forall quiet (query_log name cutoff db).
Proof.
  intros Hq. unfold query_log. apply Forall_app. split; [done|].
  destruct ((get_failures name cutoff db).1.1); repeat constructor. done.
Qed.

Lemma query_loop_run name cutoff n : ∀ k (w : World (list R)),
  (k + n)%nat = length (ext w) →
  ∃ w',
    for_first (seq k n) (query_body name cutoff) w =
    (Returned (first_answer (answer name cutoff <$> drop k (ext w))), w')
    ∧ query_frame w w'
    ∧ (∀ i, (i < k)%nat → ext w' !! i = ext w !! i)
    ∧ (∀ i db, ext w !! i = Some db →
         ext w' !! i = Some db ∨ ext w' !! i = Some (asked name cutoff db))
    ∧ ((∀ db, Forall quiet (get_failures name cutoff db).2) →
       alerts w' = alerts w).
Proof.
  induction n as [|n IH]; intros k w Hlen.
  - exists w. rewrite drop_ge by lia. by repeat split; auto.
  - destruct (lookup_lt_is_Some_2 (ext w) k) as [db Hdb]; [lia|].
    cbn [seq for_first].
    rewrite run_bind, (query_body_run name cutoff k db w Hdb).
    rewrite (drop_S _ db k) by done. simpl.
    set (w1 := set_log _ _).
    assert ((∀ db, Forall quiet (get_failures name cutoff db).2) →
            alerts w1 = alerts w) as Hquiet1.
    { intros Hq. unfold w1. unfold alerts. cbn. rewrite List.filter_app.
      rewrite (filter_is_alert_quiet (query_log name cutoff db))
        by (by apply query_log_quiet).
      by rewrite app_nil_r. }
    destruct (answer name cutoff db) as [|t l] eqn:Hans.
    + destruct (IH (S k) w1) as (w' & Hloop & Hframe & Hlow & Hext & Hal).
      { simpl. rewrite length_insert. lia. }
      exists w'. split; [|split; [|split; [|split]]].
      * rewrite Hloop. do 3 f_equal. simpl. by rewrite drop_insert_lt by lia.
      * destruct Hframe as (?&?&?&?&?&Hl). simpl in *.
        rewrite length_insert in Hl. by repeat split.
      * intros i Hi. rewrite Hlow by lia. simpl.
        by rewrite list_lookup_insert_ne by lia.
      * intros i d Hi.
        destruct (decide (i = k)) as [->|Hne].
        -- assert (d = db) as -> by congruence.
           right. rewrite Hlow by lia. simpl.
           by rewrite list_lookup_insert_eq by lia.
        -- destruct (Hext i d); auto. simpl. by rewrite list_lookup_insert_ne.
      * intros Hq. by rewrite Hal, Hquiet1.
    + exists w1. split; [done|]. split; [|split; [|split]].
      * unfold query_frame. simpl. rewrite length_insert. by repeat split.
      * intros i Hi. simpl. by rewrite list_lookup_insert_ne by lia.
      * intros i d Hi. simpl. destruct (decide (i = k)) as [->|Hne].
        -- right. rewrite list_lookup_insert_eq by lia. congruence.
        -- left. by rewrite list_lookup_insert_ne.
      * done.
Qed.

Lemma first_answer_skip_empty (pre post : list (list datetime)) :
  first_answer (pre ++ [] :: post) = first_answer (pre ++ post).
Proof. induction pre as [|[|t l] pre IH]; simpl; auto. Qed.

(** The list [get_recent_failures] returns and the world it leaves. *)
Lemma get_recent_failures_run name (w : World (list R)) :
  ∃ w',
    ServiceDoctor.get_recent_failures env self name w =
    (Returned (default (filter (λ t, cutoff_at env self w ≤ t) (failures_of name w))
                 (first_answer (answer name (cutoff_at env self w) <$> ext w))),
     w')
    ∧ ticks w' = S (ticks w) ∧ spawned w' = spawned w ∧ net w' = net w
    ∧ jobs w' = jobs w
    ∧ service_failures w' =
        match first_answer (answer name (cutoff_at env self w) <$> ext w) with
        | Some _ => service_failures w
        | None =>
            <[name := filter (λ t, cutoff_at env self w ≤ t) (failures_of name w)]>
              (service_failures w)
        end
    ∧ (∀ i db, ext w !! i = Some db →
         ext w' !! i = Some db
         ∨ ext w' !! i = Some (asked name (cutoff_at env self w) db))
    ∧ length (ext w') = length (ext w)
    ∧ ((∀ db, Forall quiet (get_failures name (cutoff_at env self w) db).2) →
       alerts w' = alerts w).
Proof.
  unfold ServiceDoctor.get_recent_failures, ServiceDoctor.databases_indices.
  rewrite run_bind. unfold datetime_now. cbn beta iota.
  rewrite run_bind. unfold gets. cbn beta iota. rewrite run_bind.
  destruct (query_loop_run name (cutoff_at env self w) (length (ext w)) 0
              (set_ticks (S (ticks w)) w) eq_refl)
    as (w1 & Hloop & (Ht & Hs & Hn & Hf & Hj & Hl) & _ & Hext & Hal).
  change (for_first _ _ _)
    with (for_first (seq 0 (length (ext w)))
            (query_body name (cutoff_at env self w))
            (set_ticks (S (ticks w)) w)).
  rewrite Hloop.
  change (drop 0 (ext (set_ticks (S (ticks w)) w))) with (ext w).
  change (clock env (ticks w) - _) with (cutoff_at env self w).
  change (alerts (set_ticks (S (ticks w)) w)) with (alerts w) in Hal.
  cbn [set_ticks ticks spawned net service_failures jobs ext] in *.
  destruct (first_answer _) as [l|]; cbn beta iota.
  - exists w1. split; [reflexivity|]. by repeat (split; [assumption|]).
  - rewrite run_bind. unfold modify, gets, set_failures, failures_of.
    cbn beta iota. eexists. split.
    + cbn [service_failures set_service_failures]. rewrite Hf.
      by rewrite lookup_insert_eq.
    + cbn [set_service_failures ticks spawned net service_failures jobs ext].
      by repeat (split; [assumption || reflexivity|]).
Qed.
End Query.

(** C3: the failure list [get_recent_failures] returns for the alert decision
    is the answer of the first database, in the order of [self.databases],
    whose [get_failures] returns a non-empty list; a database that returns the
    empty list or raises is passed over; when every database is passed over,
    the list is the in-memory window of the service pruned at the cutoff. *)
Theorem C3_first_nonempty_backend_wins {R : Type} `{!Solid.DatabaseRepository R}
    (env : Env) (self : Solid.ServiceDoctor.t) (service_name : string)
    (w : World (list R)) :
  let cutoff := cutoff_at env self w in
  (∀ pre db post,
     ext w = pre ++ db :: post →
     Forall (λ d, answer service_name cutoff d = []) pre →
     answer service_name cutoff db ≠ [] →
     outcome (Solid.ServiceDoctor.get_recent_failures env self service_name) w
     = Returned (answer service_name cutoff db))
  ∧ (Forall (λ d, answer service_name cutoff d = []) (ext w) →
     outcome (Solid.ServiceDoctor.get_recent_failures env self service_name) w
     = Returned (filter (λ t, cutoff ≤ t) (failures_of service_name w))).
Proof.
  intros cutoff.
  destruct (get_recent_failures_run env self service_name w) as (w' & Hrun & _).
  unfold outcome. rewrite Hrun. fold cutoff. cbn [fst]. split.
  - intros pre db post -> Hpre Hdb. rewrite fmap_app.
    rewrite first_answer_app_empty by (by apply Forall_fmap).
    simpl. by destruct (answer service_name cutoff db).
  - intros Hall.
    by rewrite (proj2 (first_answer_None _)) by (by apply Forall_fmap).
Qed.


(** C5: [ServiceDoctor.save_event] asks every database of [self.databases]
    to save the event, each one once and whatever the others did: a database
    that returns [False] or raises does not keep the event from the
    databases after it. The call itself returns; a failure shows in the log
    only, and nothing else of the world changes. *)
Theorem C5_save_fans_out_to_every_backend {R : Type} `{!Solid.DatabaseRepository R}
    (event : Solid.ServiceEvent) (w : World (list R)) :
  let w' := exec (Solid.ServiceDoctor.save_event event) w in
  outcome (Solid.ServiceDoctor.save_event event) w = Returned tt
  ∧ ext w' = saved event <$> ext w
  ∧ (∀ k db, ext w !! k = Some db → ext w' !! k = Some (saved event db))
  ∧ log w' = log w ++ flat_map (save_log event) (ext w)
  ∧ ticks w' = ticks w ∧ spawned w' = spawned w ∧ net w' = net w
  ∧ service_failures w' = service_failures w ∧ jobs w' = jobs w.
Proof.
  unfold exec, outcome. rewrite save_event_run. cbn.
  repeat split; try reflexivity.
  intros k db Hk. by rewrite list_lookup_fmap, Hk.
Qed.

(** C9: [InfluxDBRepository.get_failures] returns the empty list for every
    service and every instant, and leaves the repository as it is; so an
    InfluxDB repository never supplies the failure list of the alert
    decision: [get_recent_failures] returns what it returns without it. *)
Theorem C9_influx_never_supplies_failures :
  (∀ service_name since r,
     Solid.InfluxDBRepository.get_failures service_name since r = (Ok [], r, []))
  ∧ (∀ env self service_name (w : World (list Solid.Repository)) pre r post,
       outcome (Solid.ServiceDoctor.get_recent_failures env self service_name)
         (set_ext (pre ++ Solid.Influx r :: post) w)
       = outcome (Solid.ServiceDoctor.get_recent_failures env self service_name)
           (set_ext (pre ++ post) w)).
Proof.
  split; [done|]. intros env self name w pre r post. unfold outcome.
  destruct (get_recent_failures_run env self name
              (set_ext (pre ++ Solid.Influx r :: post) w)) as (w1 & -> & _).
  destruct (get_recent_failures_run env self name
              (set_ext (pre ++ post) w)) as (w2 & -> & _).
  cbn [fst ext set_ext]. rewrite !fmap_app, fmap_cons.
  by rewrite first_answer_skip_empty.
Qed.

(** ** The run loop *)

(** C10: with no service configured, [ServiceDoctor.run] logs that it
    starts, logs the warning and returns [None]: the world is otherwise
    untouched, so no scan was made (no command spawned, no event saved), no
    job scheduled, and the monitoring loop was not entered, for any number of
    rounds the loop would have run. *)
Theorem C10_run_without_services_returns {R : Type} `{!Solid.DatabaseRepository R}
    (env : Env) (self : Solid.ServiceDoctor.t) (rounds : nat) (w : World (list R)) :
  default [] (Solid.ServiceDoctor.services (Solid.ServiceDoctor.config self)) = [] →
  Solid.ServiceDoctor.run env self rounds w =
  (Returned None,
   set_log (log w ++ [Log INFO "Linux Service Doctor starting...";
                      Log WARNING "No services configured for monitoring."]) w).
Proof.
  intros Hnone. unfold Solid.ServiceDoctor.run. rewrite Hnone.
  run_code. by rewrite <- app_assoc.
Qed.

(** ** The probe *)

Lemma check_service_run {X} env service (w : World X) :
  check_service env service w =
  (Returned (is_active env (spawned w) service),
   set_log (log w ++ check_log env (spawned w) service)
     (set_spawned (S (spawned w)) w)).
Proof.
  unfold check_service, try_except, subprocess, is_active, check_log.
  rewrite run_bind.
  destruct (subprocess_run env (spawned w) _) as [r|e]; run_code.
  - by rewrite app_nil_r.
  - by destruct (exn_class e).
Qed.

Lemma restart_service_run {X} env service (w : World X) :
  restart_service env service w =
  (Returned (restart_ok env (spawned w) service),
   set_log (log w ++ restart_log env (spawned w) service)
     (set_spawned (S (spawned w)) w)).
Proof.
  unfold restart_service, try_except, subprocess, restart_ok, restart_log.
  rewrite run_bind.
  destruct (subprocess_run env (spawned w) _) as [r|e]; run_code.
  - by destruct (returncode r =? 0).
  - by destruct (exn_class e).
Qed.

Lemma check_log_no_alert env n s : List.filter is_alert (check_log env n s) = [].
Proof.
  unfold check_log.
  destruct (subprocess_run _ _ _) as [|e]; [done|]. by destruct (exn_class e).
Qed.

Lemma restart_log_no_alert env n s :
  List.filter is_alert (restart_log env n s) = [].
Proof.
  unfold restart_log.
  destruct (subprocess_run _ _ _) as [r|e];
    [by destruct (_ =? _) | by destruct (exn_class e)].
Qed.

(** ** The simple version, call by call *)

Section SimpleCalls.
Variable env : Env.
Variable CONFIG : Simple.Config.

Lemma save_to_influxdb_quiet name event_type success (w : World InfluxServer) :
  ∃ w', Simple.save_to_influxdb env CONFIG name event_type success w
        = (Returned tt, w')
        ∧ quiet_step w w' ∧ net w' = net w.
Proof.
  unfold Simple.save_to_influxdb, try_except, Simple.write_point, influx_write.
  repeat (run_code;
          try match goal with
              | |- context [if ?b then _ else _] => destruct b eqn:?
              end);
    eexists; (split; [reflexivity|]); unfold quiet_step, alerts; cbn;
    rewrite ?List.filter_app, ?app_nil_r; cbn; repeat split; auto; lia.
Qed.
(** The points [save_to_influxdb] adds to the bucket: at most one, of the
    given service and event type. *)
Lemma save_to_influxdb_points name event_type success (w : World InfluxServer) :
  ∃ added,
    points (ext (exec (Simple.save_to_influxdb env CONFIG name event_type success) w))
    = points (ext w) ++ added
    ∧ Forall (λ p, tag_service p = name ∧ tag_event_type p = event_type) added.
Proof.
  unfold exec, Simple.save_to_influxdb, try_except, Simple.write_point,
    influx_write.
  repeat (run_code;
          try match goal with
              | |- context [if ?b then _ else _] => destruct b eqn:?
              end);
    first [ by exists []; rewrite app_nil_r
          | eexists [_]; split; [reflexivity|]; by repeat constructor ].
Qed.

Lemma send_email_alert_quiet name :
  silent (Simple.send_email_alert env CONFIG name).
Proof.
  intros w.
  unfold Simple.send_email_alert, try_except, smtp_send.
  repeat (run_code;
          try match goal with
              | |- context [if ?b then _ else _] => destruct b eqn:?
              | |- context [smtp ?e ?n ?c] => destruct (smtp e n c) eqn:?
              end);
    do 2 eexists; (split; [reflexivity|]); unfold quiet_step, alerts; cbn;
    rewrite ?List.filter_app, ?app_nil_r; cbn; repeat split; auto.
Qed.

Lemma send_webhook_alert_quiet kind cfg name :
  silent (Simple.send_webhook_alert env kind cfg name).
Proof.
  intros w.
  unfold Simple.send_webhook_alert, try_except, http_post.
  repeat (run_code;
          try match goal with
              | |- context [requests_post ?e ?n ?c] =>
                  destruct (requests_post e n c) eqn:?
              | |- context [if ?b then _ else _] => destruct b eqn:?
              end);
    do 2 eexists; (split; [reflexivity|]); unfold quiet_step, alerts; cbn;
    rewrite ?List.filter_app, ?app_nil_r; cbn; repeat split; auto.
Qed.

Lemma send_alert_run name (w : World InfluxServer) :
  ∃ w', Simple.send_alert env CONFIG name w = (Returned tt, w')
        ∧ service_failures w' = service_failures w
        ∧ alerts w' = alerts w ++ [alert_record name (length (failures_of name w))]
        ∧ ticks w' = ticks w ∧ ext w' = ext w
        ∧ spawned w' = spawned w ∧ jobs w' = jobs w.
Proof.
  unfold Simple.send_alert. rewrite run_bind. unfold gets. cbn beta iota.
  rewrite run_bind. unfold logging at 1, modify. cbn beta iota.
  fold (alert_record name (length (failures_of name w))).
  set (w0 := set_log _ w).
  assert (silent (when (Simple.email_enabled (Simple.email CONFIG))
                    (Simple.send_email_alert env CONFIG name);;
                  when (Simple.webhook_enabled (Simple.slack CONFIG))
                    (Simple.send_slack_alert env CONFIG name);;
                  when (Simple.webhook_enabled (Simple.teams CONFIG))
                    (Simple.send_teams_alert env CONFIG name))) as Hrest.
  { apply silent_bind; [apply silent_when, send_email_alert_quiet|intros _].
    apply silent_bind; [apply silent_when, send_webhook_alert_quiet|intros _].
    apply silent_when, send_webhook_alert_quiet. }
  destruct (Hrest w0) as ([] & w' & E & (Hf & Ha & Hs & Hj & _) & Ht & Hx).
  exists w'. split; [exact E|]. subst w0.
  rewrite Hf, Ha, Ht, Hx, Hs, Hj, alerts_log_app. cbn [List.filter].
  rewrite is_alert_alert_record. by repeat split.
Qed.

(** The window [record_failure] leaves for the service. *)
Lemma record_failure_run name (w : World InfluxServer) :
  let now := clock env (ticks w) in
  let cutoff := now - timedelta_hours (Simple.alert_window_hours CONFIG) in
  let window := filter (λ t, cutoff ≤ t) (failures_of name w ++ [now]) in
  ∃ w', Simple.record_failure env CONFIG name w = (Returned tt, w')
        ∧ service_failures w' = <[name := window]> (service_failures w)
        ∧ alerts w' =
            alerts w ++
            (if Simple.alert_threshold CONFIG <=? Z.of_nat (length window)
             then [alert_record name (length window)] else [])
        ∧ (S (ticks w) ≤ ticks w')%nat
        ∧ spawned w' = spawned w ∧ jobs w' = jobs w
        ∧ ∃ added,
            points (ext w') = points (ext w) ++ added
            ∧ Forall (λ p, tag_service p = name ∧ tag_event_type p = "failure")
                     added.
Proof.
  intros now cutoff window. unfold Simple.record_failure.
  rewrite run_bind. unfold datetime_now. cbn beta iota.
  rewrite run_bind. unfold modify at 1. cbn beta iota.
  rewrite run_bind. unfold modify at 1. cbn beta iota.
  rewrite run_bind. unfold gets at 1. cbn beta iota.
  set (w1 := set_failures name _ _).
  assert (failures_of name w1 = window) as Hwin.
  { unfold w1, failures_of, set_failures. cbn. by rewrite !lookup_insert_eq. }
  assert (service_failures w1 = <[name := window]> (service_failures w)) as Hsf.
  { unfold w1, set_failures, failures_of. cbn.
    rewrite lookup_insert_eq, insert_insert_eq. done. }
  rewrite Hwin, run_bind.
  assert (∃ w2, when (Simple.alert_threshold CONFIG <=? Z.of_nat (length window))
                  (Simple.send_alert env CONFIG name) w1 = (Returned tt, w2)
                ∧ service_failures w2 = service_failures w1
                ∧ alerts w2 = alerts w ++
                    (if Simple.alert_threshold CONFIG <=? Z.of_nat (length window)
                     then [alert_record name (length window)] else [])
                ∧ ticks w2 = S (ticks w) ∧ spawned w2 = spawned w
                ∧ jobs w2 = jobs w ∧ ext w2 = ext w)
    as (w2 & E2 & Hf2 & Ha2 & Ht2 & Hs2 & Hj2 & Hx2).
  { destruct (_ <=? _).
    - destruct (send_alert_run name w1) as (w2 & E & Hf & Ha & Ht & Hx & Hs & Hj).
      exists w2. rewrite Hwin in Ha. by repeat split.
    - exists w1. rewrite app_nil_r. by repeat split. }
  rewrite E2.
  destruct (Simple.influx_enabled (Simple.influxdb CONFIG)); cbn [when].
  - destruct (save_to_influxdb_quiet name "failure" false w2)
      as (w3 & E3 & (Hf3 & Ha3 & Hs3 & Hj3 & Ht3) & _).
    destruct (save_to_influxdb_points name "failure" false w2)
      as (added & Hadded & Hall).
    unfold exec in Hadded. rewrite E3 in Hadded. cbn [snd] in Hadded.
    exists w3. rewrite E3. split; [done|].
    rewrite Hf3, Ha3, Hs3, Hj3, Hf2, Hsf, Ha2, Hs2, Hj2, Hadded, Hx2.
    repeat split; eauto. lia.
  - exists w2. split; [done|].
    rewrite Hf2, Hsf, Ha2, Hs2, Hj2, Ht2, Hx2. repeat split; auto.
    exists []. by rewrite app_nil_r.
Qed.

(** The point [save_to_influxdb] writes: one, when InfluxDB is enabled, its
    parameters are set and the server answers; none otherwise. *)
Lemma save_to_influxdb_exact name event_type success (w : World InfluxServer) :
  let w' := exec (Simple.save_to_influxdb env CONFIG name event_type success) w in
  points (ext w')
  = points (ext w)
    ++ written CONFIG (ext w)
         (simple_point name event_type success (utc_clock env (ticks w)))
  ∧ influx_up (ext w') = influx_up (ext w).
Proof.
  unfold exec, written, influx_ready, simple_point, Simple.save_to_influxdb,
    try_except, Simple.write_point, influx_write.
  destruct (Simple.influx_enabled _); cbn; [|by rewrite app_nil_r].
  destruct (truthy (Simple.influx_url _)), (truthy (Simple.influx_token _)),
    (truthy (Simple.influx_org _)), (truthy (Simple.influx_bucket _));
    cbn; rewrite ?app_nil_r; try done.
  run_code. destruct (influx_up (ext w)) eqn:Hup; cbn; rewrite ?app_nil_r;
    by rewrite ?Hup.
Qed.

(** The point [record_failure] writes. *)
Lemma record_failure_points name (w : World InfluxServer) :
  ∃ w', Simple.record_failure env CONFIG name w = (Returned tt, w')
        ∧ points (ext w')
          = points (ext w)
            ++ written CONFIG (ext w)
                 (simple_point name "failure" false (utc_clock env (S (ticks w))))
        ∧ influx_up (ext w') = influx_up (ext w).
Proof.
  unfold Simple.record_failure.
  rewrite run_bind. unfold datetime_now. cbn beta iota.
  rewrite run_bind. unfold modify at 1. cbn beta iota.
  rewrite run_bind. unfold modify at 1. cbn beta iota.
  rewrite run_bind. unfold gets at 1. cbn beta iota.
  set (w1 := set_failures name _ _).
  rewrite run_bind.
  assert (∃ w2, when (Simple.alert_threshold CONFIG
                        <=? Z.of_nat (length (failures_of name w1)))
                  (Simple.send_alert env CONFIG name) w1 = (Returned tt, w2)
                ∧ ticks w2 = S (ticks w) ∧ ext w2 = ext w)
    as (w2 & E2 & Ht2 & Hx2).
  { destruct (_ <=? _).
    - destruct (send_alert_run name w1) as (w2 & E & _ & _ & Ht & Hx & _).
      exists w2. by repeat split.
    - exists w1. by repeat split. }
  rewrite E2. cbn beta iota.
  destruct (Simple.influx_enabled (Simple.influxdb CONFIG)) eqn:Hon; cbn [when].
  - destruct (save_to_influxdb_quiet name "failure" false w2)
      as (w3 & E3 & _).
    destruct (save_to_influxdb_exact name "failure" false w2) as [Hp Hu].
    unfold exec in Hp, Hu. rewrite E3 in Hp, Hu. cbn [snd] in Hp, Hu.
    exists w3. split; [done|]. by rewrite Hp, Hu, Ht2, Hx2.
  - exists w2. split; [done|]. rewrite Hx2. unfold written, influx_ready.
    rewrite Hon. cbn. by rewrite app_nil_r.
Qed.
End SimpleCalls.

(** ** The sliding window *)

Lemma filter_cutoff_later (c c' : Z) (l : list Z) :
  c ≤ c' → filter (λ t, c' ≤ t) (filter (λ t, c ≤ t) l) = filter (λ t, c' ≤ t) l.
Proof.
  intros Hle. rewrite list_filter_filter. apply list_filter_iff. intros t. lia.
Qed.

Lemma filter_none {A} (P : A → Prop) `{!∀ x, Decision (P x)} (l : list A) :
  Forall (λ x, ¬ P x) l → filter P l = [].
Proof.
  induction 1 as [|x l Hx _ IH]; [done|]. by rewrite filter_cons_False.
Qed.

Lemma filter_cutoff_window (now W : Z) (l : list Z) :
  filter (λ t, now - W ≤ t) l = filter (λ ts, now - ts ≤ W) l.
Proof. apply list_filter_iff. intros t. lia. Qed.

Section SimpleWindow.
Variable env : Env.
Variable CONFIG : Simple.Config.

Local Abbreviation W := (timedelta_hours (Simple.alert_window_hours CONFIG)).

Lemma exec_record_failures_cons name calls (w : World InfluxServer) :
  exec (record_failures env CONFIG (name :: calls)) w =
  exec (record_failures env CONFIG calls)
       (exec (Simple.record_failure env CONFIG name) w).
Proof.
  unfold exec, record_failures. cbn [for_each]. rewrite run_bind.
  by destruct (record_failure_run env CONFIG name w) as (w' & -> & _).
Qed.

Lemma window_inv_init (w : World InfluxServer) :
  service_failures w = ∅ → window_inv env W w (λ _, []).
Proof.
  intros Hempty name. split; [|constructor].
  exists (clock env (ticks w) - W). split; [lia|].
  unfold failures_of. by rewrite Hempty, lookup_empty.
Qed.

Lemma window_inv_step name (w : World InfluxServer) hist :
  clock_monotone env → 0 ≤ W → window_inv env W w hist →
  window_inv env W (exec (Simple.record_failure env CONFIG name) w)
    (λ n, hist n ++ if decide (name = n) then [clock env (ticks w)] else []).
Proof.
  intros Hmono HW Hinv n.
  destruct (record_failure_run env CONFIG name w)
    as (w' & Hrun & Hsf & _ & Hticks & _).
  unfold exec. rewrite Hrun. cbn [snd].
  destruct (Hinv n) as [(c & Hc & Hwin) Hhist].
  assert (clock env (ticks w) ≤ clock env (ticks w')) as Hlater
    by (apply Hmono; lia).
  split.
  - unfold failures_of. rewrite Hsf. destruct (decide (name = n)) as [->|Hne].
    + rewrite lookup_insert_eq. cbn [default from_option id].
      exists (clock env (ticks w) - W). split; [lia|].
      unfold failures_of in Hwin. unfold failures_of. rewrite Hwin.
      rewrite !filter_app, filter_cutoff_later by lia. done.
    + rewrite lookup_insert_ne by done. exists c. split; [lia|].
      by rewrite app_nil_r.
  - apply Forall_app. split.
    + eapply Forall_impl; [exact Hhist|]. intros t (i & Hi & ->).
      exists i. split; [lia|done].
    + destruct (decide (name = n)); constructor; [|constructor].
      exists (ticks w). split; [lia|done].
Qed.

Lemma window_inv_calls calls : ∀ (w : World InfluxServer) hist,
  clock_monotone env → 0 ≤ W → window_inv env W w hist →
  window_inv env W (exec (record_failures env CONFIG calls) w)
    (λ n, hist n ++ appended env CONFIG n calls w).
Proof.
  induction calls as [|name calls IH]; intros w hist Hmono HW Hinv.
  - unfold exec, record_failures. cbn. intros n. rewrite app_nil_r. apply Hinv.
  - rewrite exec_record_failures_cons.
    pose proof (IH _ _ Hmono HW (window_inv_step name w hist Hmono HW Hinv))
      as Hnext.
    intros n. specialize (Hnext n). cbv beta in Hnext. cbn [appended].
    rewrite <- app_assoc in Hnext. exact Hnext.
Qed.

(** The window after one more failure, in terms of the whole history. *)
Lemma window_after_failure name (w : World InfluxServer) hist :
  clock_monotone env → 0 ≤ W → window_inv env W w hist →
  let now := clock env (ticks w) in
  failures_of name (exec (Simple.record_failure env CONFIG name) w)
  = filter (λ ts, now - ts ≤ W) (hist name) ++ [now].
Proof.
  intros Hmono HW Hinv now.
  destruct (record_failure_run env CONFIG name w) as (w' & Hrun & Hsf & _).
  unfold exec. rewrite Hrun. cbn [snd].
  destruct (Hinv name) as [(c & Hc & Hwin) _].
  unfold failures_of in *. rewrite Hsf, lookup_insert_eq.
  cbn [default from_option id]. rewrite Hwin. fold now.
  rewrite filter_app, filter_cutoff_later by lia.
  rewrite filter_cutoff_window. f_equal.
  rewrite filter_cons_True by lia. done.
Qed.
End SimpleWindow.

(** ** The solid version, call by call *)

Section SolidSenders.
Context {X : Type}.
Variable env : Env.

Lemma email_send_notification_silent name failures config :
  silent (X:=X) (Solid.EmailNotificationSender.send_notification env name
                   failures config).
Proof.
  intros w.
  unfold Solid.EmailNotificationSender.send_notification, try_except,
    smtp_send, Solid.config_item.
  repeat (run_code;
          try match goal with
              | |- context [smtp ?e ?n ?c] => destruct (smtp e n c) eqn:?
              | |- context [if ?b then _ else _] => destruct b eqn:?
              | |- context [match ?m !! ?k with _ => _ end] =>
                  destruct (m !! k) eqn:?
              end);
    do 2 eexists; (split; [reflexivity|]); unfold quiet_step, alerts; cbn;
    rewrite ?List.filter_app, ?app_nil_r; cbn; repeat split; auto.
Qed.

Lemma webhook_send_notification_silent kind name failures config :
  silent (X:=X) (Solid.webhook_send_notification env kind name failures config).
Proof.
  intros w.
  unfold Solid.webhook_send_notification, try_except, http_post,
    Solid.config_item.
  repeat (run_code;
          try match goal with
              | |- context [requests_post ?e ?n ?c] =>
                  destruct (requests_post e n c) eqn:?
              | |- context [if ?b then _ else _] => destruct b eqn:?
              | |- context [match ?m !! ?k with _ => _ end] =>
                  destruct (m !! k) eqn:?
              end);
    do 2 eexists; (split; [reflexivity|]); unfold quiet_step, alerts; cbn;
    rewrite ?List.filter_app, ?app_nil_r; cbn; repeat split; auto.
Qed.
End SolidSenders.

Section SolidCalls.
Import Solid.
Context {R : Type} `{!DatabaseRepository R}.
Variable env : Env.
Variable self : ServiceDoctor.t.

Lemma send_alerts_run name failures (w : World (list R)) :
  ∃ w', ServiceDoctor.send_alerts env self name failures w = (Returned tt, w')
        ∧ service_failures w' = service_failures w
        ∧ alerts w' = alerts w ++ [alert_record name (length failures)]
        ∧ ticks w' = ticks w ∧ ext w' = ext w
        ∧ spawned w' = spawned w ∧ jobs w' = jobs w.
Proof.
  unfold ServiceDoctor.send_alerts. rewrite run_bind.
  unfold logging at 1, modify. cbn beta iota.
  fold (alert_record name (length failures)).
  set (w0 := set_log _ w).
  match goal with
  | |- context [for_each ?xs ?body w0] =>
      assert (silent (for_each xs body)) as Hrest
  end.
  { apply silent_for_each. intros notif_config. apply silent_try_except.
    unfold NotificationSenderFactory.create_sender.
    apply silent_ret_bind.
    apply silent_bind; [|intros _; apply silent_ret].
    destruct (notification_type notif_config).
    - apply email_send_notification_silent.
    - apply webhook_send_notification_silent.
    - apply webhook_send_notification_silent. }
  destruct (Hrest w0) as ([] & w' & E & (Hf & Ha & Hs & Hj & _) & Ht & Hx).
  exists w'. split; [exact E|]. subst w0.
  rewrite Hf, Ha, Ht, Hx, Hs, Hj, alerts_log_app. cbn [List.filter].
  rewrite is_alert_alert_record. by repeat split.
Qed.
End SolidCalls.

(** ** The repositories the factory builds *)

Lemma Repository_save_event_quiet event (db : Solid.Repository) :
  Forall quiet (Solid.save_event event db).2
  ∧ ∃ b, (Solid.save_event event db).1.1 = Ok b.
Proof.
  destruct db as [r|r|r]; cbn.
  - unfold Solid.InfluxDBRepository.save_event, influx_write.
    destruct (influx_up _); cbn; split; eauto; by repeat constructor.
  - unfold Solid.RedisRepository.save_event.
    destruct (Solid.RedisRepository.up r); cbn; split; eauto;
      by repeat constructor.
  - unfold Solid.MongoDBRepository.save_event.
    destruct (Solid.MongoDBRepository.up r); cbn; split; eauto;
      by repeat constructor.
Qed.

Lemma Repository_save_log_quiet event (db : Solid.Repository) :
  Forall quiet (save_log event db).
Proof.
  destruct (Repository_save_event_quiet event db) as [Hq [b Hb]].
  unfold save_log. rewrite Hb, app_nil_r. done.
Qed.

Lemma Repository_get_failures_quiet name since (db : Solid.Repository) :
  Forall quiet (Solid.get_failures name since db).2.
Proof.
  destruct db as [r|r|r]; cbn.
  - constructor.
  - unfold Solid.RedisRepository.get_failures.
    destruct (Solid.RedisRepository.up r); cbn; [|by repeat constructor].
    destruct (mapM _ _); cbn; by repeat constructor.
  - unfold Solid.MongoDBRepository.get_failures.
    destruct (Solid.MongoDBRepository.up r); cbn; by repeat constructor.
Qed.

(** A query leaves a repository as it is. *)
Lemma Repository_asked name since (db : Solid.Repository) :
  asked name since db = db.
Proof.
  unfold asked. destruct db as [r|r|r]; cbn.
  - done.
  - unfold Solid.RedisRepository.get_failures.
    destruct (Solid.RedisRepository.up r); cbn; [|done].
    by destruct (mapM _ _).
  - unfold Solid.MongoDBRepository.get_failures.
    by destruct (Solid.MongoDBRepository.up r).
Qed.

(** ** The event store of MongoDB *)

Lemma value_inj (a b : Solid.EventType) : Solid.value a = Solid.value b → a = b.
Proof. by destruct a, b. Qed.

Lemma bson_datetime_le a b :
  a ≤ b →
  Solid.MongoDBRepository.bson_datetime a ≤ Solid.MongoDBRepository.bson_datetime b.
Proof.
  intros Hab. unfold Solid.MongoDBRepository.bson_datetime.
  pose proof (Z.div_le_mono a b 1000 ltac:(lia) Hab). lia.
Qed.

Lemma bson_datetime_bounds a :
  Solid.MongoDBRepository.bson_datetime a ≤ a
  < Solid.MongoDBRepository.bson_datetime a + 1000.
Proof.
  unfold Solid.MongoDBRepository.bson_datetime.
  pose proof (Z.mod_pos_bound a 1000 ltac:(lia)).
  pose proof (Z.div_mod a 1000 ltac:(lia)). lia.
Qed.

Lemma bson_datetime_max a b :
  Solid.MongoDBRepository.bson_datetime (Z.max a b)
  = Z.max (Solid.MongoDBRepository.bson_datetime a)
          (Solid.MongoDBRepository.bson_datetime b).
Proof.
  destruct (Z.le_ge_cases a b) as [H|H]; pose proof (bson_datetime_le _ _ H).
  - by rewrite !Z.max_r.
  - by rewrite !Z.max_l.
Qed.

Lemma mongo_save_then_query (event : Solid.ServiceEvent) (name : string)
    (since : datetime) (r : Solid.MongoDBRepository.t) :
  answer name since (saved event (Solid.Mongo r))
  = answer name since (Solid.Mongo r)
    ++ (if Solid.MongoDBRepository.up r
           && bool_decide (Solid.service_name event = name
                           ∧ Solid.event_type event = Solid.FAILURE
                           ∧ Solid.MongoDBRepository.bson_datetime since
                             ≤ Solid.MongoDBRepository.bson_datetime
                                 (Solid.timestamp event))
        then [Solid.MongoDBRepository.bson_datetime (Solid.timestamp event)]
        else []).
Proof.
  unfold answer, saved. cbn.
  unfold Solid.MongoDBRepository.save_event, Solid.MongoDBRepository.get_failures.
  destruct (Solid.MongoDBRepository.up r) eqn:Hup; cbn; rewrite ?Hup; cbn; [|done].
  rewrite filter_app, fmap_app. f_equal.
  case_bool_decide as Hd.
  - rewrite filter_cons_True; [done|]. cbn.
    destruct Hd as (? & Ht & ?). by rewrite Ht.
  - rewrite filter_cons_False; [done|]. cbn.
    intros (? & Ht & ?). destruct Hd.
    split; [done|]. split; [|done]. by apply value_inj.
Qed.

Lemma mongo_cleanup_then_query (cutoff : datetime) (name : string)
    (since : datetime) (r : Solid.MongoDBRepository.t) :
  answer name since (cleaned cutoff (Solid.Mongo r))
  = answer name (Z.max since cutoff) (Solid.Mongo r).
Proof.
  unfold answer, cleaned. cbn.
  unfold Solid.MongoDBRepository.cleanup_old_records,
    Solid.MongoDBRepository.get_failures.
  destruct (Solid.MongoDBRepository.up r) eqn:Hup; cbn; rewrite ?Hup; cbn; [|done].
  f_equal. rewrite list_filter_filter. apply list_filter_iff.
  intros doc. rewrite bson_datetime_max. split.
  - intros ((? & ? & ?) & ?). repeat split; [done..|lia].
  - intros (? & ? & ?). repeat split; [done..|lia|lia].
Qed.

(** What a reachable MongoDB answers: stored instants, in whole
    milliseconds, none of a millisecond before that of [since]. *)
Lemma mongo_answer_bound (name : string) (since : datetime)
    (r : Solid.MongoDBRepository.t) (ts : datetime) :
  ts ∈ answer name since (Solid.Mongo r) →
  Solid.MongoDBRepository.bson_datetime since ≤ ts.
Proof.
  unfold answer. cbn. unfold Solid.MongoDBRepository.get_failures.
  destruct (Solid.MongoDBRepository.up r); cbn; [|by intros ?%elem_of_nil].
  intros (doc & -> & Hdoc)%list_elem_of_fmap.
  by apply list_elem_of_filter in Hdoc as [(_ & _ & ?) _].
Qed.

Section SolidRecordFailure.
Import Solid.
Variable env : Env.
Variable self : ServiceDoctor.t.

(** What [record_failure] does, with the repositories of the factory:
    [now] is read, the event is saved, [now] is appended, and the window
    is evaluated at the next reading of the clock. *)
Lemma solid_record_failure_run name (w : World (list Repository)) :
  let now := clock env (ticks w) in
  let cutoff := clock env (S (ticks w)) - solid_window self in
  let dbs := saved (failure_event name now) <$> ext w in
  let found := first_answer (answer name cutoff <$> dbs) in
  let memory := filter (λ t, cutoff ≤ t) (failures_of name w ++ [now]) in
  let window := default memory found in
  ∃ w', ServiceDoctor.record_failure env self name w = (Returned tt, w')
        ∧ failures_of name w' =
            match found with
            | Some _ => failures_of name w ++ [now]
            | None => memory
            end
        ∧ (∀ other, other ≠ name → failures_of other w' = failures_of other w)
        ∧ alerts w' =
            alerts w ++
            (if solid_threshold self <=? Z.of_nat (length window)
             then [alert_record name (length window)] else [])
        ∧ ext w' = dbs
        ∧ ticks w' = S (S (ticks w))
        ∧ spawned w' = spawned w ∧ jobs w' = jobs w.
Proof.
  intros now cutoff dbs found memory window.
  unfold ServiceDoctor.record_failure.
  rewrite run_bind. unfold datetime_now. cbn beta iota.
  fold now. fold (failure_event name now).
  rewrite run_bind, save_event_run. cbn beta iota.
  rewrite run_bind. unfold modify at 1. cbn beta iota.
  rewrite run_bind.
  set (w1 := set_failures name _ _).
  assert (failures_of name w1 = failures_of name w ++ [now]) as Hmem.
  { unfold w1, failures_of, set_failures. cbn. by rewrite lookup_insert_eq. }
  assert (alerts w1 = alerts w) as Hal1.
  { unfold w1, alerts. cbn. rewrite List.filter_app.
    rewrite (filter_is_alert_quiet (flat_map _ _)), app_nil_r; [done|].
    apply Forall_flat_map, Forall_forall. intros db _.
    apply Repository_save_log_quiet. }
  destruct (get_recent_failures_run env self name w1)
    as (w2 & E2 & Ht2 & Hs2 & Hn2 & Hj2 & Hf2 & Hx2 & Hl2 & Ha2).
  change (cutoff_at env self w1) with cutoff in *.
  change (ext w1) with dbs in *. fold found in E2, Hf2.
  rewrite Hmem in E2, Hf2. fold memory in E2, Hf2. fold window in E2.
  rewrite E2. cbn beta iota. fold (solid_threshold self).
  assert (ext w2 = dbs) as Hext.
  { apply list_eq_same_length with (length dbs); [done..|].
    intros i db1 db2 _ H2 H1. destruct (Hx2 i db2 H1) as [H|H].
    - congruence.
    - rewrite Repository_asked in H. congruence. }
  assert (failures_of name w2 =
          match found with Some _ => failures_of name w ++ [now] | None => memory end
          ∧ ∀ other, other ≠ name → failures_of other w2 = failures_of other w)
    as [Hwin Hother].
  { unfold failures_of in *. rewrite Hf2. destruct found.
    - split; [done|]. intros other Hne. unfold w1, set_failures. cbn.
      by rewrite lookup_insert_ne.
    - rewrite lookup_insert_eq. split; [done|]. intros other Hne.
      rewrite lookup_insert_ne by done. unfold w1, set_failures. cbn.
      by rewrite lookup_insert_ne. }
  specialize (Ha2 (λ db, Repository_get_failures_quiet name cutoff db)).
  destruct (solid_threshold self <=? Z.of_nat (length window)); cbn [when].
  - destruct (send_alerts_run env self name window w2)
      as (w3 & E3 & Hf3 & Ha3 & Ht3 & Hx3 & Hs3 & Hj3).
    exists w3. split; [exact E3|].
    unfold failures_of in *. rewrite Hf3, Ha3, Ht3, Hx3, Hs3, Hj3.
    rewrite Ha2, Hal1, Ht2, Hs2, Hj2. by repeat split.
  - exists w2. split; [reflexivity|].
    rewrite Ha2, Hal1, Ht2, Hs2, Hj2, app_nil_r. by repeat split.
Qed.
End SolidRecordFailure.

(** ** The scan of one service *)

Lemma is_alert_service_down service :
  is_alert (Log WARNING ("Service " +:+ service +:+ " is down, attempting to restart"))
  = false.
Proof. reflexivity. Qed.

Section SimpleScan.
Variable env : Env.
Variable CONFIG : Simple.Config.

(** Down and restarted: the windows are as they were. *)
Lemma simple_scan_restarted service (w : World InfluxServer) :
  is_active env (spawned w) service = false →
  restart_ok env (S (spawned w)) service = true →
  ∃ w', Simple.scan_service env CONFIG service w = (Returned tt, w')
        ∧ service_failures w' = service_failures w
        ∧ alerts w' = alerts w.
Proof.
  intros Hdown Hok. unfold Simple.scan_service.
  rewrite run_bind. unfold logging at 1, modify. cbn beta iota.
  rewrite run_bind, check_service_run. cbn [spawned set_log]. rewrite Hdown.
  cbn beta iota.
  rewrite run_bind. unfold logging at 1, modify. cbn beta iota.
  rewrite run_bind, restart_service_run.
  cbn [spawned set_log set_spawned]. rewrite Hok. cbn beta iota.
  rewrite run_bind. unfold logging at 1, modify. cbn beta iota.
  match goal with |- context [when _ _ ?w0] => set (w1 := w0) end.
  assert (service_failures w1 = service_failures w ∧ alerts w1 = alerts w)
    as [Hf1 Ha1].
  { split; [done|]. unfold w1, alerts. cbn [log set_log set_spawned].
    rewrite !List.filter_app. cbn [List.filter].
    rewrite is_alert_service_down.
    rewrite check_log_no_alert, restart_log_no_alert.
    cbn. by rewrite !app_nil_r. }
  destruct (Simple.influx_enabled (Simple.influxdb CONFIG)); cbn [when].
  - destruct (save_to_influxdb_quiet env CONFIG service "restart" true w1)
      as (w2 & E2 & (Hf2 & Ha2 & _) & _).
    exists w2. rewrite E2. split; [done|]. split; congruence.
  - exists w1. by repeat split.
Qed.
(** Down and not restarted: the failure is recorded; the bucket gains
    points of the [failure] type only. *)
Lemma simple_scan_failed service (w : World InfluxServer) :
  is_active env (spawned w) service = false →
  restart_ok env (S (spawned w)) service = false →
  ∃ w0 w',
    Simple.scan_service env CONFIG service w = (Returned tt, w')
    ∧ Simple.record_failure env CONFIG service w0 = (Returned tt, w')
    ∧ service_failures w0 = service_failures w ∧ ticks w0 = ticks w
    ∧ alerts w0 = alerts w ∧ ext w0 = ext w.
Proof.
  intros Hdown Hko. unfold Simple.scan_service.
  rewrite run_bind. unfold logging at 1, modify. cbn beta iota.
  rewrite run_bind, check_service_run. cbn [spawned set_log]. rewrite Hdown.
  cbn beta iota.
  rewrite run_bind. unfold logging at 1, modify. cbn beta iota.
  rewrite run_bind, restart_service_run.
  cbn [spawned set_log set_spawned]. rewrite Hko. cbn beta iota.
  rewrite run_bind. unfold logging at 1, modify. cbn beta iota.
  match goal with |- context [Simple.record_failure _ _ _ ?w0] => set (w1 := w0) end.
  destruct (record_failure_run env CONFIG service w1) as (w' & E & _).
  exists w1, w'. split; [exact E|]. split; [exact E|].
  repeat split. unfold w1, alerts. cbn [log set_log set_spawned].
  rewrite !List.filter_app. cbn [List.filter].
  rewrite is_alert_service_down, check_log_no_alert, restart_log_no_alert.
  cbn. by rewrite !app_nil_r.
Qed.

(** The points the scan of one service writes, path by path. *)
Lemma simple_scan_points service (w : World InfluxServer) :
  let w' := exec (Simple.scan_service env CONFIG service) w in
  points (ext w')
  = points (ext w)
    ++ (if is_active env (spawned w) service
        then written CONFIG (ext w)
               (simple_point service "check" true (utc_clock env (ticks w)))
        else if restart_ok env (S (spawned w)) service
        then written CONFIG (ext w)
               (simple_point service "restart" true (utc_clock env (ticks w)))
        else written CONFIG (ext w)
               (simple_point service "failure" false
                  (utc_clock env (S (ticks w))))).
Proof.
  cbn zeta. unfold exec, Simple.scan_service.
  rewrite run_bind. unfold logging at 1, modify. cbn beta iota.
  rewrite run_bind, check_service_run. cbn [spawned set_log].
  assert (∀ et ok (w1 : World InfluxServer),
            ticks w1 = ticks w → ext w1 = ext w →
            points (ext (when (Simple.influx_enabled (Simple.influxdb CONFIG))
                           (Simple.save_to_influxdb env CONFIG service et ok) w1).2)
            = points (ext w)
              ++ written CONFIG (ext w)
                   (simple_point service et ok (utc_clock env (ticks w)))) as Hsave.
  { intros et ok w1 Ht Hx.
    destruct (Simple.influx_enabled (Simple.influxdb CONFIG)) eqn:Hon; cbn [when].
    - destruct (save_to_influxdb_exact env CONFIG service et ok w1) as [Hp _].
      unfold exec in Hp. by rewrite Hp, Ht, Hx.
    - cbn. rewrite Hx. unfold written, influx_ready. rewrite Hon. cbn.
      by rewrite app_nil_r. }
  destruct (is_active env (spawned w) service) eqn:Hactive; cbn beta iota.
  { rewrite run_bind. unfold logging at 1, modify. cbn beta iota.
    by apply Hsave. }
  rewrite run_bind. unfold logging at 1, modify. cbn beta iota.
  rewrite run_bind, restart_service_run.
  cbn [spawned set_log set_spawned].
  destruct (restart_ok env (S (spawned w)) service) eqn:Hok; cbn beta iota.
  { rewrite run_bind. unfold logging at 1, modify. cbn beta iota.
    by apply Hsave. }
  rewrite run_bind. unfold logging at 1, modify. cbn beta iota.
  match goal with |- context [Simple.record_failure _ _ _ ?w0] => set (w1 := w0) end.
  destruct (record_failure_points env CONFIG service w1) as (w' & E & Hp & _).
  by rewrite E.
Qed.
End SimpleScan.

Section SolidScan.
Import Solid.
Context {R : Type} `{!DatabaseRepository R}.
Variable env : Env.
Variable self : ServiceDoctor.t.

(** Running: a [Check] event is saved. *)
Lemma solid_scan_running service (w : World (list R)) :
  is_active env (spawned w) service = true →
  ∃ w', ServiceDoctor.scan_service env self service w = (Returned tt, w')
        ∧ ext w' = saved (check_event service (clock env (ticks w))) <$> ext w
        ∧ service_failures w' = service_failures w.
Proof.
  intros Hup. unfold ServiceDoctor.scan_service.
  rewrite run_bind. unfold logging at 1, modify. cbn beta iota.
  rewrite run_bind, check_service_run. cbn [spawned set_log]. rewrite Hup.
  cbn beta iota.
  rewrite run_bind. unfold logging at 1, modify. cbn beta iota.
  rewrite run_bind. unfold datetime_now. cbn beta iota.
  rewrite save_event_run. eexists. split; [reflexivity|]. by split.
Qed.

(** Down and restarted: a successful [Restart] event is saved, and the
    windows are as they were. *)
Lemma solid_scan_restarted service (w : World (list R)) :
  is_active env (spawned w) service = false →
  restart_ok env (S (spawned w)) service = true →
  ∃ w', ServiceDoctor.scan_service env self service w = (Returned tt, w')
        ∧ ext w' = saved (restart_event service true (clock env (ticks w)))
                     <$> ext w
        ∧ service_failures w' = service_failures w.
Proof.
  intros Hdown Hok. unfold ServiceDoctor.scan_service.
  rewrite run_bind. unfold logging at 1, modify. cbn beta iota.
  rewrite run_bind, check_service_run. cbn [spawned set_log]. rewrite Hdown.
  cbn beta iota.
  rewrite run_bind. unfold logging at 1, modify. cbn beta iota.
  rewrite run_bind, restart_service_run.
  cbn [spawned set_log set_spawned]. rewrite Hok. cbn beta iota.
  rewrite run_bind. unfold datetime_now. cbn beta iota.
  rewrite run_bind, save_event_run. cbn beta iota.
  eexists. split; [reflexivity|]. by split.
Qed.

(** Down and not restarted: a failed [Restart] event is saved, then the
    failure is recorded. *)
Lemma solid_scan_failed service (w : World (list R)) :
  is_active env (spawned w) service = false →
  restart_ok env (S (spawned w)) service = false →
  ∃ w0,
    ServiceDoctor.scan_service env self service w
    = ServiceDoctor.record_failure env self service w0
    ∧ ext w0 = saved (restart_event service false (clock env (ticks w)))
                 <$> ext w
    ∧ service_failures w0 = service_failures w
    ∧ ticks w0 = S (ticks w)
    ∧ (Forall (λ db, Forall quiet
                       (save_log (restart_event service false
                                    (clock env (ticks w))) db)) (ext w)
       → alerts w0 = alerts w).
Proof.
  intros Hdown Hko. unfold ServiceDoctor.scan_service.
  rewrite run_bind. unfold logging at 1, modify. cbn beta iota.
  rewrite run_bind, check_service_run. cbn [spawned set_log]. rewrite Hdown.
  cbn beta iota.
  rewrite run_bind. unfold logging at 1, modify. cbn beta iota.
  rewrite run_bind, restart_service_run.
  cbn [spawned set_log set_spawned]. rewrite Hko. cbn beta iota.
  rewrite run_bind. unfold datetime_now. cbn beta iota.
  rewrite run_bind, save_event_run. cbn beta iota.
  rewrite run_bind. unfold logging at 1, modify. cbn beta iota.
  eexists. split; [reflexivity|]. repeat split.
  intros Hquiet. unfold alerts. cbn [log set_log set_spawned set_ticks set_ext].
  rewrite !List.filter_app. cbn [List.filter].
  rewrite is_alert_service_down, check_log_no_alert, restart_log_no_alert.
  rewrite (filter_is_alert_quiet (flat_map _ _)).
  - cbn. by rewrite !app_nil_r.
  - by apply Forall_flat_map.
Qed.
End SolidScan.

(** * The claims about the scan cycle *)

(** C6: the scan of a service that is down and that the restart brings back
    leaves the failure window of every service as it was, in the simple
    version and in the solid version with any databases: a restart that
    succeeds removes no entry and resets no window. *)
Theorem C6_successful_restart_keeps_the_windows (env : Env) (service : string) :
  (∀ (CONFIG : Simple.Config) (w : World InfluxServer),
     is_active env (spawned w) service = false →
     restart_ok env (S (spawned w)) service = true →
     service_failures (exec (Simple.scan_service env CONFIG service) w)
     = service_failures w)
  ∧ (∀ (R : Type) (H : Solid.DatabaseRepository R) (self : Solid.ServiceDoctor.t)
       (w : World (list R)),
       is_active env (spawned w) service = false →
       restart_ok env (S (spawned w)) service = true →
       service_failures (exec (Solid.ServiceDoctor.scan_service env self service) w)
       = service_failures w).
Proof.
  split.
  - intros CONFIG w Hdown Hok.
    destruct (simple_scan_restarted env CONFIG service w Hdown Hok)
      as (w' & E & Hf & _).
    unfold exec. by rewrite E.
  - intros R H self w Hdown Hok.
    destruct (solid_scan_restarted env self service w Hdown Hok)
      as (w' & E & _ & Hf).
    unfold exec. by rewrite E.
Qed.

(** The successful restart between two failures, on a host whose second
    restart succeeds: the window holds the first failure before and after
    the second scan, and both failures after the third. *)
Lemma C6_witness :
  let env := Example.host Example.ten_minutes [3%nat] in
  let CONFIG := Example.simple_config false 1 3 in
  let w1 := exec (Simple.scan_service env CONFIG "svc1") Example.simple_start in
  let w2 := exec (Simple.scan_service env CONFIG "svc1") w1 in
  let w3 := exec (Simple.scan_service env CONFIG "svc1") w2 in
  service_failures w2 = service_failures w1
  ∧ failures_of "svc1" w1 = [0]
  ∧ failures_of "svc1" w3 = [0; 600000000].
Proof.
  intros env CONFIG w1 w2 w3. split; [|by vm_compute].
  apply (proj1 (C6_successful_restart_keeps_the_windows env "svc1") CONFIG w1);
    reflexivity.
Defined.

(** C2 as stated fails in the simple version: with InfluxDB on, the scan of
    a service that is down and that the restart does not bring back records
    one event, of the [failure] type: no [restart] event precedes it. *)
Lemma C2_counterexample :
  let env := Example.host Example.ten_minutes [] in
  let CONFIG := Example.simple_config true 1 3 in
  let w' := exec (Simple.scan_service env CONFIG "svc1") Example.simple_start in
  is_active env 0 "svc1" = false
  ∧ restart_ok env 1 "svc1" = false
  ∧ tag_event_type <$> points (ext w') = ["failure"]
  ∧ ¬ (∃ p, p ∈ points (ext w') ∧ tag_event_type p = "restart").
Proof.
  intros env CONFIG w'. repeat split; try by vm_compute.
  intros (p & Hp & Htag). vm_compute in Hp.
  apply list_elem_of_singleton in Hp. by subst p.
Qed.

(** C2, amended: in the solid version, with the repositories the factory
    builds, the scan of a service that is down and that the restart does not
    bring back asks every database to save a failed [Restart] event and then
    a [Failure] event, and the two other paths save one [Check] event or one
    successful [Restart] event and no [Failure] event.  In the simple
    version the failed path records no [restart] event: when InfluxDB is
    enabled, its parameters are set and the server answers, the scan adds
    exactly one point to the bucket, a [check] point when the service runs,
    a [restart] point when the restart succeeds and a [failure] point when
    it fails; otherwise it adds none. *)
Theorem C2_failure_follows_failed_restart (env : Env) (service : string) :
  (∀ (self : Solid.ServiceDoctor.t) (w : World (list Solid.Repository)),
     let w' := exec (Solid.ServiceDoctor.scan_service env self service) w in
     if is_active env (spawned w) service
     then ext w' = saved (check_event service (clock env (ticks w))) <$> ext w
     else if restart_ok env (S (spawned w)) service
     then ext w' = saved (restart_event service true (clock env (ticks w)))
                     <$> ext w
     else ext w' =
            saved (failure_event service (clock env (S (ticks w)))) <$>
              (saved (restart_event service false (clock env (ticks w)))
                 <$> ext w))
  ∧ (∀ (CONFIG : Simple.Config) (w : World InfluxServer),
       let w' := exec (Simple.scan_service env CONFIG service) w in
       points (ext w')
       = points (ext w)
         ++ (if is_active env (spawned w) service
             then written CONFIG (ext w)
                    (simple_point service "check" true
                       (utc_clock env (ticks w)))
             else if restart_ok env (S (spawned w)) service
             then written CONFIG (ext w)
                    (simple_point service "restart" true
                       (utc_clock env (ticks w)))
             else written CONFIG (ext w)
                    (simple_point service "failure" false
                       (utc_clock env (S (ticks w)))))).
Proof.
  split.
  - intros self w w'. subst w'. unfold exec.
    destruct (is_active env (spawned w) service) eqn:Hactive.
    { destruct (solid_scan_running env self service w Hactive) as (w' & -> & ? & _).
      done. }
    destruct (restart_ok env (S (spawned w)) service) eqn:Hrestart.
    { destruct (solid_scan_restarted env self service w Hactive Hrestart)
        as (w' & -> & ? & _). done. }
    destruct (solid_scan_failed env self service w Hactive Hrestart)
      as (w0 & -> & Hext & _ & Hticks & _).
    destruct (solid_record_failure_run env self service w0)
      as (w' & -> & _ & _ & _ & Hext' & _).
    cbn [snd]. by rewrite Hext', Hext, Hticks.
  - intros CONFIG w. exact (simple_scan_points env CONFIG service w).
Qed.

(** The failed path on a host whose services stay down: the simple version
    adds one [failure] point to an empty bucket, and the solid version
    leaves a failed restart and a failure in its MongoDB collection. *)
Lemma C2_witness :
  let env := Example.host Example.ten_minutes [] in
  points (ext (exec (Simple.scan_service env (Example.simple_config true 1 3)
                       "svc1") Example.simple_start))
  = [simple_point "svc1" "failure" false 600000000]
  ∧ ext (exec (Solid.ServiceDoctor.scan_service env
                 (Example.doctor ["svc1"] None 3) "svc1")
           (Example.solid_start [Example.mongo_repository []]))
    = saved (failure_event "svc1" 600000000) <$>
        (saved (restart_event "svc1" false 0) <$> [Example.mongo_repository []]).
Proof.
  intros env. split.
  - etrans; [apply (proj2 (C2_failure_follows_failed_restart env "svc1")
                      (Example.simple_config true 1 3) Example.simple_start)|].
    by vm_compute.
  - exact (proj1 (C2_failure_follows_failed_restart env "svc1")
             (Example.doctor ["svc1"] None 3)
             (Example.solid_start [Example.mongo_repository []])).
Defined.

(** * The claims about the failure window *)

Lemma clock_increasing_monotone env : clock_increasing env → clock_monotone env.
Proof.
  intros Hinc i j Hij. destruct (decide (i = j)) as [->|]; [lia|].
  assert (clock env i < clock env j) by (apply Hinc; lia). lia.
Qed.

Lemma ticking_monotone step : 0 ≤ step →
  ∀ i j : nat, (i ≤ j)%nat → Example.ticking step i ≤ Example.ticking step j.
Proof. intros Hstep i j Hij. unfold Example.ticking. nia. Qed.

Lemma ticking_increasing step : 0 < step →
  ∀ i j : nat, (i < j)%nat → Example.ticking step i < Example.ticking step j.
Proof. intros Hstep i j Hij. unfold Example.ticking. nia. Qed.

(** C1 as stated fails in the solid version, where the window is pruned
    against a later reading of the clock than the instant that is appended.
    With a window of one hour and no database, a failure is recorded at the
    instant 0 and another exactly one hour later, at [now]; the second
    window is evaluated seven microseconds after [now], so it has lost the
    first entry, which is one window old at [now], and with a threshold of
    two no alert is triggered. *)
Lemma C1_counterexample :
  let env := Example.host_at
               (Example.reading [0; 5; 3600000000; 3600000007]) [] in
  let self := Example.doctor ["svc1"] None 2 in
  let w1 := exec (Solid.ServiceDoctor.record_failure env self "svc1")
                 (Example.solid_start []) in
  let now := clock env (ticks w1) in
  let w2 := exec (Solid.ServiceDoctor.record_failure env self "svc1") w1 in
  failures_of "svc1" w1 = [0]
  ∧ now = 3600000000
  ∧ solid_window self = 3600000000
  ∧ failures_of "svc1" w2 = [now]
  ∧ failures_of "svc1" w2
    ≠ filter (λ ts, now - ts ≤ solid_window self) (failures_of "svc1" w1) ++ [now]
  ∧ alerts w2 = [].
Proof. by vm_compute. Qed.

(** The window and the alert of one call of [record_failure], in the simple
    version, from any state. *)
Lemma simple_failure_window (env : Env) (CONFIG : Simple.Config) (name : string)
    (w : World InfluxServer) :
  let W := timedelta_hours (Simple.alert_window_hours CONFIG) in
  let now := clock env (ticks w) in
  let w' := exec (Simple.record_failure env CONFIG name) w in
  let window := failures_of name w' in
  window = filter (λ ts, now - ts ≤ W) (failures_of name w ++ [now])
  ∧ (∀ ts, ts ∈ window → ¬ now - ts > W)
  ∧ alerts w' =
      alerts w ++
      (if Simple.alert_threshold CONFIG <=? Z.of_nat (length window)
       then [alert_record name (length window)] else []).
Proof.
  intros W now w' window.
  destruct (record_failure_run env CONFIG name w) as (w'' & E & Hsf & Hal & _).
  cbn zeta in Hsf, Hal. fold now W in Hsf, Hal.
  rewrite filter_cutoff_window in Hsf, Hal.
  assert (w' = w'') as Hw' by (unfold w', exec; by rewrite E).
  assert (window = filter (λ ts, now - ts ≤ W) (failures_of name w ++ [now]))
    as Hwindow.
  { unfold window, failures_of at 1. by rewrite Hw', Hsf, lookup_insert_eq. }
  split; [exact Hwindow|]. split.
  - intros ts. rewrite Hwindow, list_elem_of_filter. intros [? _]. lia.
  - rewrite Hwindow, Hw'. exact Hal.
Qed.

(** The same window, in terms of what a sequence of calls has appended. *)
Lemma simple_failure_history (env : Env) (CONFIG : Simple.Config)
    (calls : list string) (name : string) (w0 : World InfluxServer) :
  clock_monotone env →
  let W := timedelta_hours (Simple.alert_window_hours CONFIG) in
  0 ≤ W →
  service_failures w0 = ∅ →
  let w := exec (record_failures env CONFIG calls) w0 in
  let now := clock env (ticks w) in
  failures_of name (exec (Simple.record_failure env CONFIG name) w)
  = filter (λ ts, now - ts ≤ W) (appended env CONFIG name calls w0) ++ [now].
Proof.
  intros Hmono W HW Hempty w now.
  pose proof (window_inv_calls env CONFIG calls w0 (λ _, []) Hmono HW
                (window_inv_init env CONFIG w0 Hempty)) as Hinv.
  cbn beta in Hinv. fold w in Hinv.
  pose proof (window_after_failure env CONFIG name w _ Hmono HW Hinv) as Hwin.
  cbn beta zeta in Hwin. exact Hwin.
Qed.

Lemma first_answer_Some (answers : list (list datetime)) (l : list datetime) :
  first_answer answers = Some l → l ≠ [] ∧ l ∈ answers.
Proof.
  induction answers as [|[|t a] answers IH]; simpl; [done| |].
  - intros [? ?]%IH. split; [done|]. by right.
  - intros [= <-]. split; [done|]. by left.
Qed.

(** The failure list of the alert decision, in the solid version. *)
Lemma solid_failure_window (env : Env) (self : Solid.ServiceDoctor.t)
    (name : string) (w : World (list Solid.Repository)) :
  let W := solid_window self in
  let now := clock env (ticks w) in
  let later := clock env (S (ticks w)) in
  let dbs := saved (failure_event name now) <$> ext w in
  let found := first_answer (answer name (later - W) <$> dbs) in
  let memory := filter (λ ts, later - ts ≤ W) (failures_of name w ++ [now]) in
  let window := default memory found in
  let w' := exec (Solid.ServiceDoctor.record_failure env self name) w in
  alerts w' =
    alerts w ++
    (if solid_threshold self <=? Z.of_nat (length window)
     then [alert_record name (length window)] else [])
  ∧ failures_of name w' =
      match found with
      | Some _ => failures_of name w ++ [now]
      | None => memory
      end
  ∧ ext w' = dbs.
Proof.
  intros W now later dbs found memory window w'.
  destruct (solid_record_failure_run env self name w)
    as (w'' & E & Hwin & _ & Hal & Hext & _).
  assert (w' = w'') as Hw' by (unfold w', exec; by rewrite E).
  fold now later W dbs found in Hwin, Hal.
  rewrite filter_cutoff_window in Hwin, Hal. fold memory in Hwin, Hal.
  rewrite Hw'. by repeat split.
Qed.

(** A reachable MongoDB at the head of the databases supplies the list,
    when the millisecond of the failure is not before that of the cut-off. *)
Lemma mongo_first_answer (name : string) (now since : datetime)
    (r : Solid.MongoDBRepository.t) (rest : list Solid.Repository) :
  Solid.MongoDBRepository.up r = true →
  Solid.MongoDBRepository.bson_datetime since
  ≤ Solid.MongoDBRepository.bson_datetime now →
  first_answer (answer name since <$>
                  (saved (failure_event name now) <$> Solid.Mongo r :: rest))
  = Some (answer name since (Solid.Mongo r)
          ++ [Solid.MongoDBRepository.bson_datetime now]).
Proof.
  intros Hup Hms. rewrite !fmap_cons. cbn [first_answer].
  rewrite mongo_save_then_query, Hup. cbn [andb Solid.timestamp failure_event].
  rewrite bool_decide_true by done.
  by destruct (answer name since (Solid.Mongo r)).
Qed.

(** C1, amended.  In the simple version, from any state, the window after
    [record_failure] holds exactly the entries of the window before the
    call, and the appended [now], that are at most the window duration
    older than [now]; it holds no instant older than [now] by more than
    the window duration, and an alert is triggered exactly when its length
    reaches the threshold.  When the clock never runs backwards and the
    window duration is not negative, this window is, for every sequence of
    failures from an empty state, the instants appended before for the
    service that are at most the window duration older than [now],
    followed by [now].  In the solid version the list of the alert decision
    is the answer of the first database that has one for the failures since
    the cut-off, asked after the failure has been saved (that of the
    database at the head, when it has one), and otherwise the in-memory
    window; the cut-off is taken
    from the next reading [later] of the clock, not from [now], so the
    in-memory window holds the entries of the window before the call, and
    [now], that are at most the window duration older than [later].  An
    alert is triggered exactly when the length of this list reaches the
    threshold.  A reachable MongoDB at the head of the databases supplies
    the list: the failures it held for the service from the millisecond of
    the cut-off on, followed by [now] cut to its millisecond, so that an
    entry is older than [later] by less than the window duration and a
    millisecond. *)
Theorem C1_window_after_failure (env : Env) :
  (∀ (CONFIG : Simple.Config) (name : string) (w : World InfluxServer),
     let W := timedelta_hours (Simple.alert_window_hours CONFIG) in
     let now := clock env (ticks w) in
     let w' := exec (Simple.record_failure env CONFIG name) w in
     let window := failures_of name w' in
     window = filter (λ ts, now - ts ≤ W) (failures_of name w ++ [now])
     ∧ (∀ ts, ts ∈ window → ¬ now - ts > W)
     ∧ alerts w' =
         alerts w ++
         (if Simple.alert_threshold CONFIG <=? Z.of_nat (length window)
          then [alert_record name (length window)] else []))
  ∧ (∀ (CONFIG : Simple.Config) (calls : list string) (name : string)
       (w0 : World InfluxServer),
       clock_monotone env →
       let W := timedelta_hours (Simple.alert_window_hours CONFIG) in
       0 ≤ W →
       service_failures w0 = ∅ →
       let w := exec (record_failures env CONFIG calls) w0 in
       let now := clock env (ticks w) in
       failures_of name (exec (Simple.record_failure env CONFIG name) w)
       = filter (λ ts, now - ts ≤ W) (appended env CONFIG name calls w0)
         ++ [now])
  ∧ (∀ (self : Solid.ServiceDoctor.t) (name : string)
       (w : World (list Solid.Repository)),
       let W := solid_window self in
       let now := clock env (ticks w) in
       let later := clock env (S (ticks w)) in
       let dbs := saved (failure_event name now) <$> ext w in
       let found := first_answer (answer name (later - W) <$> dbs) in
       let memory :=
         filter (λ ts, later - ts ≤ W) (failures_of name w ++ [now]) in
       let window := default memory found in
       let w' := exec (Solid.ServiceDoctor.record_failure env self name) w in
       alerts w' =
         alerts w ++
         (if solid_threshold self <=? Z.of_nat (length window)
          then [alert_record name (length window)] else [])
       ∧ failures_of name w' =
           match found with
           | Some _ => failures_of name w ++ [now]
           | None => memory
           end
       ∧ (∀ l, found = Some l →
               l ≠ [] ∧ ∃ db, db ∈ dbs ∧ l = answer name (later - W) db)
       ∧ (∀ db rest, ext w = db :: rest →
            answer name (later - W) (saved (failure_event name now) db) ≠ [] →
            window = answer name (later - W) (saved (failure_event name now) db))
       ∧ (found = None → now ≤ later →
          ∀ ts, ts ∈ window → ¬ now - ts > W))
  ∧ (∀ (self : Solid.ServiceDoctor.t) (name : string)
       (r : Solid.MongoDBRepository.t) (rest : list Solid.Repository)
       (w : World (list Solid.Repository)),
       let W := solid_window self in
       let now := clock env (ticks w) in
       let later := clock env (S (ticks w)) in
       ext w = Solid.Mongo r :: rest →
       Solid.MongoDBRepository.up r = true →
       Solid.MongoDBRepository.bson_datetime (later - W)
       ≤ Solid.MongoDBRepository.bson_datetime now →
       let window :=
         answer name (later - W) (Solid.Mongo r)
         ++ [Solid.MongoDBRepository.bson_datetime now] in
       let w' := exec (Solid.ServiceDoctor.record_failure env self name) w in
       alerts w' =
         alerts w ++
         (if solid_threshold self <=? Z.of_nat (length window)
          then [alert_record name (length window)] else [])
       ∧ (∀ ts, ts ∈ window → later - ts < W + 1000)).
Proof.
  split; [exact (simple_failure_window env)|].
  split; [intros CONFIG calls name w0 Hmono;
          exact (simple_failure_history env CONFIG calls name w0 Hmono)|].
  split.
  - intros self name w W now later dbs found memory window w'.
    destruct (solid_failure_window env self name w) as (Hal & Hwin & _).
    split; [exact Hal|]. split; [exact Hwin|]. split; [|split].
    + intros l Hl. apply first_answer_Some in Hl as [Hne Hin].
      split; [done|]. apply list_elem_of_fmap in Hin as (db & -> & Hdb). eauto.
    + intros db rest Hext Hne. unfold window, found, dbs. rewrite Hext.
      rewrite !fmap_cons. cbn [first_answer].
      by destruct (answer name (later - W) (saved (failure_event name now) db)).
    + intros Hnone Hle ts. unfold window. rewrite Hnone. cbn [default from_option id].
      unfold memory. rewrite list_elem_of_filter. intros [? _]. lia.
  - intros self name r rest w W now later Hext Hup Hms window w'.
    destruct (solid_failure_window env self name w) as (Hal & _).
    fold W now later w' in Hal. rewrite Hext in Hal.
    rewrite (mongo_first_answer name now (later - W) r rest Hup Hms) in Hal.
    cbn [default from_option id] in Hal. split; [exact Hal|].
    intros ts [Hts| ->%list_elem_of_singleton]%elem_of_app.
    + apply mongo_answer_bound in Hts.
      pose proof (bson_datetime_bounds (later - W)). lia.
    + pose proof (bson_datetime_bounds (later - W)). lia.
Qed.

(** Three failures of one service, ten minutes apart, with a window of one
    hour and a threshold of three.  In the simple version the third window
    holds the three instants and the alert is triggered.  In the solid
    version with a MongoDB that holds the two earlier failures, read by a
    clock that advances by a microsecond, the list of the third failure is
    the answer of the MongoDB: it holds the three instants, in
    milliseconds, and the alert is triggered.  Without a database, the
    in-memory window of a first failure holds nothing that is older than
    the window duration. *)
Lemma C1_witness :
  let env := Example.host Example.ten_minutes [] in
  let CONFIG := Example.simple_config false 1 3 in
  let w := exec (record_failures env CONFIG ["svc1"; "svc1"]) Example.simple_start in
  let w' := exec (Simple.record_failure env CONFIG "svc1") w in
  let env' := Example.host_at (Example.reading [1200000123]) [] in
  let self := Example.doctor ["svc1"] None 3 in
  let r := {| Solid.MongoDBRepository.up := true;
              Solid.MongoDBRepository.service_events :=
                [Example.failure_doc "svc1" 0;
                 Example.failure_doc "svc1" 600000000] |} in
  let w1 := Example.solid_start [Solid.Mongo r] in
  (failures_of "svc1" w' = [0; 600000000; 1200000000]
   ∧ alerts w' = [alert_record "svc1" 3])
  ∧ (alerts (exec (Solid.ServiceDoctor.record_failure env' self "svc1") w1)
     = [alert_record "svc1" 3]
     ∧ ∀ ts, ts ∈ [0; 600000000; 1200000000] →
             1200000124 - ts < 3600000000 + 1000)
  ∧ default
      (filter (λ ts, 1200000124 - ts ≤ 3600000000) ([] ++ [1200000123]))
      (first_answer
         (answer "svc1" (1200000124 - 3600000000) <$>
            (saved (failure_event "svc1" 1200000123) <$> [Solid.Mongo r])))
    = [0; 600000000; 1200000000]
  ∧ ∀ ts, ts ∈ filter (λ ts, 600000000 - ts ≤ 3600000000) ([] ++ [0]) →
          ¬ 0 - ts > 3600000000.
Proof.
  intros env CONFIG w w' env' self r w1.
  assert (clock_monotone env) as Hmono
    by (intros i j; by apply ticking_monotone).
  split; [|split; [|split]].
  - split.
    + etrans; [apply (proj1 (proj2 (C1_window_after_failure env)) CONFIG
                        ["svc1"; "svc1"] "svc1" Example.simple_start Hmono);
               [done | reflexivity]|].
      by vm_compute.
    + etrans; [apply (proj1 (C1_window_after_failure env) CONFIG "svc1" w)|].
      by vm_compute.
  - destruct (proj2 (proj2 (proj2 (C1_window_after_failure env')))
                self "svc1" r [] w1) as [Hal Hbound];
      [reflexivity | reflexivity | by vm_compute |].
    split; [etrans; [exact Hal | by vm_compute]|].
    exact Hbound.
  - destruct (proj1 (proj2 (proj2 (C1_window_after_failure env')))
                self "svc1" w1) as (_ & _ & _ & Hhead & _).
    etrans; [apply (Hhead (Solid.Mongo r) []); [reflexivity | by vm_compute]|].
    by vm_compute.
  - destruct (proj1 (proj2 (proj2 (C1_window_after_failure env)))
                self "svc1" (Example.solid_start [])) as (_ & _ & _ & _ & Hnone).
    apply Hnone; [reflexivity | by vm_compute].
Defined.

(** * The claim about a window of zero duration *)

(** C4 as stated fails in the simple version: with a window of zero hours
    and a threshold of one, the first failure of a service is in its own
    window and triggers an alert. *)
Lemma C4_counterexample :
  let env := Example.host Example.ten_minutes [] in
  let CONFIG := Example.simple_config false 0 1 in
  let w' := exec (Simple.record_failure env CONFIG "svc1") Example.simple_start in
  timedelta_hours (Simple.alert_window_hours CONFIG) = 0
  ∧ 1 ≤ Simple.alert_threshold CONFIG
  ∧ failures_of "svc1" w' = [0]
  ∧ alerts Example.simple_start = []
  ∧ alerts w' = [alert_record "svc1" 1].
Proof. by vm_compute. Qed.

Lemma record_failure_ticks env CONFIG name (w : World InfluxServer) :
  (S (ticks w) ≤ ticks (exec (Simple.record_failure env CONFIG name) w))%nat.
Proof.
  destruct (record_failure_run env CONFIG name w) as (w1 & E & _ & _ & Ht & _).
  unfold exec. by rewrite E.
Qed.

Lemma record_failures_ticks env CONFIG calls : ∀ (w : World InfluxServer),
  (ticks w ≤ ticks (exec (record_failures env CONFIG calls) w))%nat.
Proof.
  induction calls as [|call calls IH]; intros w; [done|].
  rewrite exec_record_failures_cons. etrans; [|apply IH].
  pose proof (record_failure_ticks env CONFIG call w). lia.
Qed.

(** The instants appended by a sequence of failures are earlier readings. *)
Lemma appended_earlier env CONFIG name calls : ∀ (w0 : World InfluxServer),
  Forall (λ t, ∃ i : nat,
            (i < ticks (exec (record_failures env CONFIG calls) w0))%nat
            ∧ t = clock env i)
         (appended env CONFIG name calls w0).
Proof.
  induction calls as [|call calls IH]; intros w0; [constructor|].
  cbn [appended]. rewrite exec_record_failures_cons. apply Forall_app. split.
  - destruct (decide (call = name)); constructor; [|constructor].
    exists (ticks w0). split; [|done].
    pose proof (record_failure_ticks env CONFIG call w0).
    pose proof (record_failures_ticks env CONFIG calls
                  (exec (Simple.record_failure env CONFIG call) w0)).
    lia.
  - apply IH.
Qed.

(** The simple version with a window of zero, from any state. *)
Lemma simple_zero_window (env : Env) (CONFIG : Simple.Config) (name : string)
    (w : World InfluxServer) :
  Simple.alert_window_hours CONFIG = 0 →
  let now := clock env (ticks w) in
  let w' := exec (Simple.record_failure env CONFIG name) w in
  let window := failures_of name w' in
  window = filter (λ ts, now ≤ ts) (failures_of name w) ++ [now]
  ∧ alerts w' =
      alerts w ++
      (if Simple.alert_threshold CONFIG <=? Z.of_nat (length window)
       then [alert_record name (length window)] else [])
  ∧ (Simple.alert_threshold CONFIG ≤ 1 →
     alerts w' = alerts w ++ [alert_record name (length window)]).
Proof.
  intros Hzero now w' window.
  assert (timedelta_hours (Simple.alert_window_hours CONFIG) = 0) as HW
    by (by rewrite Hzero).
  destruct (simple_failure_window env CONFIG name w) as (Hwin & _ & Hal).
  cbn zeta in Hwin, Hal. fold now w' window in Hwin, Hal. rewrite HW in Hwin.
  assert (window = filter (λ ts, now ≤ ts) (failures_of name w) ++ [now])
    as Hwindow.
  { rewrite Hwin, filter_app. f_equal.
    - apply list_filter_iff. intros ts. lia.
    - rewrite filter_cons_True by lia. done. }
  split; [exact Hwindow|]. split; [exact Hal|].
  intros Hthr. rewrite Hal.
  replace (Simple.alert_threshold CONFIG <=? Z.of_nat (length window)) with true;
    [done|].
  symmetry. apply Z.leb_le. rewrite Hwindow, length_app. cbn [length]. lia.
Qed.

(** The simple version with a window of zero and a clock that advances,
    after any sequence of failures. *)
Lemma simple_zero_history (env : Env) (CONFIG : Simple.Config)
    (calls : list string) (name : string) (w0 : World InfluxServer) :
  clock_increasing env →
  Simple.alert_window_hours CONFIG = 0 →
  service_failures w0 = ∅ →
  let w := exec (record_failures env CONFIG calls) w0 in
  let w' := exec (Simple.record_failure env CONFIG name) w in
  failures_of name w' = [clock env (ticks w)]
  ∧ alerts w' =
      alerts w ++
      (if Simple.alert_threshold CONFIG <=? 1
       then [alert_record name 1] else []).
Proof.
  intros Hinc Hzero Hempty w w'.
  pose proof (clock_increasing_monotone env Hinc) as Hmono.
  assert (timedelta_hours (Simple.alert_window_hours CONFIG) = 0) as HW
    by (by rewrite Hzero).
  pose proof (simple_failure_history env CONFIG calls name w0 Hmono) as Hwin.
  cbn zeta in Hwin. specialize (Hwin ltac:(lia) Hempty).
  fold w w' in Hwin. rewrite HW in Hwin.
  destruct (simple_failure_window env CONFIG name w) as (_ & _ & Hal).
  fold w' in Hal.
  assert (failures_of name w' = [clock env (ticks w)]) as Hone.
  { rewrite Hwin.
    rewrite filter_none; [done|].
    eapply Forall_impl; [apply appended_earlier|].
    intros t (i & Hi & ->). fold w in Hi. cbn beta.
    assert (clock env i < clock env (ticks w)) by (by apply Hinc). lia. }
  split; [exact Hone|]. by rewrite Hal, Hone.
Qed.

(** C4, amended: with a window of zero duration.  In the simple version
    the failure that is recorded stays in its own window, which holds the
    entries that are not earlier than [now], followed by [now]: with a
    threshold of at most one every failure triggers an alert.  When every
    reading of the clock is later than the one before, this window holds
    [now] alone for every sequence of failures from an empty state, so an
    alert is triggered exactly when the threshold is at most one.  In the
    solid version the list is evaluated against the next reading [later]
    of the clock.  When no database supplies a list, [later] is after
    [now] and the in-memory window holds no instant later than [now], the
    window is empty and no alert is triggered for a threshold of one or
    more; when [later] is not after [now], the failure is in the window
    and triggers an alert for a threshold of at most one.  A reachable
    MongoDB at the head of the databases, which compares in whole
    milliseconds, returns the failure just saved when [later] is in the
    millisecond of [now], and the alert is triggered for a threshold of at
    most one. *)
Theorem C4_zero_window (env : Env) :
  (∀ (CONFIG : Simple.Config) (name : string) (w : World InfluxServer),
     Simple.alert_window_hours CONFIG = 0 →
     let now := clock env (ticks w) in
     let w' := exec (Simple.record_failure env CONFIG name) w in
     let window := failures_of name w' in
     window = filter (λ ts, now ≤ ts) (failures_of name w) ++ [now]
     ∧ alerts w' =
         alerts w ++
         (if Simple.alert_threshold CONFIG <=? Z.of_nat (length window)
          then [alert_record name (length window)] else [])
     ∧ (Simple.alert_threshold CONFIG ≤ 1 →
        alerts w' = alerts w ++ [alert_record name (length window)]))
  ∧ (∀ (CONFIG : Simple.Config) (calls : list string) (name : string)
       (w0 : World InfluxServer),
       clock_increasing env →
       Simple.alert_window_hours CONFIG = 0 →
       service_failures w0 = ∅ →
       let w := exec (record_failures env CONFIG calls) w0 in
       let w' := exec (Simple.record_failure env CONFIG name) w in
       failures_of name w' = [clock env (ticks w)]
       ∧ alerts w' =
           alerts w ++
           (if Simple.alert_threshold CONFIG <=? 1
            then [alert_record name 1] else []))
  ∧ (∀ (self : Solid.ServiceDoctor.t) (name : string)
       (w : World (list Solid.Repository)),
       Solid.ServiceDoctor.alert_window_hours (Solid.ServiceDoctor.config self)
       = Some 0 →
       let now := clock env (ticks w) in
       let later := clock env (S (ticks w)) in
       let dbs := saved (failure_event name now) <$> ext w in
       let found := first_answer (answer name later <$> dbs) in
       let memory := filter (λ ts, later ≤ ts) (failures_of name w ++ [now]) in
       let window := default memory found in
       let w' := exec (Solid.ServiceDoctor.record_failure env self name) w in
       alerts w' =
         alerts w ++
         (if solid_threshold self <=? Z.of_nat (length window)
          then [alert_record name (length window)] else [])
       ∧ (found = None → now < later →
          Forall (λ t, t ≤ now) (failures_of name w) →
          failures_of name w' = []
          ∧ (1 ≤ solid_threshold self → alerts w' = alerts w))
       ∧ (found = None → later ≤ now →
          now ∈ window
          ∧ (solid_threshold self ≤ 1 →
             alerts w' = alerts w ++ [alert_record name (length window)])))
  ∧ (∀ (self : Solid.ServiceDoctor.t) (name : string)
       (r : Solid.MongoDBRepository.t) (rest : list Solid.Repository)
       (w : World (list Solid.Repository)),
       Solid.ServiceDoctor.alert_window_hours (Solid.ServiceDoctor.config self)
       = Some 0 →
       let now := clock env (ticks w) in
       let later := clock env (S (ticks w)) in
       ext w = Solid.Mongo r :: rest →
       Solid.MongoDBRepository.up r = true →
       Solid.MongoDBRepository.bson_datetime later
       ≤ Solid.MongoDBRepository.bson_datetime now →
       let window :=
         answer name later (Solid.Mongo r)
         ++ [Solid.MongoDBRepository.bson_datetime now] in
       let w' := exec (Solid.ServiceDoctor.record_failure env self name) w in
       alerts w' =
         alerts w ++
         (if solid_threshold self <=? Z.of_nat (length window)
          then [alert_record name (length window)] else [])
       ∧ (solid_threshold self ≤ 1 →
          alerts w' = alerts w ++ [alert_record name (length window)])).
Proof.
  split; [exact (simple_zero_window env)|].
  split; [intros CONFIG calls name w0 Hinc;
          exact (simple_zero_history env CONFIG calls name w0 Hinc)|].
  split.
  - intros self name w Hzero now later dbs found memory window w'.
    assert (solid_window self = 0) as HW
      by (unfold solid_window; by rewrite Hzero).
    destruct (solid_failure_window env self name w) as (Hal & Hwin & _).
    fold now later w' in Hal, Hwin. rewrite HW, Z.sub_0_r in Hal, Hwin.
    fold dbs found in Hal, Hwin.
    assert (filter (λ ts, later - ts ≤ 0) (failures_of name w ++ [now]) = memory)
      as Hmem by (apply list_filter_iff; intros ts; lia).
    rewrite Hmem in Hal, Hwin. fold window in Hal.
    split; [exact Hal|]. split.
    + intros Hnone Hlt Hpast. rewrite Hnone in Hwin.
      assert (memory = []) as Hnil.
      { apply filter_none, Forall_app. split.
        - eapply Forall_impl; [exact Hpast|]. intros t Ht. cbn beta in Ht |- *. lia.
        - repeat constructor. lia. }
      split; [by rewrite Hwin|]. intros Hthr. rewrite Hal.
      unfold window. rewrite Hnone. cbn [default from_option id].
      rewrite Hnil. cbn [length].
      replace (solid_threshold self <=? Z.of_nat 0) with false
        by (symmetry; apply Z.leb_gt; lia).
      by rewrite app_nil_r.
    + intros Hnone Hle.
      assert (now ∈ window) as Hin.
      { unfold window. rewrite Hnone. cbn [default from_option id].
        apply list_elem_of_filter. split; [lia|].
        apply elem_of_app. right. by left. }
      split; [exact Hin|]. intros Hthr. rewrite Hal.
      replace (solid_threshold self <=? Z.of_nat (length window)) with true;
        [done|].
      symmetry. apply Z.leb_le. destruct window; [by apply elem_of_nil in Hin|].
      cbn [length]. lia.
  - intros self name r rest w Hzero now later Hext Hup Hms window w'.
    assert (solid_window self = 0) as HW
      by (unfold solid_window; by rewrite Hzero).
    destruct (solid_failure_window env self name w) as (Hal & _).
    fold now later w' in Hal. rewrite HW, Z.sub_0_r, Hext in Hal.
    rewrite (mongo_first_answer name now later r rest Hup Hms) in Hal.
    cbn [default from_option id] in Hal. fold window in Hal.
    split; [exact Hal|]. intros Hthr. rewrite Hal.
    replace (solid_threshold self <=? Z.of_nat (length window)) with true;
      [done|].
    symmetry. apply Z.leb_le. unfold window. rewrite length_app. cbn [length]. lia.
Qed.

(** A window of zero hours.  In the simple version with a threshold of two,
    the second failure is alone in its window and triggers no alert; with
    a threshold of one the first failure triggers an alert.  In the solid
    version with a threshold of one: without a database, a failure
    triggers no alert on a clock that advances, and triggers an alert on a
    clock that gives the same reading twice; with a MongoDB, on a clock
    whose two readings are in one millisecond, it triggers an alert. *)
Lemma C4_witness :
  let env := Example.host Example.ten_minutes [] in
  let CONFIG := Example.simple_config false 0 2 in
  let w := exec (record_failures env CONFIG ["svc1"]) Example.simple_start in
  let w' := exec (Simple.record_failure env CONFIG "svc1") w in
  let self := Example.doctor ["svc1"] (Some 0) 1 in
  let env' := Example.host_at (Example.reading [5000123; 5000456]) [] in
  let stopped := Example.host_at (Example.reading [7; 7]) [] in
  (failures_of "svc1" w' = [600000000] ∧ alerts w' = [])
  ∧ alerts (exec (Simple.record_failure env (Example.simple_config false 0 1)
                    "svc1") Example.simple_start)
    = [alert_record "svc1" 1]
  ∧ alerts (exec (Solid.ServiceDoctor.record_failure env self "svc1")
              (Example.solid_start [])) = []
  ∧ alerts (exec (Solid.ServiceDoctor.record_failure stopped self "svc1")
              (Example.solid_start [])) = [alert_record "svc1" 1]
  ∧ alerts (exec (Solid.ServiceDoctor.record_failure env' self "svc1")
              (Example.solid_start [Example.mongo_repository []]))
    = [alert_record "svc1" 1].
Proof.
  intros env CONFIG w w' self env' stopped.
  assert (clock_increasing env) as Hinc
    by (intros i j; by apply ticking_increasing).
  split; [|split; [|split; [|split]]].
  - destruct (proj1 (proj2 (C4_zero_window env)) CONFIG ["svc1"] "svc1"
                Example.simple_start Hinc) as (Hwin & Hal); [reflexivity..|].
    split; (etrans; [first [exact Hwin | exact Hal] | by vm_compute]).
  - destruct (proj1 (C4_zero_window env) (Example.simple_config false 0 1)
                "svc1" Example.simple_start) as (_ & _ & Hal); [reflexivity|].
    etrans; [apply Hal; by vm_compute | by vm_compute].
  - destruct (proj1 (proj2 (proj2 (C4_zero_window env))) self "svc1"
                (Example.solid_start [])) as (_ & Hnone & _); [reflexivity|].
    destruct Hnone as [_ Hal]; [reflexivity | by vm_compute | constructor |].
    etrans; [apply Hal; by vm_compute | reflexivity].
  - destruct (proj1 (proj2 (proj2 (C4_zero_window stopped))) self "svc1"
                (Example.solid_start [])) as (_ & _ & Hsame); [reflexivity|].
    destruct Hsame as [_ Hal]; [reflexivity | by vm_compute |].
    etrans; [apply Hal; by vm_compute | by vm_compute].
  - destruct (proj2 (proj2 (proj2 (C4_zero_window env'))) self "svc1"
                {| Solid.MongoDBRepository.up := true;
                   Solid.MongoDBRepository.service_events := [] |} []
                (Example.solid_start [Example.mongo_repository []]))
      as [_ Hal]; [reflexivity | reflexivity | reflexivity | by vm_compute |].
    etrans; [apply Hal; by vm_compute | reflexivity].
Defined.

(** * Witnesses of the claims about the databases and the run loop *)

(** The first database that answers wins: behind an InfluxDB repository and
    a Redis repository that is down, the MongoDB repository supplies the
    list; without an answer, the in-memory window does. *)
Lemma C3_witness :
  let env := Example.host Example.ten_minutes [] in
  let self := Example.doctor ["svc1"] None 3 in
  let mongo := Example.mongo_repository [Example.failure_doc "svc1" 5000] in
  outcome (Solid.ServiceDoctor.get_recent_failures env self "svc1")
    (Example.solid_start
       [Example.influx_repository; Example.redis_repository false; mongo])
  = Returned [5000]
  ∧ outcome (Solid.ServiceDoctor.get_recent_failures env self "svc1")
      (set_service_failures {["svc1" := [-7200000000; -60]]}
         (Example.solid_start
            [Example.influx_repository; Example.redis_repository false]))
    = Returned [-60].
Proof.
  intros env self mongo. split.
  - etrans;
      [apply (proj1 (C3_first_nonempty_backend_wins env self "svc1" _)
                [Example.influx_repository; Example.redis_repository false]
                mongo []);
       [reflexivity | by repeat constructor | by vm_compute]
      | by vm_compute].
  - etrans;
      [apply (proj2 (C3_first_nonempty_backend_wins env self "svc1" _));
       by repeat constructor | by vm_compute].
Defined.

(** A doctor without services returns at once. *)
Lemma C10_witness :
  let env := Example.host Example.ten_minutes [] in
  let self := Example.doctor [] None 3 in
  let w := Example.solid_start [Example.mongo_repository []] in
  Solid.ServiceDoctor.run env self 7 w =
  (Returned None,
   set_log [Log INFO "Linux Service Doctor starting...";
            Log WARNING "No services configured for monitoring."] w).
Proof.
  intros env self w.
  apply (C10_run_without_services_returns env self 7 w). reflexivity.
Defined.

(** * The claim about the guard clauses of the notification senders *)

(** C8 as stated fails in the simple version: [send_email_alert] gives the
    same result, [None], when the password is missing, so that nothing is
    sent, and when the message has been sent. *)
Lemma C8_counterexample :
  let env := Example.host Example.ten_minutes [] in
  let missing := Simple.send_email_alert env (Example.mailing_config PyNone) "svc1" in
  let complete :=
    Simple.send_email_alert env (Example.mailing_config (PyStr "secret")) "svc1" in
  truthy (Simple.email_password (Simple.email (Example.mailing_config PyNone)))
  = false
  ∧ net (exec missing Example.simple_start) = []
  ∧ length (net (exec complete Example.simple_start)) = 1%nat
  ∧ outcome missing Example.simple_start = Returned tt
  ∧ outcome complete Example.simple_start = outcome missing Example.simple_start.
Proof. intros env missing complete. repeat split; by vm_compute. Qed.

(** C8, amended: a sender whose required configuration is missing returns
    without a network call.  In the solid version the email sender without
    a password and the Slack and Teams senders without a webhook URL return
    [False], and only log at the debug level.  In the simple version
    [send_email_alert], [send_slack_alert] and [send_teams_alert] return
    without a network call, after one record at the debug level, when the
    password or the webhook URL is missing; they have no result that tells
    a failure: they return [None] whatever the configuration and whatever
    the network answers. *)
Theorem C8_missing_configuration_sends_nothing {X : Type} (env : Env)
    (service_name : string) (failures : list datetime) :
  (∀ (config : gmap string PyVal) (w : World X),
     truthy (Solid.config_get config "password") = false →
     Solid.EmailNotificationSender.send_notification env service_name failures
       config w
     = (Returned false, set_log (log w ++ [Log DEBUG "Email password missing."]) w))
  ∧ (∀ (config : gmap string PyVal) (w : World X),
       truthy (Solid.config_get config "webhook_url") = false →
       Solid.SlackNotificationSender.send_notification env service_name failures
         config w
       = (Returned false,
          set_log (log w ++ [Log DEBUG "Slack webhook URL missing."]) w))
  ∧ (∀ (config : gmap string PyVal) (w : World X),
       truthy (Solid.config_get config "webhook_url") = false →
       Solid.TeamsNotificationSender.send_notification env service_name failures
         config w
       = (Returned false,
          set_log (log w ++ [Log DEBUG "Teams webhook URL missing."]) w))
  ∧ (∀ (CONFIG : Simple.Config) (w : World InfluxServer),
       truthy (Simple.email_password (Simple.email CONFIG)) = false →
       Simple.send_email_alert env CONFIG service_name w
       = (Returned tt,
          set_log (log w ++ [Log DEBUG
                     "Email notifications not enabled or password missing."]) w))
  ∧ (∀ (CONFIG : Simple.Config) (w : World InfluxServer),
       truthy (Simple.webhook_url (Simple.slack CONFIG)) = false →
       Simple.send_slack_alert env CONFIG service_name w
       = (Returned tt,
          set_log (log w ++ [Log DEBUG
                     "Slack notifications not enabled or webhook URL missing."]) w))
  ∧ (∀ (CONFIG : Simple.Config) (w : World InfluxServer),
       truthy (Simple.webhook_url (Simple.teams CONFIG)) = false →
       Simple.send_teams_alert env CONFIG service_name w
       = (Returned tt,
          set_log (log w ++ [Log DEBUG
                     "Teams notifications not enabled or webhook URL missing."]) w))
  ∧ (∀ (CONFIG : Simple.Config) (w : World InfluxServer),
       outcome (Simple.send_email_alert env CONFIG service_name) w = Returned tt
       ∧ outcome (Simple.send_slack_alert env CONFIG service_name) w = Returned tt
       ∧ outcome (Simple.send_teams_alert env CONFIG service_name) w = Returned tt).
Proof.
  repeat apply conj.
  - intros config w Hmissing.
    unfold Solid.EmailNotificationSender.send_notification. by rewrite Hmissing.
  - intros config w Hmissing.
    unfold Solid.SlackNotificationSender.send_notification,
      Solid.webhook_send_notification. by rewrite Hmissing.
  - intros config w Hmissing.
    unfold Solid.TeamsNotificationSender.send_notification,
      Solid.webhook_send_notification. by rewrite Hmissing.
  - intros CONFIG w Hmissing. unfold Simple.send_email_alert.
    by rewrite Hmissing, orb_true_r.
  - intros CONFIG w Hmissing.
    unfold Simple.send_slack_alert, Simple.send_webhook_alert.
    by rewrite Hmissing, orb_true_r.
  - intros CONFIG w Hmissing.
    unfold Simple.send_teams_alert, Simple.send_webhook_alert.
    by rewrite Hmissing, orb_true_r.
  - intros CONFIG w. unfold outcome. repeat apply conj.
    + destruct (send_email_alert_quiet env CONFIG service_name w)
        as ([] & w' & -> & _). done.
    + destruct (send_webhook_alert_quiet env "Slack" (Simple.slack CONFIG)
                  service_name w) as ([] & w' & E & _).
      unfold Simple.send_slack_alert. by rewrite E.
    + destruct (send_webhook_alert_quiet env "Teams" (Simple.teams CONFIG)
                  service_name w) as ([] & w' & E & _).
      unfold Simple.send_teams_alert. by rewrite E.
Qed.

(** An email channel whose password is absent and a Slack channel whose
    webhook URL is empty send nothing, in the solid version and in the
    simple one. *)
Lemma C8_witness :
  let env := Example.host Example.ten_minutes [] in
  let w := Example.solid_start [] in
  let CONFIG := Example.mailing_config PyNone in
  let w0 := Example.simple_start in
  Solid.EmailNotificationSender.send_notification env "svc1" [0]
    {["sender_email" := PyStr "doctor@example.org"]} w
  = (Returned false, set_log (log w ++ [Log DEBUG "Email password missing."]) w)
  ∧ Solid.SlackNotificationSender.send_notification env "svc1" [0]
      {["webhook_url" := PyStr ""]} w
    = (Returned false,
       set_log (log w ++ [Log DEBUG "Slack webhook URL missing."]) w)
  ∧ Simple.send_email_alert env CONFIG "svc1" w0
    = (Returned tt,
       set_log (log w0 ++ [Log DEBUG
                  "Email notifications not enabled or password missing."]) w0)
  ∧ Simple.send_slack_alert env CONFIG "svc1" w0
    = (Returned tt,
       set_log (log w0 ++ [Log DEBUG
                  "Slack notifications not enabled or webhook URL missing."]) w0).
Proof.
  intros env w CONFIG w0.
  destruct (C8_missing_configuration_sends_nothing (X:=list Solid.Repository)
              env "svc1" [0]) as (Hemail & Hslack & _ & Hsimple & Hsimple' & _).
  split; [apply Hemail; reflexivity|].
  split; [apply Hslack; reflexivity|].
  split; [apply Hsimple; reflexivity|apply Hsimple'; reflexivity].
Defined.

(** ** The sorted sets of the Redis repository *)

Section RedisStore.
Import Solid Solid.RedisRepository.

Lemma zinsert_elem m s zs p : p ∈ zinsert m s zs ↔ p = (m, s) ∨ p ∈ zs.
Proof.
  induction zs as [|[m' s'] zs IH]; cbn.
  - rewrite list_elem_of_singleton. split; [by left|].
    by intros [?|?%elem_of_nil].
  - destruct decide.
    + rewrite !elem_of_cons, IH. tauto.
    + by rewrite elem_of_cons.
Qed.

Lemma zorder_trans p q r : zorder p q → zorder q r → zorder p r.
Proof.
  destruct p as [[] sp], q as [[] sq], r as [[] sr];
    unfold zorder, zbefore, member_before; cbn; lia.
Qed.

(** An ISO text is put at its place among ISO texts. *)
Lemma zinsert_sorted t s zs :
  StronglySorted zorder zs →
  Forall (λ p, ∃ t', p.1 = IsoFormat t' ∧ t' ≠ t) zs →
  StronglySorted zorder (zinsert (IsoFormat t) s zs).
Proof.
  induction zs as [|[m' s'] zs IH]; cbn; intros Hs Hiso.
  - by repeat constructor.
  - apply StronglySorted_inv in Hs as [Hs Hall].
    apply Forall_cons in Hiso as [(t' & Hm' & Hne) Hiso]. cbn in Hm'. subst m'.
    destruct decide as [Hbefore|Hnot].
    + constructor; [by apply IH|]. apply Forall_forall. intros p Hp.
      apply zinsert_elem in Hp as [->|Hp]; [exact Hbefore|].
      by eapply Forall_forall in Hall.
    + assert (zorder (IsoFormat t, s) (IsoFormat t', s')) as Hfirst.
      { unfold zorder, zbefore, member_before in *. cbn in *. lia. }
      constructor; [by constructor|]. constructor; [exact Hfirst|].
      eapply Forall_impl; [exact Hall|]. intros q Hq.
      by eapply zorder_trans.
Qed.

Lemma StronglySorted_filter_zorder (P : Member * Z → Prop)
    `{!∀ p, Decision (P p)} zs :
  StronglySorted zorder zs → StronglySorted zorder (filter P zs).
Proof.
  induction 1 as [|p zs Hs IH Hall]; [constructor|].
  rewrite filter_cons. destruct decide; [|done].
  constructor; [done|]. apply Forall_forall. intros q Hq.
  apply list_elem_of_filter in Hq as [_ Hq]. by eapply Forall_forall in Hall.
Qed.

Lemma fromisoformat_members (zs : list (Member * Z)) :
  Forall (λ p, ∃ t, p.1 = IsoFormat t) zs →
  mapM fromisoformat zs.*1 = Some (member_time <$> zs.*1).
Proof.
  induction 1 as [|[m s] zs [t Hm] _ IH]; [done|].
  cbn in *. subst m. cbn. by rewrite IH.
Qed.

Lemma events_key_ne a b : "service_events:" +:+ a ≠ "service_failures:" +:+ b.
Proof. by intros [=]. Qed.

Lemma failures_key_inj a b :
  "service_failures:" +:+ a = "service_failures:" +:+ b → a = b.
Proof. by intros [=]. Qed.

(** The failure set of a service after [save_event]. *)
Lemma redis_failures_saved event name r :
  redis_failures name (RedisRepository.save_event event r).1.2
  = if up r && bool_decide (service_name event = name ∧ event_type event = FAILURE)
    then zinsert (IsoFormat (timestamp event)) (posix r (timestamp event))
           (filter (λ p, p.1 ≠ IsoFormat (timestamp event)) (redis_failures name r))
    else redis_failures name r.
Proof.
  unfold RedisRepository.save_event, redis_failures.
  destruct (up r); cbn [andb fst snd]; [|done].
  cbn [data].
  destruct (decide (service_name event = name ∧ event_type event = FAILURE))
    as [[<- Ht]|Hd].
  - rewrite !bool_decide_eq_true_2 by done.
    unfold zadd at 1. rewrite lookup_insert_eq. cbn.
    unfold zadd. by rewrite lookup_insert_ne by apply events_key_ne.
  - rewrite (bool_decide_eq_false_2 (_ ∧ _)) by done.
    case_bool_decide as Ht.
    + unfold zadd at 1. rewrite lookup_insert_ne.
      * unfold zadd. by rewrite lookup_insert_ne by apply events_key_ne.
      * intros ?%failures_key_inj. by destruct Hd.
    + unfold zadd. by rewrite lookup_insert_ne by apply events_key_ne.
Qed.

Lemma posix_saved event r :
  posix (RedisRepository.save_event event r).1.2 = posix r.
Proof. unfold RedisRepository.save_event. by destruct (up r). Qed.

Lemma posix_cleaned cutoff r :
  posix (RedisRepository.cleanup_old_records cutoff r).1.2 = posix r.
Proof. unfold RedisRepository.cleanup_old_records. by destruct (up r). Qed.

Lemma up_saved event r : up (RedisRepository.save_event event r).1.2 = up r.
Proof. unfold RedisRepository.save_event. by destruct (up r) eqn:E. Qed.

Lemma up_cleaned cutoff r :
  up (RedisRepository.cleanup_old_records cutoff r).1.2 = up r.
Proof. unfold RedisRepository.cleanup_old_records. by destruct (up r) eqn:E. Qed.

Lemma zrem_lookup k k' max (d : gmap string zset) :
  default [] (zremrangebyscore k' max d !! k)
  = if decide (k = k') then filter (λ p, ¬ p.2 ≤ max) (default [] (d !! k))
    else default [] (d !! k).
Proof.
  unfold zremrangebyscore. destruct decide as [->|Hne].
  - destruct (d !! k') as [zs|] eqn:Hk; [|by rewrite Hk].
    cbn. destruct (filter _ zs) eqn:Hf.
    + by rewrite lookup_delete_eq.
    + by rewrite lookup_insert_eq.
  - destruct (d !! k') as [zs|] eqn:Hk; [|done].
    destruct (filter _ zs).
    + by rewrite lookup_delete_ne.
    + by rewrite lookup_insert_ne.
Qed.

Lemma foldl_zrem_lookup k max ks (d : gmap string zset) :
  default [] (foldl (λ d key, zremrangebyscore key max d) d ks !! k)
  = if decide (k ∈ ks) then filter (λ p, ¬ p.2 ≤ max) (default [] (d !! k))
    else default [] (d !! k).
Proof.
  induction ks as [|k' ks IH] in d |- *; cbn.
  - destruct decide as [H|]; [by apply elem_of_nil in H|done].
  - rewrite IH, zrem_lookup.
    destruct (decide (k = k')) as [->|Hne].
    + destruct (decide (k' ∈ k' :: ks)) as [_|Hn]; [|destruct Hn; by left].
      destruct (decide (k' ∈ ks)); [|done].
      rewrite list_filter_filter. apply list_filter_iff. intros p. tauto.
    + destruct (decide (k ∈ ks)) as [Hin|Hin].
      * destruct (decide (k ∈ k' :: ks)) as [_|Hn]; [done|destruct Hn; by right].
      * destruct (decide (k ∈ k' :: ks)) as [[?|?]%elem_of_cons|_]; done.
Qed.

Lemma redis_failures_cleaned cutoff name r :
  redis_failures name (RedisRepository.cleanup_old_records cutoff r).1.2
  = if up r then filter (λ p, ¬ p.2 ≤ posix r cutoff) (redis_failures name r)
    else redis_failures name r.
Proof.
  unfold RedisRepository.cleanup_old_records, redis_failures.
  destruct (up r); cbn [fst snd data]; [|done].
  rewrite foldl_zrem_lookup.
  destruct decide as [|Hnot]; [done|].
  destruct (data r !! _) as [zs|] eqn:Hk; [|done].
  destruct Hnot. apply elem_of_app. left. unfold keys.
  apply list_elem_of_filter. split; [apply prefix_append|].
  apply list_elem_of_fmap. exists ("service_failures:" +:+ name, zs).
  split; [done|]. by apply elem_of_map_to_list.
Qed.

(** What a well-formed repository answers. *)
Lemma redis_get_failures name since r :
  redis_wf r →
  (RedisRepository.get_failures name since r).1.1
  = Ok (if up r
        then member_time <$>
               (filter (λ p, posix r since ≤ p.2) (redis_failures name r)).*1
        else []).
Proof.
  intros Hwf. unfold RedisRepository.get_failures.
  destruct (up r); [|done]. unfold zrangebyscore.
  fold (redis_failures name r).
  rewrite fromisoformat_members; [done|].
  destruct (Hwf name) as [Hm _].
  apply Forall_forall. intros p [_ Hp]%list_elem_of_filter.
  eapply Forall_forall in Hm as [t Ht]; [|exact Hp]. subst p. by exists t.
Qed.

Lemma redis_answer name since r :
  redis_wf r →
  answer name since (Redis r)
  = if up r
    then member_time <$>
           (filter (λ p, posix r since ≤ p.2) (redis_failures name r)).*1
    else [].
Proof.
  intros Hwf. unfold answer. cbn.
  by rewrite (redis_get_failures name since r Hwf).
Qed.

Lemma redis_wf_saved event r :
  redis_wf r → redis_wf (RedisRepository.save_event event r).1.2.
Proof.
  intros Hwf name. rewrite redis_failures_saved, posix_saved.
  destruct (Hwf name) as [Hm Hs].
  destruct (_ && _); [|done]. split.
  - apply Forall_forall. intros p [->|Hp]%zinsert_elem; [eexists; reflexivity|].
    apply list_elem_of_filter in Hp as [_ Hp]. by eapply Forall_forall in Hm.
  - apply zinsert_sorted; [by apply StronglySorted_filter_zorder|].
    apply Forall_forall. intros p [Hne Hp]%list_elem_of_filter.
    eapply Forall_forall in Hm as [t Ht]; [|exact Hp]. subst p.
    exists t. split; [done|]. intros Heq. apply Hne. cbn. by rewrite Heq.
Qed.

Lemma redis_wf_cleaned cutoff r :
  redis_wf r → redis_wf (RedisRepository.cleanup_old_records cutoff r).1.2.
Proof.
  intros Hwf name. rewrite redis_failures_cleaned, posix_cleaned.
  destruct (Hwf name) as [Hm Hs].
  destruct (up r); [|done]. split.
  - apply Forall_forall. intros p [_ Hp]%list_elem_of_filter.
    by eapply Forall_forall in Hm.
  - by apply StronglySorted_filter_zorder.
Qed.

Lemma redis_wf_asked name since r :
  (RedisRepository.get_failures name since r).1.2 = r.
Proof.
  unfold RedisRepository.get_failures.
  destruct (up r); [|done]. by destruct (mapM _ _).
Qed.

Lemma redis_wf_empty b f : redis_wf {| up := b; data := ∅; posix := f |}.
Proof. intros name. unfold redis_failures. cbn. split; constructor. Qed.

(** When [timestamp()] tells the datetimes apart, no two members share a
    score. *)
Lemma redis_wf_by_score r name :
  redis_wf r → Inj (=) (=) (posix r) →
  StronglySorted by_score (redis_failures name r).
Proof.
  intros Hwf Hinj. destruct (Hwf name) as [Hm Hs].
  induction Hs as [|p zs Hs IH Hall]; [constructor|].
  apply Forall_cons in Hm as [[t ->] Hm].
  constructor; [by apply IH|].
  apply Forall_forall. intros q Hq.
  eapply Forall_forall in Hall; [|exact Hq].
  eapply Forall_forall in Hm as [t' Ht']; [|exact Hq]. subst q.
  unfold zorder, zbefore, member_before, by_score in *. cbn in *.
  destruct Hall as [?|[Heq Hlt]]; [done|].
  apply Hinj in Heq. lia.
Qed.

Lemma times_sorted posix zs :
  Forall (λ p, ∃ t, p = (IsoFormat t, posix t)) zs →
  StronglySorted zorder zs →
  StronglySorted (by_posix posix) (member_time <$> zs.*1).
Proof.
  intros Hm Hs. induction Hs as [|p zs Hs IH Hall]; [constructor|].
  apply Forall_cons in Hm as [[t ->] Hm].
  cbn. constructor; [by apply IH|].
  apply Forall_forall. intros t' (m & -> & (q & -> & Hq)%list_elem_of_fmap)%list_elem_of_fmap.
  eapply Forall_forall in Hall; [|exact Hq].
  eapply Forall_forall in Hm as [t' Ht']; [|exact Hq]. subst q.
  exact Hall.
Qed.

Lemma redis_save_then_query event name since r :
  redis_wf r →
  StronglySorted (by_posix (posix r)) (answer name since (saved event (Redis r)))
  ∧ ∀ t, t ∈ answer name since (saved event (Redis r))
         ↔ t ∈ answer name since (Redis r)
           ∨ (up r = true ∧ service_name event = name
              ∧ event_type event = FAILURE ∧ t = timestamp event
              ∧ posix r since ≤ posix r t).
Proof.
  intros Hwf.
  change (saved event (Redis r)) with (Redis (RedisRepository.save_event event r).1.2).
  pose proof (redis_wf_saved event r Hwf) as Hwf'.
  rewrite !redis_answer by done. rewrite up_saved.
  destruct (up r) eqn:Hup.
  - split.
    + destruct (Hwf' name) as [Hm' Hs']. rewrite posix_saved in *.
      apply times_sorted.
      * apply Forall_forall. intros p [_ Hp]%list_elem_of_filter.
        by eapply Forall_forall in Hm'.
      * by apply StronglySorted_filter_zorder.
    + intros t. rewrite redis_failures_saved, Hup, posix_saved. cbn [andb].
      destruct (Hwf name) as [Hm _].
      assert (∀ zs : list (Member * Z),
                t ∈ member_time <$> (filter (λ p, posix r since ≤ p.2) zs).*1
                ↔ ∃ p, p ∈ zs ∧ posix r since ≤ p.2 ∧ member_time p.1 = t)
        as Hin.
      { intros zs. rewrite list_elem_of_fmap. split.
        - intros (m & -> & (p & -> & [? ?]%list_elem_of_filter)%list_elem_of_fmap).
          eauto.
        - intros (p & Hp & Hs & <-). exists p.1. split; [done|].
          apply list_elem_of_fmap. exists p. split; [done|].
          by apply list_elem_of_filter. }
      rewrite !Hin. case_bool_decide as Hd.
      * split.
        -- intros (p & [->|Hp]%zinsert_elem & Hsince & <-).
           ++ right. by destruct Hd.
           ++ left. exists p. split; [|done].
              by apply list_elem_of_filter in Hp as [_ Hp].
        -- intros [(p & Hp & Hsince & <-)|(_ & _ & _ & -> & Hsince)].
           ++ eapply Forall_forall in Hm as Hmp; [|exact Hp].
              destruct Hmp as [t' ->]. cbn in *.
              destruct (decide (t' = timestamp event)) as [->|Hne].
              ** eexists (_, _). split; [apply zinsert_elem; by left|]. done.
              ** exists (IsoFormat t', posix r t'). split; [|done].
                 apply zinsert_elem. right. apply list_elem_of_filter.
                 split; [|done]. cbn. by intros [=].
           ++ eexists (_, _). split; [apply zinsert_elem; by left|]. done.
      * split; [by left|]. intros [?|(_ & ? & ? & _)]; [done|]. by destruct Hd.
  - split; [constructor|]. intros t. split; [by left|].
    by intros [?|(? & _)].
Qed.

Lemma filter_times posix since cutoff (zs : list (Member * Z)) :
  Forall (λ p, ∃ t, p = (IsoFormat t, posix t)) zs →
  member_time <$>
    (filter (λ p, since ≤ p.2) (filter (λ p, ¬ p.2 ≤ cutoff) zs)).*1
  = filter (λ t, cutoff < posix t)
      (member_time <$> (filter (λ p, since ≤ p.2) zs).*1).
Proof.
  induction 1 as [|p zs [t ->] _ IH]; [done|].
  destruct (decide (posix t ≤ cutoff)), (decide (since ≤ posix t));
    repeat first [ rewrite filter_cons_True by (cbn; lia)
                 | rewrite filter_cons_False by (cbn; lia)
                 | rewrite fmap_cons ];
    cbn [fst member_time];
    repeat first [ rewrite filter_cons_True by (cbn; lia)
                 | rewrite filter_cons_False by (cbn; lia) ];
    by rewrite IH.
Qed.

Lemma redis_cleanup_then_query cutoff name since r :
  redis_wf r →
  answer name since (cleaned cutoff (Redis r))
  = filter (λ t, posix r cutoff < posix r t) (answer name since (Redis r)).
Proof.
  intros Hwf.
  change (cleaned cutoff (Redis r))
    with (Redis (RedisRepository.cleanup_old_records cutoff r).1.2).
  pose proof (redis_wf_cleaned cutoff r Hwf) as Hwf'.
  rewrite !redis_answer by done. rewrite up_cleaned, posix_cleaned.
  rewrite redis_failures_cleaned.
  destruct (up r); [|done]. apply filter_times. by destruct (Hwf name).
Qed.
End RedisStore.

(** * Retention *)

(** What [MongoDBRepository.cleanup_old_records] keeps: the documents that
    are not strictly older than the cutoff, as BSON keeps it. *)
Lemma mongo_cleanup_keeps cutoff (r : Solid.MongoDBRepository.t) :
  Solid.MongoDBRepository.up r = true →
  Solid.MongoDBRepository.service_events
    (Solid.MongoDBRepository.cleanup_old_records cutoff r).1.2
  = filter (λ doc, Solid.MongoDBRepository.bson_datetime cutoff
                   ≤ Solid.MongoDBRepository.doc_timestamp doc)
           (Solid.MongoDBRepository.service_events r).
Proof.
  intros Hup. unfold Solid.MongoDBRepository.cleanup_old_records.
  rewrite Hup. cbn. apply list_filter_iff. intros doc. lia.
Qed.

(** What [zremrangebyscore] keeps in the sorted set it is called on: the
    members whose score is strictly above the bound. *)
Lemma zremrangebyscore_keeps key max (d : gmap string Solid.RedisRepository.zset)
    (p : Solid.RedisRepository.Member * Z) :
  p ∈ default [] (Solid.RedisRepository.zremrangebyscore key max d !! key)
  ↔ p ∈ default [] (d !! key) ∧ max < p.2.
Proof.
  unfold Solid.RedisRepository.zremrangebyscore.
  destruct (d !! key) as [zs|] eqn:Hkey.
  - destruct (filter _ zs) as [|x l] eqn:Hfilter.
    + rewrite lookup_delete_eq. cbn. split; [by intros ?%elem_of_nil|].
      intros [Hin Hlt].
      assert (p ∈ filter (λ q : Solid.RedisRepository.Member * Z, ¬ q.2 ≤ max) zs)
        as Hp by (apply list_elem_of_filter; split; [lia|done]).
      rewrite Hfilter in Hp. by apply elem_of_nil in Hp.
    + rewrite lookup_insert_eq. cbn. rewrite <- Hfilter, list_elem_of_filter.
      split; intros [? ?]; split; auto; lia.
  - rewrite Hkey. cbn. split; [by intros ?%elem_of_nil|].
    by intros [?%elem_of_nil _].
Qed.

(** The failure saved at [T] and the cleanup at [T], in Redis: whatever the
    time zone, the score of the event is the bound of the removal. *)
Lemma redis_cleanup_at_cutoff (posix : datetime → Z) (T : datetime) :
  let event := failure_event "svc1" T in
  let redis :=
    (Solid.RedisRepository.save_event event
       {| Solid.RedisRepository.up := true;
          Solid.RedisRepository.data := ∅;
          Solid.RedisRepository.posix := posix |}).1.2 in
  (Solid.RedisRepository.get_failures "svc1" T redis).1.1 = Ok [T]
  ∧ (Solid.RedisRepository.get_failures "svc1" T
       (Solid.RedisRepository.cleanup_old_records T redis).1.2).1.1 = Ok [].
Proof.
  intros event redis.
  set (r0 := {| Solid.RedisRepository.up := true;
                Solid.RedisRepository.data := ∅;
                Solid.RedisRepository.posix := posix |}) in *.
  assert (redis_wf redis) as Hwf by apply redis_wf_saved, redis_wf_empty.
  assert (redis_failures "svc1" redis
          = [(Solid.RedisRepository.IsoFormat T, posix T)]) as Hset.
  { unfold redis. rewrite redis_failures_saved. cbn [andb r0 Solid.RedisRepository.up].
    rewrite bool_decide_eq_true_2 by done. done. }
  assert (Solid.RedisRepository.up redis = true) as Hup by done.
  assert (Solid.RedisRepository.posix redis = posix) as Hposix by done.
  split.
  - rewrite (redis_get_failures "svc1" T redis Hwf), Hup, Hset, Hposix.
    cbn. destruct decide as [|Hn]; [done|]. destruct Hn. cbn. lia.
  - rewrite (redis_get_failures "svc1" T _ (redis_wf_cleaned T redis Hwf)).
    rewrite up_cleaned, posix_cleaned, redis_failures_cleaned, Hup, Hset, Hposix.
    cbn. destruct decide as [Hn|]; [|done]. destruct Hn. cbn. lia.
Qed.

(** C7: in the MongoDB repository the cleanup deletes exactly the events
    strictly older than the cutoff, datetimes being kept in whole
    milliseconds; in the Redis repository [zremrangebyscore] keeps the
    members whose score is strictly above the cutoff only, so the cleanup
    also deletes the events whose timestamp equals the cutoff. A failure of
    [svc1] is saved at the instant [T] and the cleanup runs with the cutoff
    [T]: MongoDB still returns the failure; Redis, whatever the time zone of
    the process, no longer does. *)
Theorem C7_redis_cleanup_deletes_event_at_cutoff :
  (∀ cutoff (r : Solid.MongoDBRepository.t),
     Solid.MongoDBRepository.up r = true →
     Solid.MongoDBRepository.service_events
       (Solid.MongoDBRepository.cleanup_old_records cutoff r).1.2
     = filter (λ doc, Solid.MongoDBRepository.bson_datetime cutoff
                      ≤ Solid.MongoDBRepository.doc_timestamp doc)
              (Solid.MongoDBRepository.service_events r))
  ∧ (∀ key cutoff (d : gmap string Solid.RedisRepository.zset)
       (p : Solid.RedisRepository.Member * Z),
       p ∈ default [] (Solid.RedisRepository.zremrangebyscore key cutoff d !! key)
       ↔ p ∈ default [] (d !! key) ∧ cutoff < p.2)
  ∧ ∀ posix : datetime → Z,
    let T := 86400000000 in
    let event := failure_event "svc1" T in
    let redis :=
      (Solid.RedisRepository.save_event event
         {| Solid.RedisRepository.up := true;
            Solid.RedisRepository.data := ∅;
            Solid.RedisRepository.posix := posix |}).1.2 in
    let mongo :=
      (Solid.MongoDBRepository.save_event event
         {| Solid.MongoDBRepository.up := true;
            Solid.MongoDBRepository.service_events := [] |}).1.2 in
    (Solid.RedisRepository.get_failures "svc1" T redis).1.1 = Ok [T]
    ∧ (Solid.RedisRepository.get_failures "svc1" T
         (Solid.RedisRepository.cleanup_old_records T redis).1.2).1.1 = Ok []
    ∧ (Solid.MongoDBRepository.get_failures "svc1" T
         (Solid.MongoDBRepository.cleanup_old_records T mongo).1.2).1.1 = Ok [T].
Proof.
  split; [exact mongo_cleanup_keeps|].
  split; [exact zremrangebyscore_keeps|].
  intros posix T event redis mongo.
  destruct (redis_cleanup_at_cutoff posix T) as [H1 H2].
  split; [exact H1|]. split; [exact H2|]. by vm_compute.
Qed.

(** A MongoDB collection with an event thirty hours old and one ten hours
    old, cleaned with a cutoff of twenty-four hours: the second remains. *)
Lemma C7_witness :
  let r := {| Solid.MongoDBRepository.up := true;
              Solid.MongoDBRepository.service_events :=
                [Example.failure_doc "svc1" (-108000000000);
                 Example.failure_doc "svc1" (-36000000000)] |} in
  Solid.MongoDBRepository.service_events
    (Solid.MongoDBRepository.cleanup_old_records (-86400000000) r).1.2
  = [Example.failure_doc "svc1" (-36000000000)].
Proof.
  intros r.
  etrans; [apply (proj1 C7_redis_cleanup_deletes_event_at_cutoff); reflexivity|].
  by vm_compute.
Defined.

(** * Further properties *)

(** ** Retention cleanup *)

Section Cleanup.
Import Solid.
Context {R : Type} `{!DatabaseRepository R}.
Variable env : Env.
Variable self : ServiceDoctor.t.

Lemma cleanup_body_run cutoff k db (w : World (list R)) :
  ext w !! k = Some db →
  cleanup_body cutoff k w =
  (Returned tt,
   set_log (log w ++ cleanup_log cutoff db)
     (set_ext (<[k := cleaned cutoff db]> (ext w)) w)).
Proof.
  intros Hk. unfold cleanup_body, try_except, cleanup_log, cleaned.
  unfold ServiceDoctor.call_db. rewrite Hk.
  destruct (cleanup_old_records cutoff db) as [[[[]|e] db'] logs]; simpl.
  - by rewrite app_nil_r.
  - unfold logging, modify, set_log; simpl. by rewrite <- app_assoc.
Qed.

Lemma cleanup_loop_run cutoff n : ∀ k (w : World (list R)),
  (k + n)%nat = length (ext w) →
  for_each (seq k n) (cleanup_body cutoff) w =
  (Returned tt,
   set_log (log w ++ flat_map (cleanup_log cutoff) (drop k (ext w)))
     (set_ext (take k (ext w) ++ (cleaned cutoff <$> drop k (ext w))) w)).
Proof.
  induction n as [|n IH]; intros k w Hlen.
  - simpl. rewrite drop_ge, take_ge by lia. simpl.
    rewrite !app_nil_r. unfold set_log, set_ext; simpl.
    by rewrite world_eta.
  - destruct (lookup_lt_is_Some_2 (ext w) k) as [db Hdb]; [lia|].
    cbn [seq for_each]. rewrite run_bind, (cleanup_body_run _ _ db) by done.
    rewrite IH by (simpl; rewrite length_insert; lia).
    simpl. f_equal. unfold set_log, set_ext; simpl.
    rewrite (drop_S _ db k) by done.
    rewrite drop_insert_lt by lia.
    rewrite take_insert_lt by lia.
    rewrite (take_S_r _ _ db) by done.
    rewrite insert_app_r_alt by (rewrite length_take; lia).
    rewrite length_take, Nat.min_l by lia.
    rewrite Nat.sub_diag. simpl.
    by rewrite <- !app_assoc.
Qed.

(** What [cleanup_old_data] does. *)
Lemma cleanup_old_data_run (w : World (list R)) :
  let cutoff := retention_cutoff env self w in
  let w' := exec (ServiceDoctor.cleanup_old_data env self) w in
  outcome (ServiceDoctor.cleanup_old_data env self) w = Returned tt
  ∧ ext w' = cleaned cutoff <$> ext w
  ∧ log w' = log w ++ flat_map (cleanup_log cutoff) (ext w)
  ∧ ticks w' = S (ticks w)
  ∧ service_failures w' = service_failures w
  ∧ spawned w' = spawned w ∧ net w' = net w ∧ jobs w' = jobs w.
Proof.
  intros cutoff.
  assert (ServiceDoctor.cleanup_old_data env self w =
          for_each (seq 0 (length (ext w))) (cleanup_body cutoff)
                   (set_ticks (S (ticks w)) w)) as Hrun by reflexivity.
  unfold exec, outcome. rewrite Hrun, cleanup_loop_run by done.
  cbn. by repeat split.
Qed.
End Cleanup.

(** X1: [ServiceDoctor.cleanup_old_data] reads the clock once and asks every
    database to clean up with the cutoff [now - retention_hours] (24 hours
    when the key is absent), each one once and whatever the others did; the
    call returns, a database that raises only adds a record to the log, and
    the in-memory failure windows are left as they are. *)
Theorem X1_cleanup_fans_out {R : Type} `{!Solid.DatabaseRepository R}
    (env : Env) (self : Solid.ServiceDoctor.t) (w : World (list R)) :
  let cutoff := retention_cutoff env self w in
  let w' := exec (Solid.ServiceDoctor.cleanup_old_data env self) w in
  outcome (Solid.ServiceDoctor.cleanup_old_data env self) w = Returned tt
  ∧ ext w' = cleaned cutoff <$> ext w
  ∧ log w' = log w ++ flat_map (cleanup_log cutoff) (ext w)
  ∧ ticks w' = S (ticks w)
  ∧ service_failures w' = service_failures w
  ∧ spawned w' = spawned w ∧ net w' = net w ∧ jobs w' = jobs w.
Proof. exact (cleanup_old_data_run env self w). Qed.

(** ** The scan cycle never stops early *)

Lemma for_each_returns {W A} (body : A → M W unit) (xs : list A) : ∀ w,
  (∀ x w, ∃ w', body x w = (Returned tt, w')) →
  for_each xs body w = (Returned tt, foldl (λ w x, exec (body x) w) w xs).
Proof.
  intros w Hbody. revert w. induction xs as [|x xs IH]; intros w; [done|].
  cbn [for_each foldl]. rewrite run_bind.
  destruct (Hbody x w) as [w' E]. unfold exec at 2. rewrite E. apply IH.
Qed.

Lemma foldl_spawned_bounds {X A} (f : World X → A → World X) (xs : list A) :
  (∀ w x, (S (spawned w) ≤ spawned (f w x) ≤ S (S (spawned w)))%nat) →
  ∀ w, (spawned w + length xs ≤ spawned (foldl f w xs)
        ≤ spawned w + 2 * length xs)%nat.
Proof.
  intros Hf. induction xs as [|x xs IH]; intros w; cbn [foldl length]; [lia|].
  specialize (IH (f w x)). specialize (Hf w x). lia.
Qed.

Section SolidScanCompletes.
Import Solid.
Context {R : Type} `{!DatabaseRepository R}.
Variable env : Env.
Variable self : ServiceDoctor.t.

(** [record_failure] returns, with any databases: it reads the clock twice
    and spawns nothing. *)
Lemma solid_record_failure_returns name (w : World (list R)) :
  ∃ w', ServiceDoctor.record_failure env self name w = (Returned tt, w')
        ∧ spawned w' = spawned w ∧ ticks w' = S (S (ticks w))
        ∧ jobs w' = jobs w ∧ length (ext w') = length (ext w).
Proof.
  unfold ServiceDoctor.record_failure.
  rewrite run_bind. unfold datetime_now. cbn beta iota.
  rewrite run_bind, save_event_run. cbn beta iota.
  rewrite run_bind. unfold modify at 1. cbn beta iota.
  rewrite run_bind.
  match goal with
  | |- context [ServiceDoctor.get_recent_failures _ _ _ ?w0] => set (w1 := w0)
  end.
  destruct (get_recent_failures_run env self name w1)
    as (w2 & E2 & Ht2 & Hs2 & _ & Hj2 & _ & _ & Hl2 & _).
  rewrite E2. cbn beta iota.
  assert (length (ext w1) = length (ext w)) as Hl1
    by (unfold w1; cbn; by rewrite length_fmap).
  destruct (_ <=? _); cbn [when].
  - match goal with
    | |- context [ServiceDoctor.send_alerts _ _ _ ?l w2] =>
        destruct (send_alerts_run env self name l w2)
          as (w3 & E3 & _ & _ & Ht3 & Hx3 & Hs3 & Hj3)
    end.
    exists w3. split; [exact E3|]. rewrite Hs3, Ht3, Hj3, Hx3, Hs2, Ht2, Hj2, Hl2.
    by repeat split.
  - exists w2. split; [reflexivity|]. rewrite Hs2, Ht2, Hj2, Hl2. by repeat split.
Qed.

(** The scan of one service returns; it spawns one command when the service
    is running and two when it is not. *)
Lemma solid_scan_service_returns service (w : World (list R)) :
  ∃ w', ServiceDoctor.scan_service env self service w = (Returned tt, w')
        ∧ spawned w' =
            (if is_active env (spawned w) service
             then S (spawned w) else S (S (spawned w)))
        ∧ jobs w' = jobs w ∧ length (ext w') = length (ext w).
Proof.
  unfold ServiceDoctor.scan_service.
  rewrite run_bind. unfold logging at 1, modify. cbn beta iota.
  rewrite run_bind, check_service_run. cbn [spawned set_log].
  destruct (is_active env (spawned w) service); cbn beta iota.
  - rewrite run_bind. unfold logging at 1, modify. cbn beta iota.
    rewrite run_bind. unfold datetime_now. cbn beta iota.
    rewrite save_event_run. eexists. split; [reflexivity|]. cbn.
    by rewrite length_fmap.
  - rewrite run_bind. unfold logging at 1, modify. cbn beta iota.
    rewrite run_bind, restart_service_run. cbn [spawned set_log set_spawned].
    destruct (restart_ok env (S (spawned w)) service); cbn beta iota.
    + rewrite run_bind. unfold datetime_now. cbn beta iota.
      rewrite run_bind, save_event_run. cbn beta iota.
      eexists. split; [reflexivity|]. cbn. by rewrite length_fmap.
    + rewrite run_bind. unfold datetime_now. cbn beta iota.
      rewrite run_bind, save_event_run. cbn beta iota.
      rewrite run_bind. unfold logging at 1, modify. cbn beta iota.
      match goal with
      | |- context [ServiceDoctor.record_failure _ _ _ ?w0] =>
          destruct (solid_record_failure_returns service w0)
            as (w' & E & Hs & _ & Hj & Hl)
      end.
      exists w'. split; [exact E|]. rewrite Hs, Hj, Hl. cbn.
      by rewrite length_fmap.
Qed.

(** The world [scan_services] leaves: the services are scanned one after
    the other, in the order of the configuration. *)
Lemma solid_scan_services_run (w : World (list R)) :
  let services := default [] (ServiceDoctor.services (ServiceDoctor.config self)) in
  let scanned :=
    foldl (λ w service, exec (ServiceDoctor.scan_service env self service) w)
          (set_log (log w ++ [Log INFO "Starting service scan..."]) w)
          services in
  ServiceDoctor.scan_services env self w =
  (Returned tt, set_log (log scanned ++ [Log INFO "Service scan completed"]) scanned).
Proof.
  intros services scanned. unfold ServiceDoctor.scan_services.
  rewrite run_bind. unfold logging at 1, modify. cbn beta iota.
  rewrite run_bind, for_each_returns.
  - reflexivity.
  - intros service w0.
    destruct (solid_scan_service_returns service w0) as (w' & E & _). eauto.
Qed.
End SolidScanCompletes.

(** The scan of all the services, with what it spawns. *)
Lemma solid_scan_services_visits {R : Type}
    `{!Solid.DatabaseRepository R} (env : Env) (self : Solid.ServiceDoctor.t)
    (w : World (list R)) :
  let services :=
    default [] (Solid.ServiceDoctor.services (Solid.ServiceDoctor.config self)) in
  let scanned :=
    foldl (λ w service,
             exec (Solid.ServiceDoctor.scan_service env self service) w)
          (set_log (log w ++ [Log INFO "Starting service scan..."]) w)
          services in
  let w' := exec (Solid.ServiceDoctor.scan_services env self) w in
  Solid.ServiceDoctor.scan_services env self w =
  (Returned tt, set_log (log scanned ++ [Log INFO "Service scan completed"]) scanned)
  ∧ (spawned w + length services ≤ spawned w'
     ≤ spawned w + 2 * length services)%nat
  ∧ jobs w' = jobs w ∧ length (ext w') = length (ext w).
Proof.
  intros services scanned w'. subst w'. unfold exec.
  rewrite solid_scan_services_run. fold services. fold scanned.
  split; [done|]. cbn [snd spawned jobs ext set_log].
  assert (∀ l (w0 : World (list R)),
            jobs (foldl (λ w service,
                           exec (Solid.ServiceDoctor.scan_service env self service) w)
                        w0 l) = jobs w0
            ∧ length (ext (foldl (λ w service,
                           exec (Solid.ServiceDoctor.scan_service env self service) w)
                        w0 l)) = length (ext w0)) as Hframe.
  { induction l as [|s l IH]; intros w0; [done|]. cbn [foldl].
    destruct (IH (exec (Solid.ServiceDoctor.scan_service env self s) w0))
      as [-> ->].
    destruct (solid_scan_service_returns env self s w0) as (w1 & E & _ & Hj & Hl).
    unfold exec. by rewrite E. }
  pose proof (Hframe services
                (set_log (log w ++ [Log INFO "Starting service scan..."]) w))
    as [Hj Hl].
  assert (∀ (w0 : World (list R)) s,
            (S (spawned w0)
             ≤ spawned (exec (Solid.ServiceDoctor.scan_service env self s) w0)
             ≤ S (S (spawned w0)))%nat) as Hstep.
  { intros w0 s.
    destruct (solid_scan_service_returns env self s w0) as (w1 & E & Hs & _).
    unfold exec. rewrite E. cbn [snd]. rewrite Hs.
    destruct (is_active _ _ _); lia. }
  pose proof (foldl_spawned_bounds _ services Hstep
                (set_log (log w ++ [Log INFO "Starting service scan..."]) w))
    as Hsp.
  split; [exact Hsp|]. split; [exact Hj | exact Hl].
Qed.

(** X2: in the solid version, with any databases, [scan_services] returns
    and scans every configured service, in the order of the configuration:
    neither a probe that cannot be spawned, nor a database or a channel
    that fails keeps the services after it from being scanned. Every
    service is probed once and restarted at most once: the scan spawns
    between one and two commands per service. *)
Theorem X2_solid_scan_visits_every_service {R : Type}
    `{!Solid.DatabaseRepository R} (env : Env) (self : Solid.ServiceDoctor.t)
    (w : World (list R)) :
  let services :=
    default [] (Solid.ServiceDoctor.services (Solid.ServiceDoctor.config self)) in
  let scanned :=
    foldl (λ w service,
             exec (Solid.ServiceDoctor.scan_service env self service) w)
          (set_log (log w ++ [Log INFO "Starting service scan..."]) w)
          services in
  let w' := exec (Solid.ServiceDoctor.scan_services env self) w in
  Solid.ServiceDoctor.scan_services env self w =
  (Returned tt, set_log (log scanned ++ [Log INFO "Service scan completed"]) scanned)
  ∧ (spawned w + length services ≤ spawned w'
     ≤ spawned w + 2 * length services)%nat
  ∧ jobs w' = jobs w ∧ length (ext w') = length (ext w).
Proof. exact (solid_scan_services_visits env self w). Qed.

(** ** The monitoring loop *)

Section ScheduleLoop.
Context {X : Type}.
Variable env : Env.
Variable call : JobFunc → M (World X) unit.
Hypothesis call_returns :
  ∀ f w, ∃ w', call f w = (Returned tt, w') ∧ jobs w' = jobs w.

Lemma runnable_jobs_run js : ∀ (w : World X),
  ∃ due w', Solid.runnable_jobs env js w = (Returned due, w')
            ∧ jobs w' = jobs w ∧ due ⊆ js.
Proof.
  induction js as [|ij js IH]; intros w.
  - exists [], w. by repeat split.
  - cbn [Solid.runnable_jobs]. rewrite run_bind.
    unfold Solid.should_run. rewrite run_bind. unfold datetime_now.
    cbn beta iota. unfold mret at 1, M_ret. cbn beta iota. rewrite run_bind.
    destruct (IH (set_ticks (S (ticks w)) w)) as (due & w' & E & Hj & Hsub).
    rewrite E. cbn beta iota.
    destruct (bool_decide _).
    + exists (ij :: due), w'. split; [done|]. split; [done|].
      by apply list_subseteq_skip.
    + exists due, w'. split; [done|]. split; [done|].
      by apply list_subseteq_cons.
Qed.

Lemma run_job_run ij (w : World X) :
  job_kind <$> (jobs w !! ij.1) = Some (job_kind ij.2) →
  ∃ w', Solid.run_job env call ij w = (Returned tt, w')
        ∧ job_kinds w' = job_kinds w.
Proof.
  intros Hkind. unfold Solid.run_job. rewrite run_bind.
  destruct (call_returns (job_func ij.2) w) as (w1 & E & Hj). rewrite E.
  cbn beta iota. rewrite run_bind. unfold datetime_now. cbn beta iota.
  eexists. split; [reflexivity|].
  unfold job_kinds. cbn. rewrite Hj, list_fmap_insert.
  apply list_insert_id. by rewrite list_lookup_fmap.
Qed.

Lemma run_jobs_run due : ∀ (w : World X),
  Forall (λ ij, job_kind <$> (jobs w !! ij.1) = Some (job_kind ij.2)) due →
  ∃ w', for_each due (Solid.run_job env call) w = (Returned tt, w')
        ∧ job_kinds w' = job_kinds w.
Proof.
  induction due as [|ij due IH]; intros w Hdue.
  - exists w. by split.
  - apply Forall_cons in Hdue as [Hij Hdue]. cbn [for_each]. rewrite run_bind.
    destruct (run_job_run ij w Hij) as (w1 & E & Hk). rewrite E.
    destruct (IH w1) as (w2 & E2 & Hk2).
    { eapply Forall_impl; [exact Hdue|]. intros [i j] Hi. cbn in *.
      unfold job_kinds in Hk.
      rewrite <- list_lookup_fmap, Hk, list_lookup_fmap. exact Hi. }
    exists w2. split; [exact E2|]. congruence.
Qed.

Lemma run_pending_run (w : World X) :
  ∃ w', Solid.run_pending env call w = (Returned tt, w')
        ∧ job_kinds w' = job_kinds w.
Proof.
  unfold Solid.run_pending. rewrite run_bind. unfold gets. cbn beta iota.
  rewrite run_bind.
  destruct (runnable_jobs_run (imap pair (jobs w)) w) as (due & w1 & E & Hj & Hsub).
  rewrite E.
  destruct (run_jobs_run (merge_sort Solid.due_before due) w1) as (w2 & E2 & Hk).
  { apply Forall_forall. intros [i j] Hin. cbn.
    rewrite merge_sort_Permutation in Hin. apply Hsub in Hin.
    apply elem_of_lookup_imap in Hin as (i' & j' & Heq & Hlook).
    inversion Heq; subst. by rewrite Hj, Hlook. }
  exists w2. split; [exact E2|]. unfold job_kinds in *. by rewrite Hk, Hj.
Qed.

(** The loop ends by the interrupt only, and keeps the schedule. *)
Lemma monitoring_loop_run rounds : ∀ (w : World X),
  ∃ w', Solid.monitoring_loop env call rounds w = (Interrupted, w')
        ∧ job_kinds w' = job_kinds w.
Proof.
  induction rounds as [|rounds IH]; intros w.
  - exists w. by split.
  - cbn [Solid.monitoring_loop]. rewrite run_bind.
    destruct (run_pending_run w) as (w1 & E & Hk). rewrite E.
    destruct (IH w1) as (w2 & E2 & Hk2). exists w2. split; [exact E2|]. congruence.
Qed.
End ScheduleLoop.


Section SolidRun.
Import Solid.
Context {R : Type} `{!DatabaseRepository R}.
Variable env : Env.
Variable self : ServiceDoctor.t.

Lemma call_job_returns f (w : World (list R)) :
  ∃ w', ServiceDoctor.call_job env self f w = (Returned tt, w')
        ∧ jobs w' = jobs w.
Proof.
  destruct f; cbn [ServiceDoctor.call_job].
  - destruct (solid_scan_services_visits env self w) as (E & _ & Hj & _).
    rewrite E. eexists. split; [reflexivity|].
    unfold exec in Hj. by rewrite E in Hj.
  - destruct (cleanup_old_data_run env self w) as (Ho & _ & _ & _ & _ & _ & _ & Hj).
    unfold outcome, exec in *.
    destruct (ServiceDoctor.cleanup_old_data env self w) as [o w'].
    cbn in *. subst o. by exists w'.
Qed.

(** What [run] does when services are configured. *)
Lemma run_with_services rounds (w : World (list R)) :
  let services := default [] (ServiceDoctor.services (ServiceDoctor.config self)) in
  let scan_interval :=
    default 5 (ServiceDoctor.scan_interval_minutes (ServiceDoctor.config self)) in
  services ≠ [] →
  ∃ w1 w3,
    let w0 :=
      set_log (log w ++ [Log INFO "Linux Service Doctor starting...";
                         Log INFO ("Monitoring services: "
                                   +:+ String.concat ", " services);
                         Log INFO ("Scan interval: " +:+ pretty scan_interval
                                   +:+ " minutes")]) w in
    ServiceDoctor.scan_services env self w0 = (Returned tt, w1)
    ∧ (spawned w + length services ≤ spawned w1
       ≤ spawned w + 2 * length services)%nat
    ∧ let scheduled :=
        exec (schedule_every env (timedelta_hours 1) JobCleanupOldData)
          (exec (schedule_every env (timedelta_minutes scan_interval)
                   JobScanServices) w1) in
      let w2 :=
        set_log (log scheduled ++ [Log INFO "Service monitoring is active"])
          scheduled in
      jobs w2 =
        jobs w ++
        [{| period := timedelta_minutes scan_interval;
            next_run := clock env (ticks w1) + timedelta_minutes scan_interval;
            job_func := JobScanServices |};
         {| period := timedelta_hours 1;
            next_run := clock env (S (ticks w1)) + timedelta_hours 1;
            job_func := JobCleanupOldData |}]
      ∧ monitoring_loop env (ServiceDoctor.call_job env self) rounds w2
        = (Interrupted, w3)
      ∧ let w' :=
          set_log (log w3 ++ [Log INFO "Service monitoring stopped by user"]) w3 in
        ServiceDoctor.run env self rounds w = (Returned (Some 0), w')
        ∧ job_kinds w' =
            job_kinds w ++
            [(timedelta_minutes scan_interval, JobScanServices);
             (timedelta_hours 1, JobCleanupOldData)].
Proof.
  intros services scan_interval Hservices. unfold ServiceDoctor.run.
  rewrite run_bind. unfold logging at 1, modify. cbn beta iota.
  fold services scan_interval.
  set (w0 := set_log (log w ++ [Log INFO "Linux Service Doctor starting...";
                                Log INFO ("Monitoring services: "
                                          +:+ String.concat ", " services);
                                Log INFO ("Scan interval: "
                                          +:+ pretty scan_interval
                                          +:+ " minutes")]) w).
  destruct (solid_scan_services_visits env self w0) as (E1 & Hsp & Hj1 & _).
  fold services in Hsp.
  set (w1 := set_log _ _) in E1.
  assert (exec (ServiceDoctor.scan_services env self) w0 = w1) as Hw1
    by (unfold exec; by rewrite E1).
  rewrite Hw1 in Hsp, Hj1. clearbody w1.
  change (spawned w0) with (spawned w) in Hsp.
  change (jobs w0) with (jobs w) in Hj1.
  set (scheduled :=
         exec (schedule_every env (timedelta_hours 1) JobCleanupOldData)
           (exec (schedule_every env (timedelta_minutes scan_interval)
                    JobScanServices) w1)).
  set (w2 := set_log (log scheduled ++ [Log INFO "Service monitoring is active"])
               scheduled).
  destruct (monitoring_loop_run env (ServiceDoctor.call_job env self)
              call_job_returns rounds w2) as (w3 & E3 & Hk3).
  assert (jobs w2 =
            jobs w ++
            [{| period := timedelta_minutes scan_interval;
                next_run := clock env (ticks w1) + timedelta_minutes scan_interval;
                job_func := JobScanServices |};
             {| period := timedelta_hours 1;
                next_run := clock env (S (ticks w1)) + timedelta_hours 1;
                job_func := JobCleanupOldData |}]) as Hjobs.
  { unfold w2, scheduled, exec, schedule_every. rewrite !run_bind.
    unfold datetime_now, modify. cbn. rewrite Hj1. cbn.
    by rewrite <- app_assoc. }
  exists w1, w3. cbn zeta. split; [exact E1|]. split; [exact Hsp|].
  split; [exact Hjobs|]. split; [exact E3|]. split.
  - destruct services as [|s rest] eqn:Hs; [done|].
    rewrite run_bind. unfold logging at 1, modify. cbn beta iota.
    rewrite run_bind. unfold logging at 1, modify. cbn beta iota.
    rewrite run_bind.
    match goal with
    | |- context [ServiceDoctor.scan_services env self ?x] =>
        replace x with w0
          by (unfold w0, set_log; cbn; by rewrite <- !app_assoc)
    end.
    rewrite E1. cbn beta iota.
    rewrite run_bind. unfold schedule_every at 1. rewrite run_bind.
    unfold datetime_now at 1. cbn beta iota. unfold modify at 1. cbn beta iota.
    rewrite run_bind. unfold schedule_every at 1. rewrite run_bind.
    unfold datetime_now at 1. cbn beta iota. unfold modify at 1. cbn beta iota.
    rewrite run_bind. unfold logging at 1, modify. cbn beta iota.
    unfold try_except_interrupt. rewrite run_bind.
    change (monitoring_loop env (ServiceDoctor.call_job env self) rounds _)
      with (monitoring_loop env (ServiceDoctor.call_job env self) rounds w2).
    rewrite E3. cbn beta iota. rewrite run_bind.
    unfold logging at 1, modify. by cbn beta iota.
  - unfold job_kinds in *. cbn [jobs set_log]. rewrite Hk3, Hjobs.
    by rewrite fmap_app.
Qed.
End SolidRun.

(** X3: with at least one service configured, [ServiceDoctor.run] logs
    its start, makes the initial scan of every configured service, then
    schedules the scan every [scan_interval_minutes] minutes (five when
    the key is absent) and the cleanup every hour, each due one period
    after the reading of the clock at which it is scheduled, and loops
    until the interrupt: for any number of rounds of the loop it then
    returns 0, never 1, its last record being that the monitoring was
    stopped by the user, and the jobs are still scheduled with their
    periods, behind the jobs that were there before. *)
Theorem X3_run_stops_cleanly_on_interrupt {R : Type} `{!Solid.DatabaseRepository R}
    (env : Env) (self : Solid.ServiceDoctor.t) (rounds : nat)
    (w : World (list R)) :
  let services :=
    default [] (Solid.ServiceDoctor.services (Solid.ServiceDoctor.config self)) in
  let scan_interval :=
    default 5 (Solid.ServiceDoctor.scan_interval_minutes
                 (Solid.ServiceDoctor.config self)) in
  services ≠ [] →
  ∃ w1 w3,
    let w0 :=
      set_log (log w ++ [Log INFO "Linux Service Doctor starting...";
                         Log INFO ("Monitoring services: "
                                   +:+ String.concat ", " services);
                         Log INFO ("Scan interval: " +:+ pretty scan_interval
                                   +:+ " minutes")]) w in
    Solid.ServiceDoctor.scan_services env self w0 = (Returned tt, w1)
    ∧ (spawned w + length services ≤ spawned w1
       ≤ spawned w + 2 * length services)%nat
    ∧ let scheduled :=
        exec (Solid.schedule_every env (timedelta_hours 1) JobCleanupOldData)
          (exec (Solid.schedule_every env (timedelta_minutes scan_interval)
                   JobScanServices) w1) in
      let w2 :=
        set_log (log scheduled ++ [Log INFO "Service monitoring is active"])
          scheduled in
      jobs w2 =
        jobs w ++
        [{| period := timedelta_minutes scan_interval;
            next_run := clock env (ticks w1) + timedelta_minutes scan_interval;
            job_func := JobScanServices |};
         {| period := timedelta_hours 1;
            next_run := clock env (S (ticks w1)) + timedelta_hours 1;
            job_func := JobCleanupOldData |}]
      ∧ Solid.monitoring_loop env (Solid.ServiceDoctor.call_job env self) rounds w2
        = (Interrupted, w3)
      ∧ let w' :=
          set_log (log w3 ++ [Log INFO "Service monitoring stopped by user"]) w3 in
        Solid.ServiceDoctor.run env self rounds w = (Returned (Some 0), w')
        ∧ job_kinds w' =
            job_kinds w ++
            [(timedelta_minutes scan_interval, JobScanServices);
             (timedelta_hours 1, JobCleanupOldData)].
Proof. exact (run_with_services env self rounds w). Qed.

(** A doctor of one service on a host whose services are down, interrupted
    after three rounds of the loop: the probe and the restart of the
    initial scan have been spawned. *)
Lemma X3_witness :
  ∃ w' l,
    Solid.ServiceDoctor.run (Example.host Example.ten_minutes [])
      (Example.doctor ["svc1"] None 3) 3
      (Example.solid_start [Example.mongo_repository []])
    = (Returned (Some 0), w')
    ∧ job_kinds w' = [(300000000, JobScanServices);
                      (3600000000, JobCleanupOldData)]
    ∧ log w' = l ++ [Log INFO "Service monitoring stopped by user"].
Proof.
  destruct (X3_run_stops_cleanly_on_interrupt
              (Example.host Example.ten_minutes [])
              (Example.doctor ["svc1"] None 3) 3
              (Example.solid_start [Example.mongo_repository []]))
    as (w1 & w3 & _ & _ & _ & _ & Hrun & Hjobs); [done|].
  eexists. eexists. split; [exact Hrun|]. split; [exact Hjobs|reflexivity].
Defined.

Section SimpleScanCompletes.
Variable env : Env.
Variable CONFIG : Simple.Config.

Lemma simple_scan_service_returns service (w : World InfluxServer) :
  ∃ w', Simple.scan_service env CONFIG service w = (Returned tt, w')
        ∧ spawned w' =
            (if is_active env (spawned w) service
             then S (spawned w) else S (S (spawned w)))
        ∧ jobs w' = jobs w.
Proof.
  unfold Simple.scan_service.
  rewrite run_bind. unfold logging at 1, modify. cbn beta iota.
  rewrite run_bind, check_service_run. cbn [spawned set_log].
  destruct (is_active env (spawned w) service); cbn beta iota.
  - rewrite run_bind. unfold logging at 1, modify. cbn beta iota.
    destruct (Simple.influx_enabled (Simple.influxdb CONFIG)); cbn [when].
    + match goal with
      | |- context [Simple.save_to_influxdb _ _ _ _ _ ?w0] =>
          destruct (save_to_influxdb_quiet env CONFIG service "check" true w0)
            as (w' & E & (_ & _ & Hs & Hj & _) & _)
      end.
      exists w'. split; [exact E|]. by rewrite Hs, Hj.
    + eexists. by split.
  - rewrite run_bind. unfold logging at 1, modify. cbn beta iota.
    rewrite run_bind, restart_service_run. cbn [spawned set_log set_spawned].
    destruct (restart_ok env (S (spawned w)) service); cbn beta iota.
    + rewrite run_bind. unfold logging at 1, modify. cbn beta iota.
      destruct (Simple.influx_enabled (Simple.influxdb CONFIG)); cbn [when].
      * match goal with
        | |- context [Simple.save_to_influxdb _ _ _ _ _ ?w0] =>
            destruct (save_to_influxdb_quiet env CONFIG service "restart" true w0)
              as (w' & E & (_ & _ & Hs & Hj & _) & _)
        end.
        exists w'. split; [exact E|]. by rewrite Hs, Hj.
      * eexists. by split.
    + rewrite run_bind. unfold logging at 1, modify. cbn beta iota.
      match goal with
      | |- context [Simple.record_failure _ _ _ ?w0] =>
          destruct (record_failure_run env CONFIG service w0)
            as (w' & E & _ & _ & _ & Hs & Hj & _)
      end.
      exists w'. split; [exact E|]. by rewrite Hs, Hj.
Qed.

(** The scan of all the services of the simple version. *)
Lemma simple_scan_services_visits (w : World InfluxServer) :
  let scanned :=
    foldl (λ w service, exec (Simple.scan_service env CONFIG service) w)
          (set_log (log w ++ [Log INFO "Starting service scan..."]) w)
          (Simple.services CONFIG) in
  let w' := exec (Simple.scan_services env CONFIG) w in
  Simple.scan_services env CONFIG w =
  (Returned tt, set_log (log scanned ++ [Log INFO "Service scan completed"]) scanned)
  ∧ (spawned w + length (Simple.services CONFIG) ≤ spawned w'
     ≤ spawned w + 2 * length (Simple.services CONFIG))%nat.
Proof.
  intros scanned w'.
  assert (Simple.scan_services env CONFIG w =
          (Returned tt,
           set_log (log scanned ++ [Log INFO "Service scan completed"]) scanned))
    as Hrun.
  { unfold Simple.scan_services.
    rewrite run_bind. unfold logging at 1, modify. cbn beta iota.
    rewrite run_bind, for_each_returns; [reflexivity|].
    intros service w0.
    destruct (simple_scan_service_returns service w0) as (w1 & E & _). eauto. }
  split; [exact Hrun|]. subst w'. unfold exec. rewrite Hrun.
  cbn [snd spawned set_log].
  assert (∀ (w0 : World InfluxServer) s,
            (S (spawned w0)
             ≤ spawned (exec (Simple.scan_service env CONFIG s) w0)
             ≤ S (S (spawned w0)))%nat) as Hstep.
  { intros w0 s.
    destruct (simple_scan_service_returns s w0) as (w1 & E & Hs & _).
    unfold exec. rewrite E. cbn [snd]. rewrite Hs.
    destruct (is_active _ _ _); lia. }
  exact (foldl_spawned_bounds _ (Simple.services CONFIG) Hstep
           (set_log (log w ++ [Log INFO "Starting service scan..."]) w)).
Qed.
End SimpleScanCompletes.

(** X4: in the simple version [scan_services] returns and scans every
    service of [CONFIG["services"]], in order: no probe, InfluxDB or channel
    error keeps the services after it from being scanned, and the scan
    spawns between one and two commands per service. *)
Theorem X4_simple_scan_visits_every_service (env : Env) (CONFIG : Simple.Config)
    (w : World InfluxServer) :
  let scanned :=
    foldl (λ w service, exec (Simple.scan_service env CONFIG service) w)
          (set_log (log w ++ [Log INFO "Starting service scan..."]) w)
          (Simple.services CONFIG) in
  let w' := exec (Simple.scan_services env CONFIG) w in
  Simple.scan_services env CONFIG w =
  (Returned tt, set_log (log scanned ++ [Log INFO "Service scan completed"]) scanned)
  ∧ (spawned w + length (Simple.services CONFIG) ≤ spawned w'
     ≤ spawned w + 2 * length (Simple.services CONFIG))%nat.
Proof. exact (simple_scan_services_visits env CONFIG w). Qed.

(** ** The network calls of an alert *)

Section SolidDispatch.
Import Solid.
Context {X : Type}.
Variable env : Env.

Lemma email_send_notification_net name failures config (w : World X) :
  ∃ b w', EmailNotificationSender.send_notification env name failures config w
          = (Returned b, w')
          ∧ net w' = net w ++ email_attempt name failures config
          ∧ service_failures w' = service_failures w ∧ ext w' = ext w.
Proof.
  unfold EmailNotificationSender.send_notification, email_attempt, try_except,
    smtp_send, config_item.
  destruct (truthy (config_get config "password")); cbn [negb].
  - destruct (config !! "sender_email"), (config !! "receiver_email"),
      (config !! "smtp_server"), (config !! "smtp_port"), (config !! "password");
      run_code;
      try (match goal with
           | |- context [smtp ?e ?n ?c] => destruct (smtp e n c)
           end; cbn);
      do 2 eexists; (split; [reflexivity|]); cbn; by rewrite ?app_nil_r.
  - run_code. do 2 eexists. split; [reflexivity|]. cbn. by rewrite app_nil_r.
Qed.

Lemma webhook_send_notification_net kind name failures config (w : World X) :
  ∃ b w', webhook_send_notification env kind name failures config w
          = (Returned b, w')
          ∧ net w' = net w ++ webhook_attempt name failures config
          ∧ service_failures w' = service_failures w ∧ ext w' = ext w.
Proof.
  unfold webhook_send_notification, webhook_attempt, try_except, http_post,
    config_item, config_get.
  destruct (config !! "webhook_url") as [url|] eqn:Hurl; cbn [default from_option id];
    [|run_code; do 2 eexists; split; [reflexivity|]; cbn; by rewrite app_nil_r].
  destruct (truthy url); cbn [negb]; run_code;
    [|do 2 eexists; split; [reflexivity|]; cbn; by rewrite app_nil_r].
  destruct (requests_post env _ _) as [response|e]; cbn;
    [destruct (status_code response =? 200)|];
    do 2 eexists; (split; [reflexivity|]); by cbn.
Qed.
End SolidDispatch.

Section SolidDispatchLoop.
Import Solid.
Context {R : Type} `{!DatabaseRepository R}.
Variable env : Env.
Variable self : ServiceDoctor.t.

Lemma send_alerts_net name failures (w : World (list R)) :
  ∃ w', ServiceDoctor.send_alerts env self name failures w = (Returned tt, w')
        ∧ net w' =
            net w ++ flat_map (channel_attempt name failures)
                       (ServiceDoctor.notification_configs self)
        ∧ service_failures w' = service_failures w.
Proof.
  unfold ServiceDoctor.send_alerts. rewrite run_bind.
  unfold logging at 1, modify. cbn beta iota.
  match goal with |- context [for_each _ _ ?w0] => set (w1 := w0) end.
  change (net w) with (net w1).
  change (service_failures w) with (service_failures w1). clearbody w1.
  induction (ServiceDoctor.notification_configs self) as [|nc ncs IH] in w1 |- *.
  - exists w1. cbn. by rewrite app_nil_r.
  - cbn [for_each flat_map]. rewrite run_bind. unfold try_except at 1.
    unfold NotificationSenderFactory.create_sender. rewrite run_bind.
    unfold mret at 1, M_ret. cbn beta iota. rewrite run_bind.
    assert (∃ b w2,
              (match notification_type nc with
               | EMAIL => EmailNotificationSender.send_notification env
               | SLACK => SlackNotificationSender.send_notification env
               | TEAMS => TeamsNotificationSender.send_notification env
               end) name failures (config nc) w1 = (Returned b, w2)
              ∧ net w2 = net w1 ++ channel_attempt name failures nc
              ∧ service_failures w2 = service_failures w1)
      as (b & w2 & E & Hnet & Hsf).
    { unfold channel_attempt. destruct (notification_type nc).
      - destruct (email_send_notification_net env name failures (config nc) w1)
          as (b & w2 & E & Hn & Hf & _). eauto.
      - destruct (webhook_send_notification_net env "Slack" name failures
                    (config nc) w1) as (b & w2 & E & Hn & Hf & _). eauto.
      - destruct (webhook_send_notification_net env "Teams" name failures
                    (config nc) w1) as (b & w2 & E & Hn & Hf & _). eauto. }
    rewrite E. cbn beta iota.
    destruct (IH w2) as (w3 & E3 & Hnet3 & Hsf3). exists w3. split; [exact E3|].
    by rewrite Hnet3, Hnet, Hsf3, Hsf, <- app_assoc.
Qed.

(** What [record_failure] puts on the wire and leaves in memory. *)
Lemma solid_record_failure_effects name (w : World (list R)) :
  let now := clock env (ticks w) in
  let cutoff := clock env (S (ticks w)) - solid_window self in
  let dbs := saved (failure_event name now) <$> ext w in
  let found := first_answer (answer name cutoff <$> dbs) in
  let memory := filter (λ t, cutoff ≤ t) (failures_of name w ++ [now]) in
  let window := default memory found in
  ∃ w', ServiceDoctor.record_failure env self name w = (Returned tt, w')
  ∧ net w' =
    net w ++ (if solid_threshold self <=? Z.of_nat (length window)
              then flat_map (channel_attempt name window)
                     (ServiceDoctor.notification_configs self)
              else [])
  ∧ failures_of name w' =
      match found with
      | Some _ => failures_of name w ++ [now]
      | None => memory
      end
  ∧ ∀ other, other ≠ name → failures_of other w' = failures_of other w.
Proof.
  intros now cutoff dbs found memory window.
  unfold ServiceDoctor.record_failure.
  rewrite run_bind. unfold datetime_now. cbn beta iota.
  fold now. fold (failure_event name now).
  rewrite run_bind, save_event_run. cbn beta iota.
  rewrite run_bind. unfold modify at 1. cbn beta iota.
  rewrite run_bind.
  set (w1 := set_failures name _ _).
  assert (failures_of name w1 = failures_of name w ++ [now]) as Hmem.
  { unfold w1, failures_of, set_failures. cbn. by rewrite lookup_insert_eq. }
  assert (∀ other, other ≠ name → failures_of other w1 = failures_of other w)
    as Hother.
  { intros other Hne. unfold w1, failures_of, set_failures. cbn.
    by rewrite lookup_insert_ne. }
  destruct (get_recent_failures_run env self name w1)
    as (w2 & E2 & _ & _ & Hn2 & _ & Hf2 & _).
  change (cutoff_at env self w1) with cutoff in *.
  change (ext w1) with dbs in *. fold found in E2, Hf2.
  rewrite Hmem in E2, Hf2. fold memory in E2, Hf2. fold window in E2.
  rewrite E2. cbn beta iota. fold (solid_threshold self).
  assert (failures_of name w2 =
            match found with
            | Some _ => failures_of name w ++ [now]
            | None => memory
            end
          ∧ ∀ other, other ≠ name → failures_of other w2 = failures_of other w)
    as [Hname2 Hother2].
  { unfold failures_of at 1 3. rewrite Hf2. destruct found.
    - split; [exact Hmem|exact Hother].
    - split; [by rewrite lookup_insert_eq|].
      intros other Hne. rewrite lookup_insert_ne by done. by apply Hother. }
  destruct (solid_threshold self <=? Z.of_nat (length window)); cbn [when].
  - destruct (send_alerts_net name window w2) as (w3 & E3 & Hn3 & Hf3).
    exists w3. split; [exact E3|].
    assert (∀ n, failures_of n w3 = failures_of n w2) as Hsame
      by (intros n; unfold failures_of; by rewrite Hf3).
    split; [by rewrite Hn3, Hn2|]. split; [by rewrite Hsame|].
    intros other Hne. rewrite Hsame. by apply Hother2.
  - exists w2. split; [reflexivity|].
    split; [by rewrite Hn2, app_nil_r|]. by split.
Qed.
End SolidDispatchLoop.

(** X5: [ServiceDoctor.send_alerts] attempts every configured channel once,
    in the order of [self.notification_configs], with the same failure list:
    the calls it puts on the wire are those of the channels whose
    configuration is complete, whatever the SMTP server and the webhooks
    answer, so a channel that fails or raises does not keep the channels
    after it from being attempted; and the call returns. *)
Theorem X5_alert_attempts_every_channel {R : Type} `{!Solid.DatabaseRepository R}
    (env : Env) (self : Solid.ServiceDoctor.t) (service_name : string)
    (failures : list datetime) (w : World (list R)) :
  outcome (Solid.ServiceDoctor.send_alerts env self service_name failures) w
  = Returned tt
  ∧ net (exec (Solid.ServiceDoctor.send_alerts env self service_name failures) w)
    = net w ++ flat_map (channel_attempt service_name failures)
                 (Solid.ServiceDoctor.notification_configs self).
Proof.
  destruct (send_alerts_net env self service_name failures w)
    as (w' & E & Hnet & _).
  unfold outcome, exec. by rewrite E.
Qed.

Section SimpleDispatch.
Variable env : Env.
Variable CONFIG : Simple.Config.

Lemma simple_email_net name (w : World InfluxServer) :
  ∃ w', when (Simple.email_enabled (Simple.email CONFIG))
          (Simple.send_email_alert env CONFIG name) w = (Returned tt, w')
        ∧ net w' = net w ++
            (if Simple.email_enabled (Simple.email CONFIG)
                && truthy (Simple.email_password (Simple.email CONFIG))
             then [SmtpSend (Simple.smtp_server (Simple.email CONFIG))
                     (Simple.smtp_port (Simple.email CONFIG))
                     (Simple.sender_email (Simple.email CONFIG))
                     (Simple.email_password (Simple.email CONFIG))
                     (Simple.receiver_email (Simple.email CONFIG)) name
                     (failures_of name w)]
             else [])
        ∧ service_failures w' = service_failures w ∧ ext w' = ext w
        ∧ ticks w' = ticks w.
Proof.
  unfold when, Simple.send_email_alert, try_except, smtp_send.
  destruct (Simple.email_enabled _); cbn [negb orb andb];
    [|eexists; split; [reflexivity|]; by rewrite app_nil_r].
  destruct (truthy _); cbn [negb]; run_code;
    [|eexists; split; [reflexivity|]; cbn; by rewrite app_nil_r].
  match goal with |- context [smtp ?e ?n ?c] => destruct (smtp e n c) end; cbn;
    eexists; (split; [reflexivity|]); by cbn.
Qed.

Lemma simple_webhook_net kind cfg name (w : World InfluxServer) :
  ∃ w', when (Simple.webhook_enabled cfg)
          (Simple.send_webhook_alert env kind cfg name) w = (Returned tt, w')
        ∧ net w' = net w ++
            (if Simple.webhook_enabled cfg && truthy (Simple.webhook_url cfg)
             then [HttpPost (Simple.webhook_url cfg) name (failures_of name w)]
             else [])
        ∧ service_failures w' = service_failures w ∧ ext w' = ext w
        ∧ ticks w' = ticks w.
Proof.
  unfold when, Simple.send_webhook_alert, try_except, http_post.
  destruct (Simple.webhook_enabled _); cbn [negb orb andb];
    [|eexists; split; [reflexivity|]; by rewrite app_nil_r].
  destruct (truthy _); cbn [negb]; run_code;
    [|eexists; split; [reflexivity|]; cbn; by rewrite app_nil_r].
  destruct (requests_post env _ _) as [response|e]; cbn;
    [destruct (status_code response =? 200)|];
    eexists; (split; [reflexivity|]); by cbn.
Qed.

Lemma simple_send_alert_net name (w : World InfluxServer) :
  ∃ w', Simple.send_alert env CONFIG name w = (Returned tt, w')
        ∧ net w' = net w ++ simple_attempts CONFIG name (failures_of name w)
        ∧ service_failures w' = service_failures w ∧ ext w' = ext w
        ∧ ticks w' = ticks w.
Proof.
  unfold Simple.send_alert. rewrite run_bind. unfold gets. cbn beta iota.
  rewrite run_bind. unfold logging at 1, modify. cbn beta iota.
  set (w0 := set_log _ w).
  assert (failures_of name w0 = failures_of name w) as Hw0 by done.
  rewrite run_bind.
  destruct (simple_email_net name w0) as (w1 & E1 & Hn1 & Hf1 & Hx1 & Ht1).
  rewrite E1. cbn beta iota. rewrite run_bind.
  destruct (simple_webhook_net "Slack" (Simple.slack CONFIG) name w1)
    as (w2 & E2 & Hn2 & Hf2 & Hx2 & Ht2).
  unfold Simple.send_slack_alert. rewrite E2. cbn beta iota.
  destruct (simple_webhook_net "Teams" (Simple.teams CONFIG) name w2)
    as (w3 & E3 & Hn3 & Hf3 & Hx3 & Ht3).
  unfold Simple.send_teams_alert. exists w3. split; [exact E3|].
  assert (failures_of name w1 = failures_of name w) as Hw1
    by (unfold failures_of; by rewrite Hf1).
  assert (failures_of name w2 = failures_of name w) as Hw2
    by (unfold failures_of; by rewrite Hf2, Hf1).
  rewrite Hn3, Hn2, Hn1, Hw2, Hw1, Hw0, Hf3, Hf2, Hf1, Hx3, Hx2, Hx1, Ht3, Ht2, Ht1.
  unfold simple_attempts. by rewrite <- !app_assoc.
Qed.

Lemma simple_record_failure_net name (w : World InfluxServer) :
  let now := clock env (ticks w) in
  let cutoff := now - timedelta_hours (Simple.alert_window_hours CONFIG) in
  let window := filter (λ t, cutoff ≤ t) (failures_of name w ++ [now]) in
  net (exec (Simple.record_failure env CONFIG name) w)
  = net w ++
      (if Simple.alert_threshold CONFIG <=? Z.of_nat (length window)
       then simple_attempts CONFIG name window else []).
Proof.
  intros now cutoff window. unfold exec, Simple.record_failure.
  rewrite run_bind. unfold datetime_now. cbn beta iota.
  rewrite run_bind. unfold modify at 1. cbn beta iota.
  rewrite run_bind. unfold modify at 1. cbn beta iota.
  rewrite run_bind. unfold gets at 1. cbn beta iota.
  set (w1 := set_failures name _ _).
  assert (failures_of name w1 = window) as Hwin.
  { unfold w1, failures_of, set_failures. cbn. by rewrite !lookup_insert_eq. }
  rewrite Hwin, run_bind.
  assert (∃ w2, when (Simple.alert_threshold CONFIG <=? Z.of_nat (length window))
                  (Simple.send_alert env CONFIG name) w1 = (Returned tt, w2)
                ∧ net w2 = net w ++
                    (if Simple.alert_threshold CONFIG <=? Z.of_nat (length window)
                     then simple_attempts CONFIG name window else []))
    as (w2 & E2 & Hn2).
  { destruct (_ <=? _).
    - destruct (simple_send_alert_net name w1) as (w2 & E & Hn & _).
      exists w2. split; [exact E|]. by rewrite Hn, Hwin.
    - exists w1. split; [reflexivity|]. cbn. by rewrite app_nil_r. }
  rewrite E2. cbn beta iota.
  destruct (Simple.influx_enabled (Simple.influxdb CONFIG)); cbn [when].
  - destruct (save_to_influxdb_quiet env CONFIG name "failure" false w2)
      as (w3 & E3 & _ & Hn3).
    rewrite E3. cbn. by rewrite Hn3.
  - exact Hn2.
Qed.
End SimpleDispatch.

(** X6: the network calls of [record_failure] of the simple version: none
    while the pruned window holds fewer than [alert_threshold] entries;
    otherwise one per channel that is enabled and configured, in the order
    email, Slack, Teams, each carrying the pruned window, whatever the SMTP
    server and the webhooks answer.  Writing to InfluxDB adds no call. *)
Theorem X6_simple_failure_dispatch (env : Env) (CONFIG : Simple.Config)
    (service_name : string) (w : World InfluxServer) :
  let now := clock env (ticks w) in
  let cutoff := now - timedelta_hours (Simple.alert_window_hours CONFIG) in
  let window := filter (λ t, cutoff ≤ t) (failures_of service_name w ++ [now]) in
  net (exec (Simple.record_failure env CONFIG service_name) w)
  = net w ++
      (if Simple.alert_threshold CONFIG <=? Z.of_nat (length window)
       then simple_attempts CONFIG service_name window else []).
Proof. exact (simple_record_failure_net env CONFIG service_name w). Qed.

(** ** The event stores *)

(** X7: saving an event to a MongoDB repository and asking it again: the
    repository answers what it answered before, followed by the timestamp
    of the event cut to whole milliseconds, as BSON keeps it, when the
    server is up, the event is a failure of the service asked about and
    its millisecond is not before that of [since]; a check, a restart, or
    an event of another service never shows among the failures, and a
    server that is down gains nothing. *)
Theorem X7_mongo_save_then_query (event : Solid.ServiceEvent) (name : string)
    (since : datetime) (r : Solid.MongoDBRepository.t) :
  answer name since (saved event (Solid.Mongo r))
  = answer name since (Solid.Mongo r)
    ++ (if Solid.MongoDBRepository.up r
           && bool_decide (Solid.service_name event = name
                           ∧ Solid.event_type event = Solid.FAILURE
                           ∧ Solid.MongoDBRepository.bson_datetime since
                             ≤ Solid.MongoDBRepository.bson_datetime
                                 (Solid.timestamp event))
        then [Solid.MongoDBRepository.bson_datetime (Solid.timestamp event)]
        else []).
Proof. exact (mongo_save_then_query event name since r). Qed.

(** A failure of [svc1] at 1 s 123 ms 456 us, asked for since
    1 s 123 ms 999 us: the answer holds it, as 1 s 123 ms. *)
Lemma X7_witness :
  answer "svc1" 1123999
    (saved (failure_event "svc1" 1123456)
       (Solid.Mongo {| Solid.MongoDBRepository.up := true;
                       Solid.MongoDBRepository.service_events := [] |}))
  = [1123000].
Proof.
  etrans; [apply (X7_mongo_save_then_query (failure_event "svc1" 1123456)
                    "svc1" 1123999)|].
  by vm_compute.
Defined.

(** X8: cleaning a MongoDB repository and then asking it for the failures
    since [since] gives what asking for the failures since the later of
    [since] and the cut-off gave before: a clean-up whose cut-off is not
    after [since] never changes the answer. *)
Theorem X8_mongo_cleanup_then_query (cutoff : datetime) (name : string)
    (since : datetime) (r : Solid.MongoDBRepository.t) :
  answer name since (cleaned cutoff (Solid.Mongo r))
  = answer name (Z.max since cutoff) (Solid.Mongo r).
Proof. exact (mongo_cleanup_then_query cutoff name since r). Qed.

(** ** The sorted sets of the Redis repository *)

(** X9: the failure sets of a Redis repository stay well formed under
    [save_event] and [cleanup_old_records]: every member is the ISO text
    of a datetime, scored with the [timestamp()] of that datetime, and the
    members are in the order of Redis, by score and, among equal scores,
    by member.  When [timestamp()] tells the datetimes apart, no two
    members share a score.  [get_failures] leaves the repository as it
    is. *)
Theorem X9_redis_failure_sets_stay_well_formed (event : Solid.ServiceEvent)
    (cutoff : datetime) (name : string) (since : datetime)
    (r : Solid.RedisRepository.t) :
  redis_wf r →
  redis_wf (Solid.RedisRepository.save_event event r).1.2
  ∧ redis_wf (Solid.RedisRepository.cleanup_old_records cutoff r).1.2
  ∧ (Solid.RedisRepository.get_failures name since r).1.2 = r
  ∧ (Inj (=) (=) (Solid.RedisRepository.posix r) →
     StronglySorted by_score
       (redis_failures name (Solid.RedisRepository.save_event event r).1.2)
     ∧ StronglySorted by_score
         (redis_failures name
            (Solid.RedisRepository.cleanup_old_records cutoff r).1.2)).
Proof.
  intros Hwf. split; [by apply redis_wf_saved|].
  split; [by apply redis_wf_cleaned|]. split; [apply redis_wf_asked|].
  intros Hinj. split.
  - apply redis_wf_by_score; [by apply redis_wf_saved|by rewrite posix_saved].
  - apply redis_wf_by_score; [by apply redis_wf_cleaned|by rewrite posix_cleaned].
Qed.

(** A failure of [svc1] saved to an empty store, in a time zone that is
    an hour ahead of UTC. *)
Lemma X9_witness :
  let r := {| Solid.RedisRepository.up := true;
              Solid.RedisRepository.data := ∅;
              Solid.RedisRepository.posix := λ t, t - 3600000000 |} in
  let event := failure_event "svc1" 5 in
  redis_wf (Solid.RedisRepository.save_event event r).1.2
  ∧ redis_wf (Solid.RedisRepository.cleanup_old_records 3 r).1.2
  ∧ (Solid.RedisRepository.get_failures "svc1" 0 r).1.2 = r
  ∧ (Inj (=) (=) (Solid.RedisRepository.posix r) →
     StronglySorted by_score
       (redis_failures "svc1" (Solid.RedisRepository.save_event event r).1.2)
     ∧ StronglySorted by_score
         (redis_failures "svc1"
            (Solid.RedisRepository.cleanup_old_records 3 r).1.2)).
Proof.
  intros r event.
  apply (X9_redis_failure_sets_stay_well_formed event 3 "svc1" 0 r).
  intros name. unfold redis_failures. cbn. split; constructor.
Defined.

(** X10: saving an event to a well-formed Redis repository and asking it
    again: the answer comes in the order of the scores, that is of the
    [timestamp()] of its datetimes, and by datetime among equal scores;
    it holds the datetimes it held before, and that of the event when the
    server is up, the event is a failure of the service asked about and
    its [timestamp()] is not below that of [since].  A failure saved
    twice with the same datetime is counted once. *)
Theorem X10_redis_save_then_query (event : Solid.ServiceEvent) (name : string)
    (since : datetime) (r : Solid.RedisRepository.t) :
  redis_wf r →
  StronglySorted (by_posix (Solid.RedisRepository.posix r))
    (answer name since (saved event (Solid.Redis r)))
  ∧ ∀ t, t ∈ answer name since (saved event (Solid.Redis r))
         ↔ t ∈ answer name since (Solid.Redis r)
           ∨ (Solid.RedisRepository.up r = true
              ∧ Solid.service_name event = name
              ∧ Solid.event_type event = Solid.FAILURE
              ∧ t = Solid.timestamp event
              ∧ Solid.RedisRepository.posix r since
                ≤ Solid.RedisRepository.posix r t).
Proof. exact (redis_save_then_query event name since r). Qed.

(** A clock put forward by 60 at the local datetime 40: the local
    datetimes from 40 to 99 are skipped, and [timestamp()] reads them as
    60 later.  The store holds a failure of [svc1] at the local datetime
    105; a failure at the skipped local datetime 45, of the same score,
    is saved. *)
Lemma X10_witness :
  let empty := {| Solid.RedisRepository.up := true;
                  Solid.RedisRepository.data := ∅;
                  Solid.RedisRepository.posix :=
                    λ t, if decide (40 ≤ t < 100) then t + 60 else t |} in
  let event := failure_event "svc1" 45 in
  let r := (Solid.RedisRepository.save_event (failure_event "svc1" 105) empty).1.2 in
  StronglySorted (by_posix (Solid.RedisRepository.posix r))
    (answer "svc1" 0 (saved event (Solid.Redis r)))
  ∧ ∀ t, t ∈ answer "svc1" 0 (saved event (Solid.Redis r))
         ↔ t ∈ answer "svc1" 0 (Solid.Redis r)
           ∨ (Solid.RedisRepository.up r = true
              ∧ Solid.service_name event = "svc1"
              ∧ Solid.event_type event = Solid.FAILURE
              ∧ t = Solid.timestamp event
              ∧ Solid.RedisRepository.posix r 0
                ≤ Solid.RedisRepository.posix r t).
Proof.
  intros empty event r. apply (X10_redis_save_then_query event "svc1" 0 r).
  apply redis_wf_saved, redis_wf_empty.
Defined.

(** X11: cleaning a well-formed Redis repository and then asking it for
    the failures since [since] gives the earlier answer without the
    datetimes whose [timestamp()] is at most that of the cut-off, the
    cut-off included. *)
Theorem X11_redis_cleanup_then_query (cutoff : datetime) (name : string)
    (since : datetime) (r : Solid.RedisRepository.t) :
  redis_wf r →
  answer name since (cleaned cutoff (Solid.Redis r))
  = filter (λ t, Solid.RedisRepository.posix r cutoff
                 < Solid.RedisRepository.posix r t)
           (answer name since (Solid.Redis r)).
Proof. exact (redis_cleanup_then_query cutoff name since r). Qed.

(** A store that holds the failures of [svc1] at the instants 2, 5 and 9,
    cleaned with the cut-off 5. *)
Lemma X11_witness :
  let empty := {| Solid.RedisRepository.up := true;
                  Solid.RedisRepository.data := ∅;
                  Solid.RedisRepository.posix := λ t, t |} in
  let r := foldl (λ r t, (Solid.RedisRepository.save_event
                            (failure_event "svc1" t) r).1.2) empty [9; 2; 5] in
  answer "svc1" 0 (Solid.Redis r) = [2; 5; 9]
  ∧ answer "svc1" 0 (cleaned 5 (Solid.Redis r)) = [9].
Proof.
  intros empty r. split; [by vm_compute|].
  etrans; [apply (X11_redis_cleanup_then_query 5 "svc1" 0 r)|by vm_compute].
  do 3 apply redis_wf_saved. apply redis_wf_empty.
Defined.

(** ** What a recorded failure sends and keeps, in the solid version *)

(** X12: the network calls of [ServiceDoctor.record_failure]: none while
    the failure list of the alert decision (the answer of the first
    repository that has one, else the pruned in-memory window) holds fewer
    than [alert_threshold] entries; otherwise one per configured channel
    whose configuration is complete, in the order of the configuration,
    each carrying that failure list.  Saving the event and asking the
    repositories add no call. *)
Theorem X12_solid_failure_dispatch {R : Type} `{!Solid.DatabaseRepository R}
    (env : Env) (self : Solid.ServiceDoctor.t) (name : string)
    (w : World (list R)) :
  let now := clock env (ticks w) in
  let cutoff := clock env (S (ticks w)) - solid_window self in
  let dbs := saved (failure_event name now) <$> ext w in
  let memory := filter (λ t, cutoff ≤ t) (failures_of name w ++ [now]) in
  let window := default memory (first_answer (answer name cutoff <$> dbs)) in
  net (exec (Solid.ServiceDoctor.record_failure env self name) w)
  = net w ++ (if solid_threshold self <=? Z.of_nat (length window)
              then flat_map (channel_attempt name window)
                     (Solid.ServiceDoctor.notification_configs self)
              else []).
Proof.
  intros now cutoff dbs memory window.
  destruct (solid_record_failure_effects env self name w) as (w' & E & Hnet & _).
  unfold exec. rewrite E. exact Hnet.
Qed.

(** X13: the in-memory list [ServiceDoctor.record_failure] leaves for the
    service: when a repository supplies the failure list, the list in
    memory is the old one with [now] appended and nothing is pruned from
    it; it is pruned to the window only when no repository has an answer.
    The lists of the other services are left as they were. *)
Theorem X13_solid_memory_pruned_in_fallback_only {R : Type}
    `{!Solid.DatabaseRepository R}
    (env : Env) (self : Solid.ServiceDoctor.t) (name : string)
    (w : World (list R)) :
  let now := clock env (ticks w) in
  let cutoff := clock env (S (ticks w)) - solid_window self in
  let dbs := saved (failure_event name now) <$> ext w in
  let w' := exec (Solid.ServiceDoctor.record_failure env self name) w in
  failures_of name w' =
    match first_answer (answer name cutoff <$> dbs) with
    | Some _ => failures_of name w ++ [now]
    | None => filter (λ t, cutoff ≤ t) (failures_of name w ++ [now])
    end
  ∧ ∀ other, other ≠ name → failures_of other w' = failures_of other w.
Proof.
  intros now cutoff dbs w'. subst w'.
  destruct (solid_record_failure_effects env self name w)
    as (w' & E & _ & Hname & Hother).
  unfold exec. rewrite E. by split.
Qed.

(** ** [main] of the simple version *)

Lemma foldl_jobs_same {X A} (f : World X → A → World X) (xs : list A) :
  (∀ w x, jobs (f w x) = jobs w) → ∀ w, jobs (foldl f w xs) = jobs w.
Proof.
  intros Hf. induction xs as [|x xs IH]; intros w; cbn [foldl]; [done|].
  by rewrite IH, Hf.
Qed.

Lemma monitoring_loop_idle {X} env (call : JobFunc → M (World X) unit) rounds
    (w : World X) :
  jobs w = [] → Solid.monitoring_loop env call rounds w = (Interrupted, w).
Proof.
  intros Hjobs. induction rounds as [|rounds IH]; [done|].
  cbn [Solid.monitoring_loop]. rewrite run_bind.
  unfold Solid.run_pending. rewrite run_bind. unfold gets. cbn beta iota.
  rewrite Hjobs. cbn. exact IH.
Qed.

Section SimpleMainRuns.
Variable env : Env.
Variable CONFIG : Simple.Config.

Lemma simple_call_job_returns f (w : World InfluxServer) :
  ∃ w', SimpleMain.call_job env CONFIG f w = (Returned tt, w')
        ∧ jobs w' = jobs w.
Proof.
  destruct f; cbn [SimpleMain.call_job]; [|by exists w].
  destruct (simple_scan_services_visits env CONFIG w) as (E & _).
  rewrite E. eexists. split; [reflexivity|]. cbn [jobs set_log].
  rewrite foldl_jobs_same; [done|]. intros w0 s.
  destruct (simple_scan_service_returns env CONFIG s w0) as (w1 & E1 & _ & Hj).
  unfold exec. by rewrite E1.
Qed.

(** Without services [main] only writes to the log. *)
Lemma simple_main_idle rounds (w : World InfluxServer) :
  Simple.services CONFIG = [] → jobs w = [] →
  ∃ l, SimpleMain.main env CONFIG rounds w
       = (Returned 0, set_log (log w ++ l) w)
       ∧ last l = Some (Log INFO "Service monitoring stopped by user").
Proof.
  intros Hservices Hjobs. unfold SimpleMain.main. rewrite Hservices.
  rewrite run_bind. unfold logging at 1, modify. cbn beta iota.
  rewrite run_bind. unfold logging at 1, modify. cbn beta iota.
  rewrite run_bind. unfold logging at 1, modify. cbn beta iota.
  rewrite run_bind.
  match goal with
  | |- context [(if ?b then ?m1 else ?m2) ?w0] =>
      assert (∃ r, (if b then m1 else m2) w0
                   = (Returned tt, set_log (log w0 ++ [r]) w0)) as [r Er]
        by (destruct b; eexists; reflexivity);
      rewrite Er
  end.
  cbn beta iota.
  rewrite run_bind. unfold logging at 1, modify. cbn beta iota.
  rewrite run_bind. unfold logging at 1, modify. cbn beta iota.
  rewrite run_bind. unfold logging at 1, modify. cbn beta iota.
  unfold try_except_interrupt. rewrite run_bind.
  rewrite monitoring_loop_idle by done. cbn beta iota.
  rewrite run_bind. unfold logging at 1, modify. cbn beta iota.
  cbn [log set_log]. rewrite <- !app_assoc. eexists. split.
  - unfold mret, M_ret. f_equal.
  - cbn. reflexivity.
Qed.

(** With services [main] makes the initial scan, schedules the scan and
    loops until the interrupt. *)
Lemma simple_main_with_services rounds (w : World InfluxServer) :
  Simple.services CONFIG ≠ [] →
  ∃ w1 w3,
    let w0 :=
      set_log (log w ++ [Log INFO "Linux Service Doctor starting...";
                         Log INFO ("Monitoring services: "
                                   +:+ String.concat ", " (Simple.services CONFIG));
                         Log INFO ("Scan interval: "
                                   +:+ pretty (Simple.scan_interval_minutes CONFIG)
                                   +:+ " minutes");
                         influx_start_record CONFIG]) w in
    Simple.scan_services env CONFIG w0 = (Returned tt, w1)
    ∧ (spawned w + length (Simple.services CONFIG) ≤ spawned w1
       ≤ spawned w + 2 * length (Simple.services CONFIG))%nat
    ∧ let scheduled :=
        exec (Solid.schedule_every env
                (timedelta_minutes (Simple.scan_interval_minutes CONFIG))
                JobScanServices) w1 in
      let w2 :=
        set_log (log scheduled
                 ++ [Log INFO ("Scheduling scans every "
                               +:+ pretty (Simple.scan_interval_minutes CONFIG)
                               +:+ " minutes.");
                     Log INFO "Service monitoring is active"]) scheduled in
      jobs w2 =
        jobs w ++
        [{| period := timedelta_minutes (Simple.scan_interval_minutes CONFIG);
            next_run := clock env (ticks w1)
                        + timedelta_minutes (Simple.scan_interval_minutes CONFIG);
            job_func := JobScanServices |}]
      ∧ Solid.monitoring_loop env (SimpleMain.call_job env CONFIG) rounds w2
        = (Interrupted, w3)
      ∧ let w' :=
          set_log (log w3 ++ [Log INFO "Service monitoring stopped by user"]) w3 in
        SimpleMain.main env CONFIG rounds w = (Returned 0, w')
        ∧ job_kinds w' =
            job_kinds w ++
            [(timedelta_minutes (Simple.scan_interval_minutes CONFIG),
              JobScanServices)].
Proof.
  intros Hservices.
  set (w0 := set_log (log w ++ [Log INFO "Linux Service Doctor starting...";
                                Log INFO ("Monitoring services: "
                                          +:+ String.concat ", "
                                                (Simple.services CONFIG));
                                Log INFO ("Scan interval: "
                                          +:+ pretty (Simple.scan_interval_minutes CONFIG)
                                          +:+ " minutes");
                                influx_start_record CONFIG]) w).
  destruct (simple_scan_services_visits env CONFIG w0) as (E1 & Hsp).
  destruct (simple_call_job_returns JobScanServices w0) as (w1 & E1' & Hj1).
  cbn [SimpleMain.call_job] in E1'.
  assert (exec (Simple.scan_services env CONFIG) w0 = w1) as Hw1
    by (unfold exec; by rewrite E1').
  rewrite Hw1 in Hsp. clear E1.
  change (spawned w0) with (spawned w) in Hsp.
  change (jobs w0) with (jobs w) in Hj1.
  set (scheduled :=
         exec (Solid.schedule_every env
                 (timedelta_minutes (Simple.scan_interval_minutes CONFIG))
                 JobScanServices) w1).
  set (w2 := set_log (log scheduled
                      ++ [Log INFO ("Scheduling scans every "
                                    +:+ pretty (Simple.scan_interval_minutes CONFIG)
                                    +:+ " minutes.");
                          Log INFO "Service monitoring is active"]) scheduled).
  destruct (monitoring_loop_run env (SimpleMain.call_job env CONFIG)
              simple_call_job_returns rounds w2) as (w3 & E3 & Hk3).
  assert (jobs w2 =
            jobs w ++
            [{| period := timedelta_minutes (Simple.scan_interval_minutes CONFIG);
                next_run := clock env (ticks w1)
                            + timedelta_minutes (Simple.scan_interval_minutes CONFIG);
                job_func := JobScanServices |}]) as Hjobs.
  { unfold w2, scheduled, exec, Solid.schedule_every. rewrite !run_bind.
    unfold datetime_now, modify. cbn. by rewrite Hj1. }
  exists w1, w3. cbn zeta. split; [exact E1'|]. split; [exact Hsp|].
  split; [exact Hjobs|]. split; [exact E3|]. split.
  - unfold SimpleMain.main.
    destruct (Simple.services CONFIG) as [|s services] eqn:Hs; [done|].
    rewrite run_bind. unfold logging at 1, modify. cbn beta iota.
    rewrite run_bind. unfold logging at 1, modify. cbn beta iota.
    rewrite run_bind. unfold logging at 1, modify. cbn beta iota.
    rewrite run_bind.
    match goal with
    | |- context [(if ?b then ?m1 else ?m2) ?x] =>
        assert ((if b then m1 else m2) x
                = (Returned tt, set_log (log x ++ [influx_start_record CONFIG]) x))
          as Er
          by (unfold influx_start_record; destruct b; reflexivity);
        rewrite Er
    end.
    cbn beta iota. rewrite run_bind.
    match goal with
    | |- context [Simple.scan_services env CONFIG ?x] =>
        replace x with w0
          by (unfold w0, set_log; cbn; by rewrite <- !app_assoc)
    end.
    rewrite E1'. cbn beta iota.
    rewrite run_bind, run_bind. unfold Solid.schedule_every at 1. rewrite run_bind.
    unfold datetime_now at 1. cbn beta iota. unfold modify at 1. cbn beta iota.
    unfold logging at 1, modify. cbn beta iota.
    rewrite run_bind. unfold logging at 1, modify. cbn beta iota.
    unfold try_except_interrupt. rewrite run_bind.
    match goal with
    | |- context [Solid.monitoring_loop env _ rounds ?x] =>
        replace x with w2
          by (unfold w2, scheduled, exec, Solid.schedule_every, set_log;
              rewrite !run_bind; unfold datetime_now, modify; cbn;
              by rewrite <- !app_assoc)
    end.
    rewrite E3. cbn beta iota. rewrite run_bind.
    unfold logging at 1, modify. by cbn beta iota.
  - unfold job_kinds in *. cbn [jobs set_log]. rewrite Hk3, Hjobs.
    by rewrite fmap_app.
Qed.
End SimpleMainRuns.

(** X14: in the simple version, [main] with an empty [CONFIG["services"]]
    and nothing scheduled before does nothing but write to the log: it
    warns, skips the initial scan and the scheduling, idles in the loop
    until the interrupt, for any number of rounds, and returns 0; no
    command is spawned, no alert is sent, nothing is written to InfluxDB
    and no job is scheduled. *)
Theorem X14_simple_main_idles_without_services (env : Env)
    (CONFIG : Simple.Config) (rounds : nat) (w : World InfluxServer) :
  Simple.services CONFIG = [] → jobs w = [] →
  ∃ l, SimpleMain.main env CONFIG rounds w
       = (Returned 0, set_log (log w ++ l) w)
       ∧ last l = Some (Log INFO "Service monitoring stopped by user").
Proof. exact (simple_main_idle env CONFIG rounds w). Qed.

Lemma X14_witness :
  ∃ l, SimpleMain.main (Example.host Example.ten_minutes [])
         (without_services (Example.simple_config true 1 3)) 3
         Example.simple_start
       = (Returned 0, set_log (log Example.simple_start ++ l) Example.simple_start)
       ∧ last l = Some (Log INFO "Service monitoring stopped by user").
Proof.
  apply (X14_simple_main_idles_without_services
           (Example.host Example.ten_minutes [])
           (without_services (Example.simple_config true 1 3)) 3
           Example.simple_start); reflexivity.
Defined.

(** X15: in the simple version, [main] with at least one service logs its
    start, makes the initial scan of every configured service, then
    schedules the scan every [scan_interval_minutes] minutes, due one
    period after the reading of the clock at which it is scheduled, and
    loops until the interrupt: for any number of rounds it then returns 0,
    never 1, its last record being that the monitoring was stopped by the
    user, and the scan is still scheduled with its period, behind the jobs
    that were there before. *)
Theorem X15_simple_main_stops_cleanly_on_interrupt (env : Env)
    (CONFIG : Simple.Config) (rounds : nat) (w : World InfluxServer) :
  Simple.services CONFIG ≠ [] →
  ∃ w1 w3,
    let w0 :=
      set_log (log w ++ [Log INFO "Linux Service Doctor starting...";
                         Log INFO ("Monitoring services: "
                                   +:+ String.concat ", " (Simple.services CONFIG));
                         Log INFO ("Scan interval: "
                                   +:+ pretty (Simple.scan_interval_minutes CONFIG)
                                   +:+ " minutes");
                         influx_start_record CONFIG]) w in
    Simple.scan_services env CONFIG w0 = (Returned tt, w1)
    ∧ (spawned w + length (Simple.services CONFIG) ≤ spawned w1
       ≤ spawned w + 2 * length (Simple.services CONFIG))%nat
    ∧ let scheduled :=
        exec (Solid.schedule_every env
                (timedelta_minutes (Simple.scan_interval_minutes CONFIG))
                JobScanServices) w1 in
      let w2 :=
        set_log (log scheduled
                 ++ [Log INFO ("Scheduling scans every "
                               +:+ pretty (Simple.scan_interval_minutes CONFIG)
                               +:+ " minutes.");
                     Log INFO "Service monitoring is active"]) scheduled in
      jobs w2 =
        jobs w ++
        [{| period := timedelta_minutes (Simple.scan_interval_minutes CONFIG);
            next_run := clock env (ticks w1)
                        + timedelta_minutes (Simple.scan_interval_minutes CONFIG);
            job_func := JobScanServices |}]
      ∧ Solid.monitoring_loop env (SimpleMain.call_job env CONFIG) rounds w2
        = (Interrupted, w3)
      ∧ let w' :=
          set_log (log w3 ++ [Log INFO "Service monitoring stopped by user"]) w3 in
        SimpleMain.main env CONFIG rounds w = (Returned 0, w')
        ∧ job_kinds w' =
            job_kinds w ++
            [(timedelta_minutes (Simple.scan_interval_minutes CONFIG),
              JobScanServices)].
Proof. exact (simple_main_with_services env CONFIG rounds w). Qed.

(** One service on a host whose services are down, interrupted after
    three rounds of the loop. *)
Lemma X15_witness :
  ∃ w' l,
    SimpleMain.main (Example.host Example.ten_minutes [])
      (Example.simple_config true 1 3) 3 Example.simple_start
    = (Returned 0, w')
    ∧ job_kinds w' = [(300000000, JobScanServices)]
    ∧ log w' = l ++ [Log INFO "Service monitoring stopped by user"].
Proof.
  destruct (X15_simple_main_stops_cleanly_on_interrupt
              (Example.host Example.ten_minutes [])
              (Example.simple_config true 1 3) 3 Example.simple_start)
    as (w1 & w3 & _ & _ & _ & _ & Hrun & Hjobs); [done|].
  eexists. eexists. split; [exact Hrun|]. split; [exact Hjobs|reflexivity].
Defined.

(** ** [load_config] of the simple version *)

Lemma bind_returned_inv {W A B} (m : M W A) (f : A → M W B) w b w' :
  (m ≫= f) w = (Returned b, w') →
  ∃ a w1, m w = (Returned a, w1) ∧ f a w1 = (Returned b, w').
Proof.
  rewrite run_bind. destruct (m w) as [[a|e|] w1]; [eauto|done..].
Qed.

Lemma item_run p key (w : World Json) :
  item p key w = (of_try (getitem (default JNull (read p (ext w))) key), w).
Proof. unfold item. rewrite run_bind. done. Qed.

Lemma item_returned p key (w : World Json) v w' :
  item p key w = (Returned v, w') →
  w' = w ∧ getitem (default JNull (read p (ext w))) key = Ok v.
Proof.
  rewrite item_run. destruct (getitem _ _); cbn; [|done].
  by intros [= -> ->].
Qed.

Lemma getitem_Ok v key x :
  getitem v key = Ok x → ∃ d, v = JDict d ∧ d !! key = Some x.
Proof.
  destruct v; try done. cbn. destruct (_ !! _) eqn:E; [|done].
  intros [= ->]. eauto.
Qed.

Lemma assign_returned p key x (w : World Json) w' :
  assign p key x w = (Returned tt, w') →
  ∃ d, read p (ext w) = Some (JDict d)
       ∧ w' = set_ext (write p (JDict (<[key := x]> d)) (ext w)) w.
Proof.
  unfold assign. rewrite run_bind. unfold deref, gets. cbn beta iota.
  rewrite run_bind. unfold lift_try.
  destruct (read p (ext w)) as [[| | | | |d]|] eqn:E; cbn; try done.
  intros [= <-]. eauto.
Qed.

Section SimpleStartupProofs.
Variable config_path : string.
Variable config_file : option (Try (gmap string Json)).
Variable environ : gmap string string.
Variable repr : Json → string.

Local Abbreviation load_file := (SimpleStartup.load_file config_path config_file).
Local Abbreviation influx_section := (SimpleStartup.influx_section environ).
Local Abbreviation channel_section := (SimpleStartup.channel_section environ).
Local Abbreviation load_config :=
  (SimpleStartup.load_config config_path config_file environ repr).

Lemma load_file_run (w : World Json) :
  ∃ l, load_file w
       = (Returned tt, set_log (log w ++ l) (set_ext (loaded config_file (ext w)) w)).
Proof.
  unfold SimpleStartup.load_file, loaded.
  destruct config_file as [[d|e]|].
  - exists [Log INFO ("Loaded configuration from " +:+ config_path)].
    unfold try_except. rewrite run_bind. unfold lift_try. cbn. done.
  - eexists [_]. unfold try_except. rewrite run_bind. unfold lift_try. cbn.
    unfold logging, modify. destruct w; reflexivity.
  - exists []. cbn. rewrite app_nil_r. by destruct w.
Qed.

Lemma item_influx D i key (w : World Json) :
  ext w = with_influx D i →
  item SimpleStartup.influx_config key w = (of_try (getitem (JDict i) key), w).
Proof.
  intros E. rewrite item_run, E. cbn. by rewrite lookup_insert_eq.
Qed.

Lemma assign_influx D i key x (w : World Json) :
  ext w = with_influx D i →
  assign SimpleStartup.influx_config key x w
  = (Returned tt, set_ext (with_influx D (<[key := x]> i)) w).
Proof.
  intros E. unfold assign. rewrite run_bind. unfold deref, gets. cbn beta iota.
  rewrite E. cbn. rewrite lookup_insert_eq. cbn.
  rewrite run_bind. unfold lift_try. cbn. unfold modify.
  rewrite E. cbn. rewrite lookup_insert_eq. unfold with_influx.
  by rewrite insert_insert_eq.
Qed.

Lemma influx_section_shape (w w' : World Json) :
  influx_section w = (Returned tt, w') →
  ∃ D i, ext w = with_influx D i.
Proof.
  unfold SimpleStartup.influx_section.
  intros (v & w1 & (-> & Hv)%item_returned & H)%bind_returned_inv.
  apply bind_returned_inv in H as (e & w2 & (-> & He)%item_returned & _).
  cbn in Hv. apply getitem_Ok in Hv as (D & HD & Hv).
  rewrite HD in He. cbn in He. rewrite Hv in He. cbn in He.
  apply getitem_Ok in He as (i & -> & _).
  exists D, i. rewrite HD. unfold with_influx. by rewrite insert_id.
Qed.

(** What the section leaves of [CONFIG["influxdb"]]. *)
Lemma influx_section_run D i (w w' : World Json) :
  ext w = with_influx D i →
  influx_section w = (Returned tt, w') →
  ∃ i', ext w' = with_influx D i'
        ∧ (∀ e, i !! "enabled" = Some e → equals_True e = false → i' = i)
        ∧ (∀ e, i' !! "enabled" = Some e → equals_True e = true →
             ∃ token org bucket,
               i' !! "token" = Some token ∧ i' !! "org" = Some org
               ∧ i' !! "bucket" = Some bucket
               ∧ json_truthy token = true ∧ json_truthy org = true
               ∧ json_truthy bucket = true).
Proof.
  intros E. unfold SimpleStartup.influx_section.
  intros (v & w1 & (-> & Hv)%item_returned & H)%bind_returned_inv.
  rewrite run_bind, (item_influx D i) in H by done.
  cbn [getitem] in H.
  destruct (i !! "enabled") as [e|] eqn:He; cbn in H; [|done].
  destruct (equals_True e) eqn:Htrue; cbn [when] in H.
  2:{ injection H as <-. exists i. split; [done|]. split; [done|].
      intros e' He' Ht. congruence. }
  rewrite run_bind, (item_influx D i) in H by done. cbn [getitem] in H.
  destruct (i !! "url") as [url|] eqn:Hurl; cbn in H; [|done].
  rewrite run_bind, (assign_influx D i) in H by done. cbn beta iota in H.
  set (i1 := <["url" := getenv environ "INFLUXDB_URL" url]> i) in H.
  rewrite run_bind, (item_influx D i1) in H by done. cbn [getitem] in H.
  destruct (i1 !! "token") as [token|] eqn:Htoken; cbn in H; [|done].
  rewrite run_bind, (assign_influx D i1) in H by done. cbn beta iota in H.
  set (i2 := <["token" := getenv environ "INFLUXDB_TOKEN" token]> i1) in H.
  rewrite run_bind, (item_influx D i2) in H by done. cbn [getitem] in H.
  destruct (i2 !! "org") as [org|] eqn:Horg; cbn in H; [|done].
  rewrite run_bind, (assign_influx D i2) in H by done. cbn beta iota in H.
  set (i3 := <["org" := getenv environ "INFLUXDB_ORG" org]> i2) in H.
  rewrite run_bind, (item_influx D i3) in H by done. cbn [getitem] in H.
  destruct (i3 !! "bucket") as [bucket|] eqn:Hbucket; cbn in H; [|done].
  rewrite run_bind, (assign_influx D i3) in H by done. cbn beta iota in H.
  set (i4 := <["bucket" := getenv environ "INFLUXDB_BUCKET" bucket]> i3) in H.
  set (w4 := set_ext (with_influx D i4) _) in H.
  assert (ext w4 = with_influx D i4) as E4 by done.
  assert (i4 !! "token" = Some (getenv environ "INFLUXDB_TOKEN" token)) as H4t.
  { unfold i4, i3, i2. rewrite !lookup_insert_ne by done.
    by rewrite lookup_insert_eq. }
  assert (i4 !! "org" = Some (getenv environ "INFLUXDB_ORG" org)) as H4o.
  { unfold i4, i3. rewrite !lookup_insert_ne by done.
    by rewrite lookup_insert_eq. }
  assert (i4 !! "bucket" = Some (getenv environ "INFLUXDB_BUCKET" bucket)) as H4b.
  { unfold i4. by rewrite lookup_insert_eq. }
  assert (i4 !! "enabled" = Some e) as H4e.
  { unfold i4, i3, i2, i1. by rewrite !lookup_insert_ne by done. }
  rewrite run_bind in H. unfold SimpleStartup.and_then at 1 in H.
  rewrite run_bind in H. unfold SimpleStartup.item_true at 1 in H.
  rewrite run_bind, (item_influx D i4) in H by done. cbn [getitem] in H.
  rewrite H4t in H. cbn [of_try] in H. unfold mret at 1, M_ret in H.
  cbn beta iota in H.
  destruct (json_truthy (getenv environ "INFLUXDB_TOKEN" token)) eqn:Tt.
  - unfold SimpleStartup.and_then at 1 in H.
    rewrite run_bind in H. unfold SimpleStartup.item_true at 1 in H.
    rewrite run_bind, (item_influx D i4) in H by done. cbn [getitem] in H.
    rewrite H4o in H. cbn [of_try] in H. unfold mret at 1, M_ret in H.
    cbn beta iota in H.
    destruct (json_truthy (getenv environ "INFLUXDB_ORG" org)) eqn:To.
    + unfold SimpleStartup.item_true at 1 in H.
      rewrite run_bind, (item_influx D i4) in H by done. cbn [getitem] in H.
      rewrite H4b in H. cbn [of_try] in H. unfold mret at 1, M_ret in H.
      cbn beta iota in H.
      destruct (json_truthy (getenv environ "INFLUXDB_BUCKET" bucket)) eqn:Tb.
      * injection H as <-. exists i4. split; [done|].
        split; [intros e' He' Hf; congruence|]. intros _ _ _. eauto 10.
      * rewrite run_bind, (assign_influx D i4) in H by done.
        injection H as <-. eexists. split; [reflexivity|].
        split; [intros e' He' Hf; congruence|].
        intros e'. rewrite lookup_insert_eq. by intros [= <-].
    + unfold mret at 1, M_ret in H. cbn beta iota in H.
      rewrite run_bind, (assign_influx D i4) in H by done.
      injection H as <-. eexists. split; [reflexivity|].
      split; [intros e' He' Hf; congruence|].
      intros e'. rewrite lookup_insert_eq. by intros [= <-].
  - unfold mret at 1, M_ret in H. cbn beta iota in H.
    rewrite run_bind, (assign_influx D i4) in H by done.
    injection H as <-. eexists. split; [reflexivity|].
    split; [intros e' He' Hf; congruence|].
    intros e'. rewrite lookup_insert_eq. by intros [= <-].
Qed.

Lemma item_channel channel D N c key (w : World Json) :
  ext w = with_channel channel D N c →
  item [Field "notification"; Field channel] key w
  = (of_try (getitem (JDict c) key), w).
Proof.
  intros E. rewrite item_run, E. cbn. rewrite lookup_insert_eq. cbn.
  by rewrite lookup_insert_eq.
Qed.

Lemma assign_channel channel D N c key x (w : World Json) :
  ext w = with_channel channel D N c →
  assign [Field "notification"; Field channel] key x w
  = (Returned tt, set_ext (with_channel channel D N (<[key := x]> c)) w).
Proof.
  intros E. unfold assign. rewrite run_bind. unfold deref, gets. cbn beta iota.
  rewrite E. cbn. rewrite lookup_insert_eq. cbn. rewrite lookup_insert_eq. cbn.
  rewrite run_bind. unfold lift_try. cbn. unfold modify.
  rewrite E. cbn. rewrite lookup_insert_eq. cbn. rewrite lookup_insert_eq.
  unfold with_channel. by rewrite !insert_insert_eq.
Qed.

(** What the section of a channel leaves of [CONFIG]. *)
Lemma channel_section_run kind channel secret variable (w w' : World Json) :
  channel_section kind channel secret variable w = (Returned tt, w') →
  ∃ D N c c',
    ext w = with_channel channel D N c
    ∧ ext w' = with_channel channel D N c'
    ∧ (∀ e, c !! "enabled" = Some e → json_truthy e = false → c' = c).
Proof.
  unfold SimpleStartup.channel_section.
  intros (n & w1 & (-> & Hn)%item_returned & H)%bind_returned_inv.
  cbn in Hn. apply getitem_Ok in Hn as (D & HD & Hn).
  rewrite run_bind in H. unfold lift_try at 1 in H.
  destruct (getitem n channel) as [cv|] eqn:Hc; cbn in H; [|done].
  apply getitem_Ok in Hc as (N & -> & Hc).
  rewrite run_bind in H. unfold lift_try at 1 in H.
  destruct (getitem cv "enabled") as [e|] eqn:He; cbn in H; [|done].
  apply getitem_Ok in He as (c & -> & He).
  assert (ext w = with_channel channel D N c) as E.
  { rewrite HD. unfold with_channel. f_equal.
    rewrite (insert_id N) by done. by rewrite insert_id. }
  exists D, N, c.
  destruct (json_truthy e) eqn:Ht; cbn [when] in H.
  2:{ injection H as <-. exists c. by repeat split. }
  rewrite run_bind, (item_channel channel D N c) in H by done.
  cbn [getitem] in H.
  destruct (c !! secret) as [value|] eqn:Hs; cbn in H; [|done].
  rewrite run_bind, (assign_channel channel D N c) in H by done.
  cbn beta iota in H.
  rewrite run_bind, (item_channel channel D N (<[secret := getenv environ variable value]> c))
    in H by done.
  cbn [getitem] in H. rewrite lookup_insert_eq in H. cbn in H.
  eexists. split; [done|]. split.
  - destruct (json_truthy (getenv environ variable value)); cbn in H;
      injection H as <-; reflexivity.
  - intros e' He' Hf. congruence.
Qed.

Lemma with_channel_child channel D N c k :
  k ≠ "notification" →
  child (Field k) (with_channel channel D N c) = D !! k.
Proof. intros Hk. cbn. by rewrite lookup_insert_ne. Qed.

Lemma with_channel_other channel D N c other :
  other ≠ channel →
  read [Field "notification"; Field other] (with_channel channel D N c)
  = N !! other.
Proof.
  intros Hk. cbn. rewrite lookup_insert_eq. cbn.
  rewrite lookup_insert_ne by done. by destruct (N !! other).
Qed.

(** A section of a channel leaves the rest of [CONFIG] as it is. *)
Lemma channel_section_frame kind channel secret variable (w w' : World Json) :
  channel_section kind channel secret variable w = (Returned tt, w') →
  (∀ k, k ≠ "notification" →
        child (Field k) (ext w') = child (Field k) (ext w))
  ∧ (∀ other, other ≠ channel →
        read [Field "notification"; Field other] (ext w')
        = read [Field "notification"; Field other] (ext w))
  ∧ (∀ e, channel_setting channel "enabled" (ext w) = Some e →
          json_truthy e = false → ext w' = ext w).
Proof.
  intros (D & N & c & c' & E & E' & Hoff)%channel_section_run.
  rewrite E, E'. split; [|split].
  - intros k Hk. by rewrite !with_channel_child.
  - intros other Hother. by rewrite !with_channel_other.
  - intros e He Hf. rewrite (Hoff e); [done| |done].
    unfold channel_setting in He. cbn in He.
    rewrite lookup_insert_eq in He. cbn in He.
    rewrite lookup_insert_eq in He. cbn in He. by destruct (c !! "enabled").
Qed.

Lemma influx_section_frame (w w' : World Json) :
  influx_section w = (Returned tt, w') →
  (∀ k, k ≠ "influxdb" →
        child (Field k) (ext w') = child (Field k) (ext w))
  ∧ (∀ e, influx_setting "enabled" (ext w) = Some e →
          equals_True e = false → ext w' = ext w)
  ∧ (∀ e, influx_setting "enabled" (ext w') = Some e →
          equals_True e = true →
          ∃ token org bucket,
            influx_setting "token" (ext w') = Some token
            ∧ influx_setting "org" (ext w') = Some org
            ∧ influx_setting "bucket" (ext w') = Some bucket
            ∧ json_truthy token = true ∧ json_truthy org = true
            ∧ json_truthy bucket = true).
Proof.
  intros H. destruct (influx_section_shape _ _ H) as (D & i & E).
  destruct (influx_section_run D i w w' E H) as (i' & E' & Hoff & Hon).
  assert (∀ j key, influx_setting key (with_influx D j) = j !! key) as Hset.
  { intros j key. unfold influx_setting. cbn. rewrite lookup_insert_eq. cbn.
    by destruct (j !! key). }
  rewrite E, E'. split; [|split].
  - intros k Hk. cbn. by rewrite !lookup_insert_ne.
  - intros e. rewrite Hset. intros He Hf. by rewrite (Hoff e).
  - intros e. rewrite !Hset. apply Hon.
Qed.

(** The sections of [load_config], one after the other. *)
Lemma load_config_returned (w w' : World Json) :
  load_config w = (Returned tt, w') →
  ∃ w1 w2 w3 w4,
    ext w1 = loaded config_file (ext w)
    ∧ influx_section w1 = (Returned tt, w2)
    ∧ channel_section "Email" "email" "password" "EMAIL_PASSWORD" w2
      = (Returned tt, w3)
    ∧ channel_section "Slack" "slack" "webhook_url" "SLACK_WEBHOOK_URL" w3
      = (Returned tt, w4)
    ∧ ∃ w5, channel_section "Teams" "teams" "webhook_url" "TEAMS_WEBHOOK_URL" w4
            = (Returned tt, w5)
            ∧ ext w' = ext w5.
Proof.
  unfold SimpleStartup.load_config.
  intros ([] & w1 & H1 & H)%bind_returned_inv.
  apply bind_returned_inv in H as ([] & w2 & H2 & H).
  apply bind_returned_inv in H as ([] & w3 & H3 & H).
  apply bind_returned_inv in H as ([] & w4 & H4 & H).
  apply bind_returned_inv in H as ([] & w5 & H5 & H).
  exists w1, w2, w3, w4. destruct (load_file_run w) as (l & El).
  rewrite El in H1. injection H1 as <-.
  split; [done|]. split; [done|]. split; [done|]. split; [done|].
  exists w5. split; [done|].
  rewrite run_bind in H. unfold deref, gets, logging, modify in H.
  cbn in H. by injection H as <-.
Qed.

(** The InfluxDB rule of [load_config]. *)
Lemma load_config_influx_rule (w w' : World Json) enabled :
  load_config w = (Returned tt, w') →
  influx_setting "enabled" (ext w') = Some enabled →
  equals_True enabled = true →
  ∃ token org bucket,
    influx_setting "token" (ext w') = Some token
    ∧ influx_setting "org" (ext w') = Some org
    ∧ influx_setting "bucket" (ext w') = Some bucket
    ∧ json_truthy token = true ∧ json_truthy org = true
    ∧ json_truthy bucket = true.
Proof.
  intros (w1 & w2 & w3 & w4 & _ & H2 & H3 & H4 & w5 & H5 & E)%load_config_returned.
  apply influx_section_frame in H2 as (_ & _ & Hon).
  apply channel_section_frame in H3 as (F3 & _).
  apply channel_section_frame in H4 as (F4 & _).
  apply channel_section_frame in H5 as (F5 & _).
  assert (∀ key, influx_setting key (ext w') = influx_setting key (ext w2)) as Hsame.
  { intros key. unfold influx_setting. cbn [read].
    by rewrite E, F5, F4, F3 by done. }
  rewrite !Hsame. apply Hon.
Qed.

(** A section that is not enabled keeps the settings of the file. *)
Lemma load_config_disabled_sections (w w' : World Json) :
  load_config w = (Returned tt, w') →
  let CONFIG := loaded config_file (ext w) in
  (∀ e, influx_setting "enabled" CONFIG = Some e → equals_True e = false →
        child (Field "influxdb") (ext w') = child (Field "influxdb") CONFIG)
  ∧ (∀ channel e,
        channel ∈ ["email"; "slack"; "teams"] →
        channel_setting channel "enabled" CONFIG = Some e →
        json_truthy e = false →
        read [Field "notification"; Field channel] (ext w')
        = read [Field "notification"; Field channel] CONFIG).
Proof.
  intros (w1 & w2 & w3 & w4 & E1 & H2 & H3 & H4 & w5 & H5 & E)%load_config_returned.
  intros CONFIG. subst CONFIG. rewrite <- E1, E.
  apply influx_section_frame in H2 as (F2 & Hoff2 & _).
  apply channel_section_frame in H3 as (F3 & G3 & Hoff3).
  apply channel_section_frame in H4 as (F4 & G4 & Hoff4).
  apply channel_section_frame in H5 as (F5 & G5 & Hoff5).
  assert (∀ channel key, channel_setting channel key (ext w2)
                         = channel_setting channel key (ext w1)) as Hn2.
  { intros channel key. unfold channel_setting. cbn [read].
    by rewrite F2 by done. }
  split.
  - intros e He Hf. rewrite F5, F4, F3 by done. by rewrite (Hoff2 e).
  - intros channel e Hin He Hf.
    assert (∀ u v : World Json,
              read [Field "notification"; Field channel] (ext u)
              = read [Field "notification"; Field channel] (ext v) →
              channel_setting channel "enabled" (ext u)
              = channel_setting channel "enabled" (ext v)) as Hsub.
    { intros u v Huv. unfold channel_setting.
      change [Field "notification"; Field channel; Field "enabled"]
        with ([Field "notification"; Field channel] ++ [Field "enabled"]).
      assert (∀ p q x, read (p ++ q) x = read p x ≫= read q) as Happ.
      { clear. induction p as [|k p IH]; intros q x; [done|].
        cbn. destruct (child k x); cbn; [apply IH|done]. }
      by rewrite !Happ, Huv. }
    assert (read [Field "notification"; Field channel] (ext w2)
            = read [Field "notification"; Field channel] (ext w1)) as R2.
    { cbn [read]. by rewrite F2 by done. }
    rewrite <- R2. rewrite <- Hn2 in He.
    repeat (apply elem_of_cons in Hin as [->|Hin]).
    + rewrite G5, G4 by done. by rewrite (Hoff3 e).
    + rewrite G5 by done. rewrite (Hoff4 e); [by rewrite G3| |done].
      rewrite <- He. apply Hsub. by rewrite G3.
    + rewrite (Hoff5 e); [by rewrite G4, G3| |done].
      rewrite <- He. apply Hsub. by rewrite G4, G3.
    + by apply elem_of_nil in Hin.
Qed.

(** Without [CONFIG["influxdb"]] the call raises. *)
Lemma load_config_needs_influxdb (w : World Json) entries :
  loaded config_file (ext w) = JDict entries →
  entries !! "influxdb" = None →
  outcome load_config w = Raised (mkExn KeyError "'influxdb'")
  ∧ ext (exec load_config w) = JDict entries.
Proof.
  intros Hl Hnone.
  assert (∃ l, load_config w
               = (Raised (mkExn KeyError "'influxdb'"),
                  set_log (log w ++ l) (set_ext (JDict entries) w))) as [l E].
  { destruct (load_file_run w) as (l & El). exists l.
    unfold SimpleStartup.load_config. rewrite run_bind, El.
    rewrite run_bind. unfold SimpleStartup.influx_section.
    rewrite run_bind, item_run. cbn [ext set_log set_ext read].
    rewrite Hl. cbn. rewrite Hnone. reflexivity. }
  unfold outcome, exec. by rewrite E.
Qed.
End SimpleStartupProofs.

(** X16: [load_config] of the simple version needs [CONFIG["influxdb"]]:
    when [CONFIG], once the file is merged into it, has no such key (in
    particular when there is no [config.json] or it cannot be read, since
    [CONFIG] starts empty), the call raises [KeyError('influxdb')] and
    nothing of the environment is applied. *)
Theorem X16_load_config_needs_influxdb (config_path : string)
    (config_file : option (Try (gmap string Json)))
    (environ : gmap string string) (repr : Json → string)
    (w : World Json) (entries : gmap string Json) :
  loaded config_file (ext w) = JDict entries →
  entries !! "influxdb" = None →
  outcome (SimpleStartup.load_config config_path config_file environ repr) w
  = Raised (mkExn KeyError "'influxdb'")
  ∧ ext (exec (SimpleStartup.load_config config_path config_file environ repr) w)
    = JDict entries.
Proof.
  exact (load_config_needs_influxdb config_path config_file environ repr w entries).
Qed.

(** No [config.json]. *)
Lemma X16_witness :
  outcome (SimpleStartup.load_config "config.json" None
             {["INFLUXDB_TOKEN" := "secret"]} no_repr) fresh_CONFIG
  = Raised (mkExn KeyError "'influxdb'")
  ∧ ext (exec (SimpleStartup.load_config "config.json" None
                 {["INFLUXDB_TOKEN" := "secret"]} no_repr) fresh_CONFIG)
    = JDict ∅.
Proof.
  apply (X16_load_config_needs_influxdb "config.json" None
           {["INFLUXDB_TOKEN" := "secret"]} no_repr fresh_CONFIG ∅);
    reflexivity.
Defined.

(** X17: when [load_config] of the simple version returns, InfluxDB is
    enabled ([CONFIG["influxdb"]["enabled"] == True]) only with a token,
    an organisation and a bucket that are not empty: with one of them
    missing after the environment is applied, the call has switched
    InfluxDB off.  The URL is not checked. *)
Theorem X17_influx_enabled_only_when_complete (config_path : string)
    (config_file : option (Try (gmap string Json)))
    (environ : gmap string string) (repr : Json → string)
    (w w' : World Json) (enabled : Json) :
  SimpleStartup.load_config config_path config_file environ repr w
  = (Returned tt, w') →
  influx_setting "enabled" (ext w') = Some enabled →
  equals_True enabled = true →
  ∃ token org bucket,
    influx_setting "token" (ext w') = Some token
    ∧ influx_setting "org" (ext w') = Some org
    ∧ influx_setting "bucket" (ext w') = Some bucket
    ∧ json_truthy token = true ∧ json_truthy org = true
    ∧ json_truthy bucket = true.
Proof.
  exact (load_config_influx_rule config_path config_file environ repr w w' enabled).
Qed.

(** The example file, whose token is empty, with the token in the
    environment. *)
Lemma X17_witness :
  let w' := exec (SimpleStartup.load_config "config.json"
                    (Some (Ok example_config_file))
                    {["INFLUXDB_TOKEN" := "secret"]} no_repr) fresh_CONFIG in
  ∃ token org bucket,
    influx_setting "token" (ext w') = Some token
    ∧ influx_setting "org" (ext w') = Some org
    ∧ influx_setting "bucket" (ext w') = Some bucket
    ∧ json_truthy token = true ∧ json_truthy org = true
    ∧ json_truthy bucket = true.
Proof.
  intros w'.
  apply (X17_influx_enabled_only_when_complete "config.json"
           (Some (Ok example_config_file))
           {["INFLUXDB_TOKEN" := "secret"]} no_repr fresh_CONFIG w' (JBool true));
    by vm_compute.
Defined.

(** X18: when [load_config] of the simple version returns, a section that
    is not enabled is as the file gave it, whatever the environment holds:
    [CONFIG["influxdb"]] when its ["enabled"] is not equal to [True] (a
    string such as "yes" is not), and the section of a channel when its
    ["enabled"] is not truthy. *)
Theorem X18_disabled_sections_ignore_the_environment (config_path : string)
    (config_file : option (Try (gmap string Json)))
    (environ : gmap string string) (repr : Json → string)
    (w w' : World Json) :
  SimpleStartup.load_config config_path config_file environ repr w
  = (Returned tt, w') →
  let CONFIG := loaded config_file (ext w) in
  (∀ e, influx_setting "enabled" CONFIG = Some e → equals_True e = false →
        child (Field "influxdb") (ext w') = child (Field "influxdb") CONFIG)
  ∧ (∀ channel e,
        channel ∈ ["email"; "slack"; "teams"] →
        channel_setting channel "enabled" CONFIG = Some e →
        json_truthy e = false →
        read [Field "notification"; Field channel] (ext w')
        = read [Field "notification"; Field channel] CONFIG).
Proof.
  exact (load_config_disabled_sections config_path config_file environ repr w w').
Qed.

(** The example file, whose channels are off, with a password and a
    webhook in the environment. *)
Lemma X18_witness :
  let environ : gmap string string :=
    {["EMAIL_PASSWORD" := "secret"; "SLACK_WEBHOOK_URL" := "https://hooks.example"]} in
  let w' := exec (SimpleStartup.load_config "config.json"
                    (Some (Ok example_config_file)) environ no_repr)
                 fresh_CONFIG in
  let CONFIG := loaded (Some (Ok example_config_file)) (ext fresh_CONFIG) in
  (∀ e, influx_setting "enabled" CONFIG = Some e → equals_True e = false →
        child (Field "influxdb") (ext w') = child (Field "influxdb") CONFIG)
  ∧ (∀ channel e,
        channel ∈ ["email"; "slack"; "teams"] →
        channel_setting channel "enabled" CONFIG = Some e →
        json_truthy e = false →
        read [Field "notification"; Field channel] (ext w')
        = read [Field "notification"; Field channel] CONFIG).
Proof.
  intros environ w'.
  apply (X18_disabled_sections_ignore_the_environment "config.json"
           (Some (Ok example_config_file)) environ no_repr fresh_CONFIG w').
  by vm_compute.
Defined.

(** ** Start-up of the solid version *)

Section SolidStartupProofs.
Variable config_path : string.
Variable config_file : option (Try Json).
Variable environ : gmap string string.
Variable repr : Json → string.
Variable int_of_str : string → Try Z.

Lemma create_repository_class type enabled config :
  SolidStartup.create_repository repr
    {| SolidStartup.db_type := type; SolidStartup.db_enabled := enabled;
       SolidStartup.db_config := config |}
  = match class_of type with
    | Some class => Ok {| SolidStartup.repository_class := class;
                          SolidStartup.repository_config := config |}
    | None =>
        match SolidStartup.lower_of type with
        | Ok _ => Fails (mkExn ValueError ("Unknown database type: "
                                           +:+ SolidStartup.str repr type))
        | Fails e => Fails e
        end
    end.
Proof.
  unfold SolidStartup.create_repository, class_of. cbn [SolidStartup.db_type].
  destruct type; try done. cbn [SolidStartup.lower_of SolidStartup.db_config].
  destruct (decide (lower s = "influxdb")) as [->|H1]; [done|].
  rewrite (proj2 (String.eqb_neq _ _)) by done.
  destruct (decide (lower s = "redis")) as [->|H2]; [done|].
  rewrite (proj2 (String.eqb_neq _ _)) by done.
  destruct (decide (lower s = "mongodb")) as [->|H3]; [done|].
  by rewrite (proj2 (String.eqb_neq _ _)) by done.
Qed.

Lemma init_database_run {X} acc entry (w : World X) :
  complete_entry entry →
  ∃ l, SolidStartup.init_database repr acc entry w
       = (Returned (acc ++ option_list (registered entry)),
          set_log (log w ++ l) w).
Proof.
  intros (d & -> & Hkeys). unfold SolidStartup.init_database, registered.
  rewrite run_bind. unfold lift_try at 1. cbn [get of_try].
  cbn [switched_on] in *.
  destruct (json_truthy (default (JBool false) (d !! "enabled"))) eqn:Hon.
  2:{ exists []. cbn. rewrite !app_nil_r. by destruct w. }
  destruct (Hkeys eq_refl) as [[type Ht] [config Hc]].
  assert (∃ enabled, d !! "enabled" = Some enabled) as [enabled He].
  { destruct (d !! "enabled"); [eauto|done]. }
  rewrite run_bind. unfold lift_try at 1. cbn [getitem]. rewrite Ht. cbn [of_try].
  rewrite run_bind. unfold lift_try at 1. cbn [getitem]. rewrite He. cbn [of_try].
  rewrite run_bind. unfold lift_try at 1. cbn [getitem]. rewrite Hc. cbn [of_try].
  unfold try_except. rewrite run_bind. unfold lift_try at 1.
  rewrite create_repository_class. cbn [mbind option_bind].
  destruct (class_of type) as [class|]; cbn [of_try option_list].
  - eexists [_]. rewrite run_bind. unfold logging, modify. cbn. done.
  - destruct (SolidStartup.lower_of type); cbn [of_try];
      eexists [_]; rewrite run_bind; unfold logging, modify; cbn;
      by rewrite app_nil_r.
Qed.

Lemma collect_databases {X} entries : ∀ acc (w : World X),
  Forall complete_entry entries →
  ∃ l, SolidStartup.collect (SolidStartup.init_database repr) entries acc w
       = (Returned (acc ++ omap registered entries), set_log (log w ++ l) w).
Proof.
  induction entries as [|entry entries IH]; intros acc w Hall.
  - exists []. cbn. rewrite !app_nil_r. by destruct w.
  - apply Forall_cons in Hall as [Hentry Hall].
    cbn [SolidStartup.collect]. rewrite run_bind.
    destruct (init_database_run acc entry w Hentry) as (l1 & ->).
    destruct (IH (acc ++ option_list (registered entry))
                 (set_log (log w ++ l1) w) Hall) as (l2 & ->).
    exists (l1 ++ l2).
    assert (acc ++ omap registered (entry :: entries)
            = (acc ++ option_list (registered entry)) ++ omap registered entries)
      as -> by (cbn; destruct (registered entry); cbn;
                by rewrite <- ?app_assoc, ?app_nil_r).
    cbn. by rewrite app_assoc.
Qed.

Lemma NotificationType_of_channel type :
  SolidStartup.NotificationType_of repr type
  = match channel_of type with
    | Some channel => Ok channel
    | None => Fails (mkExn ValueError
                       (repr type +:+ " is not a valid NotificationType"))
    end.
Proof.
  unfold SolidStartup.NotificationType_of, channel_of, equals_str.
  destruct type as [| | |s| |]; try done.
  destruct (decide (s = "email")) as [->|H1]; [done|].
  rewrite (proj2 (String.eqb_neq _ _)) by done.
  destruct (decide (s = "slack")) as [->|H2]; [done|].
  rewrite (proj2 (String.eqb_neq _ _)) by done.
  destruct (decide (s = "teams")) as [->|H3]; [done|].
  by rewrite (proj2 (String.eqb_neq _ _)) by done.
Qed.

Lemma init_notification_run {X} acc entry (w : World X) :
  complete_entry entry → known_channel entry →
  SolidStartup.init_notification repr acc entry w
  = (Returned (acc ++ option_list (notified entry)), w).
Proof.
  intros (d & -> & Hkeys) Hknown.
  unfold SolidStartup.init_notification, notified, known_channel in *.
  rewrite run_bind. unfold lift_try at 1. cbn [get of_try].
  cbn [switched_on] in *.
  destruct (json_truthy (default (JBool false) (d !! "enabled"))) eqn:Hon.
  2:{ cbn. by rewrite app_nil_r. }
  destruct (Hkeys eq_refl) as [[type Ht] [config Hc]].
  destruct (Hknown eq_refl) as (type' & Ht' & [channel Hch]).
  cbn [getitem] in Ht'. rewrite Ht in Ht'. injection Ht' as <-.
  assert (∃ enabled, d !! "enabled" = Some enabled) as [enabled He].
  { destruct (d !! "enabled"); [eauto|done]. }
  rewrite run_bind. unfold lift_try at 1. cbn [getitem]. rewrite Ht. cbn [of_try].
  rewrite run_bind. unfold lift_try at 1.
  rewrite NotificationType_of_channel, Hch. cbn [of_try].
  rewrite run_bind. unfold lift_try at 1. cbn [getitem]. rewrite He. cbn [of_try].
  rewrite run_bind. unfold lift_try at 1. cbn [getitem]. rewrite Hc. cbn [of_try].
  cbn. by rewrite Hch.
Qed.

Lemma init_notification_unknown {X} acc d type (w : World X) :
  switched_on (JDict d) = true → d !! "type" = Some type →
  channel_of type = None →
  SolidStartup.init_notification repr acc (JDict d) w
  = (Raised (mkExn ValueError (repr type +:+ " is not a valid NotificationType")),
     w).
Proof.
  intros Hon Ht Hch. unfold SolidStartup.init_notification.
  rewrite run_bind. unfold lift_try at 1. cbn [get of_try].
  cbn [switched_on] in Hon. rewrite Hon.
  rewrite run_bind. unfold lift_try at 1. cbn [getitem]. rewrite Ht. cbn [of_try].
  rewrite run_bind. unfold lift_try at 1.
  by rewrite NotificationType_of_channel, Hch.
Qed.

Lemma collect_notifications {X} entries : ∀ acc (w : World X),
  Forall complete_entry entries → Forall known_channel entries →
  SolidStartup.collect (SolidStartup.init_notification repr) entries acc w
  = (Returned (acc ++ omap notified entries), w).
Proof.
  induction entries as [|entry entries IH]; intros acc w Hall Hknown.
  - cbn. by rewrite app_nil_r.
  - apply Forall_cons in Hall as [Hentry Hall].
    apply Forall_cons in Hknown as [Hk Hknown].
    cbn [SolidStartup.collect]. rewrite run_bind.
    rewrite init_notification_run by done. rewrite IH by done.
    f_equal. f_equal. cbn. destruct (notified entry); cbn;
      by rewrite <- ?app_assoc, ?app_nil_r.
Qed.

Lemma collect_notifications_unknown {X} pre d type post acc (w : World X) :
  Forall complete_entry pre → Forall known_channel pre →
  switched_on (JDict d) = true → d !! "type" = Some type →
  channel_of type = None →
  SolidStartup.collect (SolidStartup.init_notification repr)
    (pre ++ JDict d :: post) acc w
  = (Raised (mkExn ValueError (repr type +:+ " is not a valid NotificationType")),
     w).
Proof.
  intros Hall Hknown Hon Ht Hch. revert acc.
  induction pre as [|entry pre IH]; intros acc.
  - cbn [app SolidStartup.collect]. rewrite run_bind.
    by rewrite (init_notification_unknown acc d type w).
  - apply Forall_cons in Hall as [Hentry Hall].
    apply Forall_cons in Hknown as [Hk Hknown].
    cbn [app SolidStartup.collect]. rewrite run_bind.
    rewrite init_notification_run by done. by apply IH.
Qed.

Local Abbreviation init :=
  (SolidStartup.init config_path config_file environ repr int_of_str).
Local Abbreviation load_config :=
  (SolidStartup.load_config config_path config_file environ int_of_str).

(** [__init__] on a configuration whose entries are complete and whose
    channels are known. *)
Lemma init_run (w w1 : World Json) config dbs ns :
  load_config w = (Returned config, w1) →
  get config "databases" (JList []) = Ok (JList dbs) →
  get config "notifications" (JList []) = Ok (JList ns) →
  Forall complete_entry dbs →
  Forall complete_entry ns → Forall known_channel ns →
  ∃ l, init w
       = (Returned {| SolidStartup.doctor_config := config;
                      SolidStartup.databases := omap registered dbs;
                      SolidStartup.notification_configs := omap notified ns |},
          set_service_failures ∅ (set_log (log w1 ++ l) w1)).
Proof.
  intros Hload Hdbs Hns Hcd Hcn Hkn. unfold SolidStartup.init.
  rewrite run_bind, Hload. cbn beta iota.
  rewrite run_bind. unfold lift_try at 1. rewrite Hdbs. cbn [of_try].
  rewrite run_bind. unfold lift_try at 1. cbn [iterate of_try].
  rewrite run_bind.
  destruct (collect_databases dbs [] w1 Hcd) as (l & ->). exists l.
  cbn beta iota.
  rewrite run_bind. unfold lift_try at 1. rewrite Hns. cbn [of_try].
  rewrite run_bind. unfold lift_try at 1. cbn [iterate of_try].
  rewrite run_bind, collect_notifications by done. cbn beta iota.
  rewrite run_bind. unfold modify. cbn. done.
Qed.

(** [__init__] on a configuration with a channel of unknown type. *)
Lemma init_unknown_channel (w w1 : World Json) config dbs pre d type post :
  load_config w = (Returned config, w1) →
  get config "databases" (JList []) = Ok (JList dbs) →
  get config "notifications" (JList []) = Ok (JList (pre ++ JDict d :: post)) →
  Forall complete_entry dbs →
  Forall complete_entry pre → Forall known_channel pre →
  switched_on (JDict d) = true → d !! "type" = Some type →
  channel_of type = None →
  outcome init w
  = Raised (mkExn ValueError (repr type +:+ " is not a valid NotificationType")).
Proof.
  intros Hload Hdbs Hns Hcd Hcn Hkn Hon Ht Hch.
  unfold outcome, SolidStartup.init.
  rewrite run_bind, Hload. cbn beta iota.
  rewrite run_bind. unfold lift_try at 1. rewrite Hdbs. cbn [of_try].
  rewrite run_bind. unfold lift_try at 1. cbn [iterate of_try].
  rewrite run_bind.
  destruct (collect_databases dbs [] w1 Hcd) as (l & ->).
  cbn beta iota.
  rewrite run_bind. unfold lift_try at 1. rewrite Hns. cbn [of_try].
  rewrite run_bind. unfold lift_try at 1. cbn [iterate of_try].
  rewrite run_bind.
  by rewrite (collect_notifications_unknown pre d type post) by done.
Qed.

Lemma for_each_unchanged {W A} (body : A → M W unit) (xs : list A) (w : W) :
  Forall (λ x, body x w = (Returned tt, w)) xs →
  for_each xs body w = (Returned tt, w).
Proof.
  induction 1 as [|x xs Hx _ IH]; [done|].
  cbn [for_each]. by rewrite run_bind, Hx.
Qed.

Lemma for_each_entry_unchanged key body c entries (w : World Json) :
  ext w = JDict c →
  get (JDict c) key (JList []) = Ok (JList entries) →
  (∀ i entry, entries !! i = Some entry → c !! key = Some (JList entries) →
     body [Field key; Index i] w = (Returned tt, w)) →
  SolidStartup.for_each_entry key body w = (Returned tt, w).
Proof.
  intros E Hget Hbody. unfold SolidStartup.for_each_entry.
  rewrite run_bind. unfold item_get. rewrite run_bind.
  unfold deref, gets. cbn beta iota. rewrite E. cbn [read default from_option id].
  unfold lift_try. rewrite Hget. cbn [of_try].
  apply for_each_unchanged, Forall_forall. intros i Hi.
  apply elem_of_seq in Hi as [_ Hi]. cbn in Hi.
  destruct (lookup_lt_is_Some_2 entries i Hi) as [entry He].
  apply (Hbody i entry He).
  cbn in Hget. destruct (c !! key) as [v|] eqn:Hk; cbn in Hget.
  - by injection Hget as ->.
  - injection Hget as <-. by rewrite lookup_nil in He.
Qed.

Lemma item_entry key i c entries d field (w : World Json) :
  ext w = JDict c → c !! key = Some (JList entries) →
  entries !! i = Some (JDict d) →
  item [Field key; Index i] field w = (of_try (getitem (JDict d) field), w).
Proof.
  intros E Hk Hi. rewrite item_run, E. cbn. rewrite Hk. cbn. by rewrite Hi.
Qed.

Lemma override_database_unmatched i c dbs entry (w : World Json) :
  ext w = JDict c → c !! "databases" = Some (JList dbs) →
  dbs !! i = Some entry →
  unmatched ["influxdb"; "redis"; "mongodb"] entry →
  SolidStartup.override_database environ int_of_str [Field "databases"; Index i] w
  = (Returned tt, w).
Proof.
  intros E Hk Hi (d & type & -> & Ht & Hnames).
  apply Forall_cons in Hnames as [H1 Hnames].
  apply Forall_cons in Hnames as [H2 Hnames].
  apply Forall_cons in Hnames as [H3 _].
  unfold SolidStartup.override_database.
  rewrite run_bind, (item_entry "databases" i c dbs d) by done.
  cbn [getitem]. rewrite Ht. cbn [of_try]. rewrite H1.
  rewrite run_bind, (item_entry "databases" i c dbs d) by done.
  cbn [getitem]. rewrite Ht. cbn [of_try]. rewrite H2.
  rewrite run_bind, (item_entry "databases" i c dbs d) by done.
  cbn [getitem]. rewrite Ht. cbn [of_try]. by rewrite H3.
Qed.

Lemma override_notification_unmatched i c ns entry (w : World Json) :
  ext w = JDict c → c !! "notifications" = Some (JList ns) →
  ns !! i = Some entry →
  unmatched ["email"; "slack"; "teams"] entry →
  SolidStartup.override_notification environ [Field "notifications"; Index i] w
  = (Returned tt, w).
Proof.
  intros E Hk Hi (d & type & -> & Ht & Hnames).
  apply Forall_cons in Hnames as [H1 Hnames].
  apply Forall_cons in Hnames as [H2 Hnames].
  apply Forall_cons in Hnames as [H3 _].
  unfold SolidStartup.override_notification.
  rewrite run_bind, (item_entry "notifications" i c ns d) by done.
  cbn [getitem]. rewrite Ht. cbn [of_try]. rewrite H1.
  rewrite run_bind, (item_entry "notifications" i c ns d) by done.
  cbn [getitem]. rewrite Ht. cbn [of_try]. rewrite H2.
  rewrite run_bind, (item_entry "notifications" i c ns d) by done.
  cbn [getitem]. rewrite Ht. cbn [of_try]. by rewrite H3.
Qed.

(** Entries whose types are not written as the code compares them are not
    touched. *)
Lemma override_unmatched c dbs ns (w : World Json) :
  ext w = JDict c →
  get (JDict c) "databases" (JList []) = Ok (JList dbs) →
  get (JDict c) "notifications" (JList []) = Ok (JList ns) →
  Forall (unmatched ["influxdb"; "redis"; "mongodb"]) dbs →
  Forall (unmatched ["email"; "slack"; "teams"]) ns →
  SolidStartup.override_with_env_vars environ int_of_str w = (Returned tt, w).
Proof.
  intros E Hdbs Hns Hud Hun. unfold SolidStartup.override_with_env_vars.
  rewrite run_bind.
  rewrite (for_each_entry_unchanged "databases"
             (SolidStartup.override_database environ int_of_str) c dbs w E Hdbs).
  - apply (for_each_entry_unchanged "notifications" _ c ns w E Hns).
    intros i entry Hi Hk.
    apply (override_notification_unmatched i c ns entry w E Hk Hi).
    eapply Forall_forall; [exact Hun|]. by eapply list_elem_of_lookup_2.
  - intros i entry Hi Hk.
    apply (override_database_unmatched i c dbs entry w E Hk Hi).
    eapply Forall_forall; [exact Hud|]. by eapply list_elem_of_lookup_2.
Qed.
End SolidStartupProofs.

(** X19: [ServiceDoctor.__init__] on a configuration whose entries are
    dicts that have a type and a configuration when they are switched on,
    and whose channels have known types: it returns; [self.databases]
    holds one repository per switched-on entry of ["databases"] whose type
    names a known class, whatever the case of its letters, in the order
    of the file; a switched-on database of unknown type is logged and
    passed over; [self.notification_configs] holds the switched-on
    channels in the order of the file; only the log and the in-memory
    failures change. *)
Theorem X19_init_registers_known_databases (config_path : string)
    (config_file : option (Try Json)) (environ : gmap string string)
    (repr : Json → string) (int_of_str : string → Try Z)
    (w w1 : World Json) (config : Json) (dbs ns : list Json) :
  SolidStartup.load_config config_path config_file environ int_of_str w
  = (Returned config, w1) →
  get config "databases" (JList []) = Ok (JList dbs) →
  get config "notifications" (JList []) = Ok (JList ns) →
  Forall complete_entry dbs →
  Forall complete_entry ns → Forall known_channel ns →
  ∃ l, SolidStartup.init config_path config_file environ repr int_of_str w
       = (Returned {| SolidStartup.doctor_config := config;
                      SolidStartup.databases := omap registered dbs;
                      SolidStartup.notification_configs := omap notified ns |},
          set_service_failures ∅ (set_log (log w1 ++ l) w1)).
Proof.
  exact (init_run config_path config_file environ repr int_of_str
           w w1 config dbs ns).
Qed.

(** The example file with a Slack channel: the MongoDB repository is
    registered, the entry typed "cassandra" is passed over. *)
Lemma X19_witness :
  let config := example_solid_config "slack" in
  let load := SolidStartup.load_config "config.json" (Some (Ok config)) ∅
                example_int in
  ∃ l, SolidStartup.init "config.json" (Some (Ok config)) ∅ example_repr
         example_int fresh_CONFIG
       = (Returned
            {| SolidStartup.doctor_config := config;
               SolidStartup.databases :=
                 [{| SolidStartup.repository_class := SolidStartup.MongoDBClass;
                     SolidStartup.repository_config :=
                       JDict {["connection_string" := JStr "mongodb://db"]} |}];
               SolidStartup.notification_configs :=
                 [{| SolidStartup.notification_type := Solid.SLACK;
                     SolidStartup.enabled := JBool true;
                     SolidStartup.config := JDict {["webhook_url" := JStr ""]} |}] |},
          set_service_failures ∅
            (set_log (log (exec load fresh_CONFIG) ++ l) (exec load fresh_CONFIG))).
Proof.
  intros config load.
  apply (X19_init_registers_known_databases "config.json" (Some (Ok config)) ∅
           example_repr example_int fresh_CONFIG (exec load fresh_CONFIG) config
           [example_entry "MongoDB" true
              [("connection_string", JStr "mongodb://db")];
            example_entry "cassandra" true [];
            example_entry "Redis" false []]
           [example_entry "slack" true [("webhook_url", JStr "")]]).
  - by vm_compute.
  - by vm_compute.
  - by vm_compute.
  - repeat constructor; eexists; (split; [reflexivity|]); intros _;
      split; vm_compute; eexists; reflexivity.
  - repeat constructor; eexists; (split; [reflexivity|]); intros _;
      split; vm_compute; eexists; reflexivity.
  - repeat constructor. intros _. eexists. split; [by vm_compute|].
    vm_compute. eexists. reflexivity.
Defined.

(** X20: [ServiceDoctor.__init__] on a configuration with a switched-on
    channel whose type is not "email", "slack" or "teams", the entries
    before it being in order: the construction raises [ValueError], where
    a database of unknown type is passed over. *)
Theorem X20_unknown_channel_type_aborts_init (config_path : string)
    (config_file : option (Try Json)) (environ : gmap string string)
    (repr : Json → string) (int_of_str : string → Try Z)
    (w w1 : World Json) (config : Json) (dbs pre post : list Json)
    (d : gmap string Json) (type : Json) :
  SolidStartup.load_config config_path config_file environ int_of_str w
  = (Returned config, w1) →
  get config "databases" (JList []) = Ok (JList dbs) →
  get config "notifications" (JList []) = Ok (JList (pre ++ JDict d :: post)) →
  Forall complete_entry dbs →
  Forall complete_entry pre → Forall known_channel pre →
  switched_on (JDict d) = true → d !! "type" = Some type →
  channel_of type = None →
  outcome (SolidStartup.init config_path config_file environ repr int_of_str) w
  = Raised (mkExn ValueError (repr type +:+ " is not a valid NotificationType")).
Proof.
  exact (init_unknown_channel config_path config_file environ repr int_of_str
           w w1 config dbs pre d type post).
Qed.

(** The example file with a channel typed "sms". *)
Lemma X20_witness :
  let config := example_solid_config "sms" in
  outcome (SolidStartup.init "config.json" (Some (Ok config)) ∅ example_repr
             example_int) fresh_CONFIG
  = Raised (mkExn ValueError "'sms' is not a valid NotificationType").
Proof.
  intros config.
  apply (X20_unknown_channel_type_aborts_init "config.json" (Some (Ok config)) ∅
           example_repr example_int fresh_CONFIG
           (exec (SolidStartup.load_config "config.json" (Some (Ok config)) ∅
                    example_int) fresh_CONFIG)
           config
           [example_entry "MongoDB" true
              [("connection_string", JStr "mongodb://db")];
            example_entry "cassandra" true [];
            example_entry "Redis" false []]
           [] []
           (list_to_map [("type", JStr "sms"); ("enabled", JBool true);
                         ("config", JDict (list_to_map
                                             [("webhook_url", JStr "")]))])
           (JStr "sms")).
  - by vm_compute.
  - by vm_compute.
  - by vm_compute.
  - repeat constructor; eexists; (split; [reflexivity|]); intros _;
      split; vm_compute; eexists; reflexivity.
  - constructor.
  - constructor.
  - by vm_compute.
  - by vm_compute.
  - reflexivity.
Defined.

(** X21: [_override_with_env_vars] compares the types as they are
    written: on a configuration none of whose entries has a type written
    exactly "influxdb", "redis", "mongodb", "email", "slack" or "teams",
    it changes nothing, whatever the environment holds; a database typed
    "Redis" is registered by the factory and yet keeps the settings of
    the file. *)
Theorem X21_override_compares_types_as_written (environ : gmap string string)
    (int_of_str : string → Try Z) (c : gmap string Json) (dbs ns : list Json)
    (w : World Json) :
  ext w = JDict c →
  get (JDict c) "databases" (JList []) = Ok (JList dbs) →
  get (JDict c) "notifications" (JList []) = Ok (JList ns) →
  Forall (unmatched ["influxdb"; "redis"; "mongodb"]) dbs →
  Forall (unmatched ["email"; "slack"; "teams"]) ns →
  SolidStartup.override_with_env_vars environ int_of_str w = (Returned tt, w).
Proof. exact (override_unmatched environ int_of_str c dbs ns w). Qed.

(** The example file, with settings for Redis and MongoDB in the
    environment. *)
Lemma X21_witness :
  let environ : gmap string string :=
    {["REDIS_HOST" := "cache"; "MONGODB_CONNECTION_STRING" := "mongodb://other"]} in
  let w := set_ext (example_solid_config "sms") fresh_CONFIG in
  SolidStartup.override_with_env_vars environ example_int w = (Returned tt, w).
Proof.
  intros environ w.
  apply (X21_override_compares_types_as_written environ example_int
           (list_to_map
              [("services", JList [JStr "svc1"]);
               ("databases",
                JList [example_entry "MongoDB" true
                         [("connection_string", JStr "mongodb://db")];
                       example_entry "cassandra" true [];
                       example_entry "Redis" false []]);
               ("notifications",
                JList [example_entry "sms" true [("webhook_url", JStr "")]])])
           [example_entry "MongoDB" true
              [("connection_string", JStr "mongodb://db")];
            example_entry "cassandra" true [];
            example_entry "Redis" false []]
           [example_entry "sms" true [("webhook_url", JStr "")]] w).
  - reflexivity.
  - by vm_compute.
  - by vm_compute.
  - repeat constructor; eexists _, _; (split; [reflexivity|]);
      (split; [by vm_compute|]); by repeat constructor.
  - repeat constructor; eexists _, _; (split; [reflexivity|]);
      (split; [by vm_compute|]); by repeat constructor.
Defined.

(** ** The Redis port *)

Lemma for_each_app {W A} (body : A → M W unit) (xs ys : list A) (w : W) :
  for_each (xs ++ ys) body w
  = (for_each xs body;; for_each ys body) w.
Proof.
  revert w. induction xs as [|x xs IH]; intros w; cbn [app for_each].
  - by rewrite run_bind.
  - rewrite !run_bind. destruct (body x w) as [[[]|e|] w1]; [|done..].
    rewrite IH. by rewrite run_bind.
Qed.

(** Writing below an object that is there. *)
Lemma read_write_field p key x d old tree :
  read p tree = Some (JDict d) → d !! key = Some old →
  read p (write (p ++ [Field key]) x tree) = Some (JDict (<[key := x]> d)).
Proof.
  revert tree. induction p as [|k p IH]; intros tree Hread Hold.
  - cbn in *. injection Hread as ->. by rewrite Hold.
  - cbn [read] in Hread. cbn [app write read].
    destruct k as [f|i], tree as [| | | |l|m]; cbn in Hread; try done.
    + destruct (m !! f) as [c|] eqn:Hc; cbn in Hread; [|done].
      cbn. rewrite lookup_insert_eq. cbn. by apply IH.
    + destruct (l !! i) as [c|] eqn:Hc; cbn in Hread; [|done].
      cbn. rewrite list_lookup_insert_eq by (by eapply lookup_lt_Some). cbn.
      by apply IH.
Qed.

Section RedisPort.
Variable environ : gmap string string.
Variable int_of_str : string → Try Z.

Lemma item_at p d key (w : World Json) :
  read p (ext w) = Some (JDict d) →
  item p key w = (of_try (getitem (JDict d) key), w).
Proof. intros E. by rewrite item_run, E. Qed.

(** [override] on an entry whose configuration is a dict. *)
Lemma override_run p d cfg key variable (w : World Json) :
  read p (ext w) = Some (JDict d) → d !! "config" = Some (JDict cfg) →
  ∃ w', SolidStartup.override environ p key variable w = (Returned tt, w')
        ∧ read p (ext w')
          = Some (JDict (<["config" :=
                             JDict (<[key := getenv environ variable
                                               (default JNull (cfg !! key))]> cfg)]> d)).
Proof.
  intros Hp Hc. unfold SolidStartup.override.
  rewrite run_bind, (item_at p d) by done. cbn [getitem]. rewrite Hc. cbn [of_try].
  rewrite run_bind. unfold lift_try at 1. cbn [get of_try].
  rewrite run_bind, (item_at p d) by done. cbn [getitem]. rewrite Hc. cbn [of_try].
  unfold assign. rewrite run_bind. unfold deref, gets. cbn beta iota.
  assert (read (p ++ [Field "config"]) (ext w) = Some (JDict cfg)) as Hpc.
  { clear -Hp Hc. revert Hp. generalize (ext w).
    induction p as [|k p IH]; intros tree Hp; cbn in *.
    - injection Hp as ->. by rewrite Hc.
    - destruct (child k tree); cbn in *; [by apply IH|done]. }
  rewrite Hpc. cbn [default from_option id].
  rewrite run_bind. unfold lift_try. cbn [setitem of_try]. unfold modify.
  eexists. split; [reflexivity|]. cbn [ext set_ext].
  rewrite (read_write_field p "config" _ d (JDict cfg)) by done. done.
Qed.

(** The Redis branch stops at a port [int] refuses. *)
Lemma override_database_bad_port p d cfg s e (w : World Json) :
  read p (ext w) = Some (JDict d) →
  d !! "type" = Some (JStr "redis") → d !! "config" = Some (JDict cfg) →
  environ !! "REDIS_PORT" = Some s → int_of_str s = Fails e →
  outcome (SolidStartup.override_database environ int_of_str p) w = Raised e.
Proof.
  intros Hp Ht Hc Henv Hint. unfold outcome, SolidStartup.override_database.
  rewrite run_bind, (item_at p d) by done. cbn [getitem]. rewrite Ht.
  cbn [of_try equals_str String.eqb]. cbn.
  rewrite run_bind, (item_at p d) by done. cbn [getitem]. rewrite Ht. cbn.
  rewrite run_bind.
  destruct (override_run p d cfg "host" "REDIS_HOST" w Hp Hc) as (w1 & -> & Hp1).
  cbn beta iota.
  rewrite run_bind, (item_at p _ "config" w1 Hp1). cbn [getitem].
  rewrite lookup_insert_eq. cbn [of_try].
  rewrite run_bind. unfold lift_try at 1. cbn [get of_try].
  rewrite run_bind. unfold lift_try at 1. unfold getenv. rewrite Henv.
  cbn [SolidStartup.int]. by rewrite Hint.
Qed.

Lemma override_bad_redis_port c pre d post cfg s e (w : World Json) :
  ext w = JDict c →
  c !! "databases" = Some (JList (pre ++ JDict d :: post)) →
  Forall (unmatched ["influxdb"; "redis"; "mongodb"]) pre →
  d !! "type" = Some (JStr "redis") → d !! "config" = Some (JDict cfg) →
  environ !! "REDIS_PORT" = Some s → int_of_str s = Fails e →
  outcome (SolidStartup.override_with_env_vars environ int_of_str) w = Raised e.
Proof.
  intros E Hk Hpre Ht Hc Henv Hint.
  unfold outcome, SolidStartup.override_with_env_vars.
  rewrite run_bind. unfold SolidStartup.for_each_entry at 1.
  rewrite run_bind. unfold item_get. rewrite run_bind.
  unfold deref, gets. cbn beta iota. rewrite E. cbn [read default from_option id].
  unfold lift_try. cbn [get]. rewrite Hk. cbn [default from_option id of_try].
  rewrite length_app. cbn [length]. rewrite seq_app. cbn [seq].
  rewrite for_each_app, run_bind.
  rewrite for_each_unchanged.
  - cbn [for_each]. rewrite run_bind.
    pose proof (override_database_bad_port
                  [Field "databases"; Index (0 + length pre)] d cfg s e w) as Hbad.
    unfold outcome in Hbad.
    destruct (SolidStartup.override_database _ _ _ w) as [o w1].
    cbn in Hbad. rewrite Hbad; [done| |done..].
    rewrite E. cbn. rewrite Hk. cbn.
    by rewrite lookup_app_r, Nat.sub_diag by lia.
  - apply Forall_forall. intros i [_ Hi]%elem_of_seq. cbn in Hi.
    destruct (lookup_lt_is_Some_2 pre i Hi) as [entry He].
    apply (override_database_unmatched environ int_of_str i c
             (pre ++ JDict d :: post) entry w E Hk).
    + by rewrite lookup_app_l.
    + eapply Forall_forall; [exact Hpre|]. by eapply list_elem_of_lookup_2.
Qed.

Lemma init_bad_redis_port config_path repr c pre d post cfg s e (w : World Json) :
  c !! "databases" = Some (JList (pre ++ JDict d :: post)) →
  Forall (unmatched ["influxdb"; "redis"; "mongodb"]) pre →
  d !! "type" = Some (JStr "redis") → d !! "config" = Some (JDict cfg) →
  environ !! "REDIS_PORT" = Some s → int_of_str s = Fails e →
  outcome (SolidStartup.init config_path (Some (Ok (JDict c))) environ repr
             int_of_str) w
  = Raised e.
Proof.
  intros Hk Hpre Ht Hc Henv Hint.
  unfold outcome, SolidStartup.init. rewrite run_bind.
  unfold SolidStartup.load_config. rewrite run_bind.
  unfold try_except. rewrite run_bind. unfold lift_try at 1. cbn [of_try].
  rewrite run_bind. unfold modify at 1. cbn beta iota.
  unfold logging, modify. cbn beta iota. rewrite run_bind.
  match goal with
  | |- context [SolidStartup.override_with_env_vars _ _ ?w0] =>
      pose proof (override_bad_redis_port c pre d post cfg s e w0 eq_refl
                    Hk Hpre Ht Hc Henv Hint) as Hbad;
      unfold outcome in Hbad;
      destruct (SolidStartup.override_with_env_vars environ int_of_str w0)
        as [o w1]
  end.
  cbn in Hbad. by rewrite Hbad.
Qed.
End RedisPort.

(** X22: [_override_with_env_vars] converts the Redis port of every entry
    typed "redis", switched on or not: when the environment holds a
    [REDIS_PORT] that [int] refuses, the entries before the Redis entry
    being left alone, the conversion raises, nothing catches it, and
    [ServiceDoctor.__init__] raises with it. *)
Theorem X22_bad_redis_port_aborts_init (config_path : string)
    (environ : gmap string string) (repr : Json → string)
    (int_of_str : string → Try Z) (c : gmap string Json)
    (pre post : list Json) (d cfg : gmap string Json) (s : string) (e : Exn)
    (w : World Json) :
  c !! "databases" = Some (JList (pre ++ JDict d :: post)) →
  Forall (unmatched ["influxdb"; "redis"; "mongodb"]) pre →
  d !! "type" = Some (JStr "redis") → d !! "config" = Some (JDict cfg) →
  environ !! "REDIS_PORT" = Some s → int_of_str s = Fails e →
  outcome (SolidStartup.init config_path (Some (Ok (JDict c))) environ repr
             int_of_str) w
  = Raised e.
Proof.
  exact (init_bad_redis_port environ int_of_str config_path repr
           c pre d post cfg s e w).
Qed.

(** A file whose only database is a Redis entry that is switched off,
    with [REDIS_PORT=default] in the environment. *)
Lemma X22_witness :
  let c : gmap string Json :=
    list_to_map [("databases", JList [example_entry "redis" false []])] in
  outcome (SolidStartup.init "config.json" (Some (Ok (JDict c)))
             {["REDIS_PORT" := "default"]} example_repr example_int)
          fresh_CONFIG
  = Raised (mkExn ValueError
              "invalid literal for int() with base 10: 'default'").
Proof.
  intros c.
  apply (X22_bad_redis_port_aborts_init "config.json"
           {["REDIS_PORT" := "default"]} example_repr example_int c
           [] []
           (list_to_map [("type", JStr "redis"); ("enabled", JBool false);
                         ("config", JDict (list_to_map []))])
           ∅ "default"
           (mkExn ValueError "invalid literal for int() with base 10: 'default'")
           fresh_CONFIG).
  - by vm_compute.
  - constructor.
  - by vm_compute.
  - by vm_compute.
  - by vm_compute.
  - by vm_compute.
Defined.
